(** * mimclib: the adaptive Multi-Index Monte Carlo estimator (mimclib/mimc.py)

    A shallow embedding of the numerical core of [mimc.py] and the proofs of
    its specified properties.

    Conventions of the embedding.
    - A numpy [float64] is an extended real with a not-a-number value:
      [NaN], [PInf], [NInf] or a finite real [Fin r].  Arithmetic on finite
      values is exact (no rounding, no overflow, one unsigned zero); the
      special values follow IEEE 754 as numpy applies it (warnings are not
      errors: [x / 0] is an infinity or [NaN]).
    - A one-dimensional array is a list; the power-sum tables of shape
      [(levels, moments)] are a [matrix].
    - Integer arrays ([M], the active flags, multi-indices) hold [Z].
    - A Python exception is the [Raise] case of [result].
    - Objects mutated in place are records updated functionally. *)

From Stdlib Require Import String Reals ROrderedType ZArith List Bool Lia Lra.
Import ListNotations.

Set Implicit Arguments.

(** ** Exceptions *)

Inductive exn : Type :=
| IndexError
| TypeError
| ValueError
| AssertionError
| AttributeError
| NameError
| Exception (msg : string).

Inductive result (A : Type) : Type :=
| Ok (a : A)
| Raise (e : exn).

Arguments Ok {A} a.
Arguments Raise {A} e.

Definition bind {A B : Type} (m : result A) (k : A -> result B) : result B :=
  match m with
  | Ok a => k a
  | Raise e => Raise e
  end.

Notation "x <- m ;; k" := (bind m (fun x => k))
  (at level 61, m at next level, right associativity).

Definition assert (b : bool) : result unit :=
  if b then Ok tt else Raise AssertionError.

Fixpoint mapM {A B : Type} (f : A -> result B) (l : list A) : result (list B) :=
  match l with
  | [] => Ok []
  | a :: l' => b <- f a ;; bs <- mapM f l' ;; Ok (b :: bs)
  end.

(** ** float64 *)

Module F64.

Inductive float64 : Type :=
| NaN
| PInf
| NInf
| Fin (r : R).

Definition of_Z (z : Z) : float64 := Fin (IZR z).

Definition zero : float64 := Fin 0.
Definition one : float64 := Fin 1.

Definition isnan (a : float64) : bool :=
  match a with NaN => true | _ => false end.

Definition isfinite (a : float64) : bool :=
  match a with Fin _ => true | _ => false end.

(** Sign of a value that is not [NaN]: [Lt] negative, [Eq] zero, [Gt]
    positive. *)
Definition sign (a : float64) : comparison :=
  match a with
  | NaN => Eq
  | PInf => Gt
  | NInf => Lt
  | Fin r => Rcompare r 0
  end.

Definition opp (a : float64) : float64 :=
  match a with
  | NaN => NaN
  | PInf => NInf
  | NInf => PInf
  | Fin r => Fin (- r)
  end.

Definition add (a b : float64) : float64 :=
  match a, b with
  | NaN, _ | _, NaN => NaN
  | PInf, NInf | NInf, PInf => NaN
  | PInf, _ | _, PInf => PInf
  | NInf, _ | _, NInf => NInf
  | Fin x, Fin y => Fin (x + y)
  end.

Definition sub (a b : float64) : float64 := add a (opp b).

(** The infinity whose sign is the product of two signs; [NaN] when one of
    them is zero. *)
Definition inf_of_signs (s t : comparison) : float64 :=
  match s, t with
  | Eq, _ | _, Eq => NaN
  | Gt, Gt | Lt, Lt => PInf
  | Gt, Lt | Lt, Gt => NInf
  end.

Definition mul (a b : float64) : float64 :=
  match a, b with
  | NaN, _ | _, NaN => NaN
  | Fin x, Fin y => Fin (x * y)
  | _, _ => inf_of_signs (sign a) (sign b)
  end.

Definition div (a b : float64) : float64 :=
  match a, b with
  | NaN, _ | _, NaN => NaN
  | Fin x, Fin y =>
      match Rcompare y 0 with
      | Eq => inf_of_signs (Rcompare x 0) Gt
      | _ => Fin (x / y)
      end
  | Fin _, _ => Fin 0
  | _, Fin y =>
      match Rcompare y 0 with
      | Lt => opp a
      | _ => a
      end
  | _, _ => NaN
  end.

Definition sqrt (a : float64) : float64 :=
  match a with
  | NaN | NInf => NaN
  | PInf => PInf
  | Fin r => match Rcompare r 0 with Lt => NaN | _ => Fin (R_sqrt.sqrt r) end
  end.

Definition abs (a : float64) : float64 :=
  match a with
  | NaN => NaN
  | PInf | NInf => PInf
  | Fin r => Fin (Rabs r)
  end.

Definition exp (a : float64) : float64 :=
  match a with
  | NaN => NaN
  | PInf => PInf
  | NInf => Fin 0
  | Fin r => Fin (Rtrigo_def.exp r)
  end.

(** Comparisons: every comparison with [NaN] is false. *)
Definition leb (a b : float64) : bool :=
  match a, b with
  | NaN, _ | _, NaN => false
  | NInf, _ | _, PInf => true
  | PInf, _ | _, NInf => false
  | Fin x, Fin y => match Rcompare x y with Gt => false | _ => true end
  end.

Definition ltb (a b : float64) : bool :=
  match a, b with
  | NaN, _ | _, NaN => false
  | PInf, _ | _, NInf => false
  | NInf, _ | _, PInf => true
  | Fin x, Fin y => match Rcompare x y with Lt => true | _ => false end
  end.

Definition eqb (a b : float64) : bool :=
  match a, b with
  | PInf, PInf | NInf, NInf => true
  | Fin x, Fin y => match Rcompare x y with Eq => true | _ => false end
  | _, _ => false
  end.

(** [np.maximum]: propagates [NaN]. *)
Definition maximum (a b : float64) : float64 :=
  match a, b with
  | NaN, _ | _, NaN => NaN
  | _, _ => if leb a b then b else a
  end.

(** [x ** n] for an integer exponent: C's [pow], exact here.  [pow(x, 0)]
    is 1 for every [x], [NaN] included. *)
Fixpoint pow_nat (a : float64) (n : nat) : float64 :=
  match n with
  | O => one
  | S O => a
  | S n' => mul a (pow_nat a n')
  end.

Definition pow_int (a : float64) (n : Z) : float64 :=
  match n with
  | Z0 => one
  | Zpos p => pow_nat a (Pos.to_nat p)
  | Zneg p => div one (pow_nat a (Pos.to_nat p))
  end.

(** [np.ceil] *)
Definition ceil (a : float64) : float64 :=
  match a with
  | Fin r => Fin (IZR (- Int_part (- r)))
  | _ => a
  end.

Definition int64_min : Z := (- 2 ^ 63)%Z.

(** [.astype(np.int)]: truncation toward zero; a value that does not fit in
    an int64 ([NaN] and the infinities included) converts to the smallest
    int64, as the conversion instruction of the x86-64 does. *)
Definition astype_int (a : float64) : Z :=
  match a with
  | Fin r =>
      let z := match Rcompare r 0 with
               | Lt => (- Int_part (- r))%Z
               | _ => Int_part r
               end in
      if ((int64_min <=? z) && (z <? 2 ^ 63))%Z then z else int64_min
  | _ => int64_min
  end.

End F64.

Import F64.

Declare Scope f64_scope.
Delimit Scope f64_scope with f64.
Infix "+" := add : f64_scope.
Infix "-" := sub : f64_scope.
Infix "*" := mul : f64_scope.
Infix "/" := div : f64_scope.
Notation "- x" := (opp x) : f64_scope.

(** ** numpy arrays *)

Module Np.

Definition arange (n : Z) : list Z := map Z.of_nat (seq 0 (Z.to_nat n)).

Fixpoint map2 {A B C : Type} (f : A -> B -> C) (a : list A) (b : list B)
  : list C :=
  match a, b with
  | x :: a', y :: b' => f x y :: map2 f a' b'
  | _, _ => []
  end.

(** Elementwise binary operation of two one-dimensional arrays, with numpy's
    broadcasting of an array of length 1. *)
Definition broadcast2 {A B C : Type} (f : A -> B -> C) (a : list A)
  (b : list B) : result (list C) :=
  if Nat.eqb (length a) (length b) then Ok (map2 f a b)
  else match a, b with
       | [x], _ => Ok (map (f x) b)
       | _, [y] => Ok (map (fun x => f x y) a)
       | _, _ => Raise ValueError
       end.

(** [a[mask]] for a boolean mask. *)
Fixpoint compress {A : Type} (mask : list bool) (a : list A) : list A :=
  match mask, a with
  | b :: mask', x :: a' =>
      if b then x :: compress mask' a' else compress mask' a'
  | _, _ => []
  end.

Definition getmask {A : Type} (a : list A) (mask : list bool)
  : result (list A) :=
  if Nat.eqb (length mask) (length a) then Ok (compress mask a)
  else Raise IndexError.

(** [a[mask] = v] for a scalar [v]. *)
Fixpoint putmask {A : Type} (a : list A) (mask : list bool) (v : A)
  : list A :=
  match a, mask with
  | x :: a', b :: mask' => (if b then v else x) :: putmask a' mask' v
  | _, _ => a
  end.

Definition setmask_scalar {A : Type} (a : list A) (mask : list bool) (v : A)
  : result (list A) :=
  if Nat.eqb (length mask) (length a) then Ok (putmask a mask v)
  else Raise IndexError.

(** [a[mask] = vals] for an array [vals]: the values go, in order, to the
    positions where the mask is true. *)
Fixpoint place {A : Type} (a : list A) (mask : list bool) (vals : list A)
  : list A :=
  match a, mask with
  | x :: a', b :: mask' =>
      if b then
        match vals with
        | v :: vals' => v :: place a' mask' vals'
        | [] => x :: place a' mask' []
        end
      else x :: place a' mask' vals
  | _, _ => a
  end.

Definition count_true (mask : list bool) : nat :=
  length (filter (fun b => b) mask).

Definition setmask {A : Type} (a : list A) (mask : list bool) (vals : list A)
  : result (list A) :=
  if Nat.eqb (length mask) (length a) then
    if Nat.eqb (length vals) (count_true mask) then Ok (place a mask vals)
    else match vals with
         | [v] => Ok (putmask a mask v)
         | _ => Raise ValueError
         end
  else Raise IndexError.

(** [np.nonzero(mask)[0]] *)
Fixpoint nonzero_from (i : Z) (mask : list bool) : list Z :=
  match mask with
  | [] => []
  | b :: mask' =>
      if b then i :: nonzero_from (i + 1) mask' else nonzero_from (i + 1) mask'
  end.

Definition nonzero (mask : list bool) : list Z := nonzero_from 0 mask.

(** [a[i]] for an integer [i]: a negative index counts from the end. *)
Definition getitem {A : Type} (a : list A) (i : Z) : result A :=
  let n := Z.of_nat (length a) in
  let j := if (i <? 0)%Z then (i + n)%Z else i in
  if ((0 <=? j) && (j <? n))%Z then
    match nth_error a (Z.to_nat j) with
    | Some x => Ok x
    | None => Raise IndexError
    end
  else Raise IndexError.

(** [a[idx]] for an array of integer indices. *)
Definition take {A : Type} (a : list A) (idx : list Z) : result (list A) :=
  mapM (getitem a) idx.

Fixpoint update {A : Type} (a : list A) (n : nat) (v : A) : list A :=
  match a, n with
  | [], _ => []
  | _ :: a', O => v :: a'
  | x :: a', S n' => x :: update a' n' v
  end.

(** [a[i] = v] for an integer [i]. *)
Definition setitem {A : Type} (a : list A) (i : Z) (v : A) : result (list A) :=
  let n := Z.of_nat (length a) in
  let j := if (i <? 0)%Z then (i + n)%Z else i in
  if ((0 <=? j) && (j <? n))%Z then Ok (update a (Z.to_nat j) v)
  else Raise IndexError.

(** [a[lo:hi] = v] with [0 <= lo]: the slice is clipped to the array. *)
Fixpoint setslice {A : Type} (a : list A) (lo hi : nat) (v : A) : list A :=
  match a with
  | [] => []
  | x :: a' =>
      match lo, hi with
      | _, O => a
      | O, S hi' => v :: setslice a' O hi' v
      | S lo', S hi' => x :: setslice a' lo' hi' v
      end
  end.

(** [a.resize(n)]: in place, truncating or padding with zeros. *)
Definition resize {A : Type} (zero : A) (a : list A) (n : nat) : list A :=
  firstn n a ++ repeat zero (n - length a).

Definition sum (a : list float64) : float64 := fold_left add a zero.

Definition sumZ (a : list Z) : Z := fold_left Z.add a 0%Z.

Fixpoint cumsum_from (acc : float64) (a : list float64) : list float64 :=
  match a with
  | [] => []
  | x :: a' => let s := add acc x in s :: cumsum_from s a'
  end.

Definition cumsum (a : list float64) : list float64 :=
  match a with
  | [] => []
  | x :: a' => x :: cumsum_from x a'
  end.

Fixpoint cumprod_from (acc : float64) (a : list float64) : list float64 :=
  match a with
  | [] => []
  | x :: a' => let s := mul acc x in s :: cumprod_from s a'
  end.

Definition cumprod (a : list float64) : list float64 :=
  match a with
  | [] => []
  | x :: a' => x :: cumprod_from x a'
  end.

(** Two-dimensional float arrays of shape [(length rows, ncols)]. *)
Record matrix : Type := Matrix {
  ncols : nat;
  rows : list (list float64)
}.

Definition nrows (m : matrix) : nat := length (rows m).

Definition wf_matrix (m : matrix) : Prop :=
  Forall (fun r => length r = ncols m) (rows m).

Definition zeros (n p : nat) : matrix :=
  Matrix p (repeat (repeat zero p) n).

Definition zeros_like (m : matrix) : matrix := zeros (nrows m) (ncols m).

(** [np.empty_like]: the contents are unspecified; every use below
    overwrites all of them. *)
Definition empty_like (m : matrix) : matrix :=
  Matrix (ncols m) (repeat (repeat NaN (ncols m)) (nrows m)).

(** [m[:, j]] for a column [0 <= j]. *)
Definition column (m : matrix) (j : nat) : result (list float64) :=
  if Nat.ltb j (ncols m) then Ok (map (fun r => nth j r NaN) (rows m))
  else Raise IndexError.

(** [m.resize((n,) + m.shape[1:])] *)
Definition resize_rows (m : matrix) (n : nat) : matrix :=
  Matrix (ncols m) (resize (repeat zero (ncols m)) (rows m) n).

End Np.

(** ** Module-level functions of mimc.py *)

Local Open Scope Z_scope.

(** [_calcTheoryM(TOL, theta, Vl, Wl, active_lvls, ceil=True, minM=1, Ca=2)].
    With [ceil] the result is an integer array ([inl]), without it the float
    array ([inr]). *)
Definition _calcTheoryM (TOL theta : float64) (Vl Wl : list float64)
  (active_lvls : list Z) (ceil : bool) (minM : float64) (Ca : float64)
  : result (list Z + list float64) :=
  let act := map (fun a => 0 <=? a) active_lvls in
  Wl_act <- Np.getmask Wl act ;;
  Vl_act <- Np.getmask Vl act ;;
  WV <- Np.broadcast2 mul Wl_act Vl_act ;;
  VW <- Np.broadcast2 div Vl Wl ;;
  let c := (pow_int (theta * TOL / Ca) (-2) * Np.sum (map sqrt WV))%f64 in
  let M := map (fun x => (c * sqrt x)%f64) VW in
  let M := map (fun x => maximum x minM) M in
  M <- Np.setmask_scalar M (map isnan M) minM ;;
  M <- Np.setmask_scalar M (map negb act) zero ;;
  if ceil then Ok (inl (map (fun x => astype_int (F64.ceil x)) M))
  else Ok (inr M).

(** [denom] of [calc_ml2r_weights]. *)
Definition ml2r_denom (alpha : float64) (L : Z) : list float64 :=
  one :: Np.cumprod
           (map (fun l => (one - exp (- alpha * of_Z (l + 1)))%f64)
                (Np.arange (L + 1))).

(** [w] of [calc_ml2r_weights], before the reverse cumulative sum. *)
Definition ml2r_w (alpha : float64) (L : Z) : result (list float64) :=
  let denom := ml2r_denom alpha L in
  mapM (fun l =>
          d1 <- Np.getitem denom l ;;
          d2 <- Np.getitem denom (L - l) ;;
          Ok (of_Z ((-1) ^ (L - l))
              * exp (- alpha * of_Z (L - l) * of_Z (L + 1 - l) / Fin 2)
              / (d1 * d2))%f64)
       (Np.arange (L + 1)).

Definition calc_ml2r_weights (alpha : float64) (L : Z)
  : result (list float64) :=
  w <- ml2r_w alpha L ;;
  Ok (rev (Np.cumsum (rev w))).

(** [_expand(b, 0, shape)] for a two-dimensional [shape]: [b] as a column,
    repeated along the rows. *)
Definition _expand {A : Type} (b : list A) (shape : nat * nat)
  : result (list (list A)) :=
  _ <- assert (Nat.eqb (length b) (fst shape)) ;;
  Ok (map (fun x => repeat x (snd shape)) b).

(** [_expand(b, 0, shape)] for a one-dimensional [shape]. *)
Definition _expand1 {A : Type} (b : list A) (shape : nat) : result (list A) :=
  _ <- assert (Nat.eqb (length b) shape) ;;
  Ok b.

Definition compute_raw_moments (psums : Np.matrix) (M : list Z)
  : result Np.matrix :=
  let idx := map (fun m => negb (m =? 0)) M in
  let val := Np.empty_like psums in
  psums_idx <- Np.getmask (Np.rows psums) idx ;;
  M_idx <- Np.getmask M idx ;;
  val_idx <- Np.getmask (Np.rows val) idx ;;
  Mx <- _expand M_idx (length val_idx, Np.ncols val) ;;
  let scaled :=
    Np.map2 (Np.map2 (fun x m => (x * (one / of_Z m))%f64)) psums_idx Mx in
  rows1 <- Np.setmask (Np.rows val) idx scaled ;;
  rows2 <- Np.setmask_scalar rows1 (map (fun m => m =? 0) M)
             (repeat NaN (Np.ncols val)) ;;
  Ok (Np.Matrix (Np.ncols val) rows2).

(** [np.math.factorial] *)
Definition factorial (n : Z) : result Z :=
  if n <? 0 then Raise ValueError else Ok (Z.of_nat (fact (Z.to_nat n))).

(** One round of the loop of [compute_central_moment]. *)
Definition central_moment_step (raw : Np.matrix) (raw0 : list float64)
  (n nfact : Z) (val : list float64) (k : nat) : result (list float64) :=
  fk <- factorial (Z.of_nat k) ;;
  fnk <- factorial (n - Z.of_nat k) ;;
  let nchoosek := (of_Z nfact / of_Z (fk * fnk))%f64 in
  rawk <- Np.column raw (k - 1) ;;
  Ok (Np.map2 add val
        (Np.map2 (fun rk r0 =>
                    (rk * pow_int r0 (n - Z.of_nat k) * nchoosek
                     * of_Z ((-1) ^ (n - Z.of_nat k)))%f64)
                 rawk raw0)).

Fixpoint central_moment_loop (raw : Np.matrix) (raw0 : list float64)
  (n nfact : Z) (val : list float64) (ks : list nat) : result (list float64) :=
  match ks with
  | [] => Ok val
  | k :: ks' =>
      val' <- central_moment_step raw raw0 n nfact val k ;;
      central_moment_loop raw raw0 n nfact val' ks'
  end.

Definition compute_central_moment (psums : Np.matrix) (M : list Z)
  (moment : Z) : result (list float64) :=
  raw <- compute_raw_moments psums M ;;
  if moment =? 1 then Np.column raw 0
  else
    let n := moment in
    raw0 <- Np.column raw 0 ;;
    let val := map (fun x => (pow_int x n * of_Z ((-1) ^ n))%f64) raw0 in
    nfact <- factorial n ;;
    central_moment_loop raw raw0 n nfact val (seq 1 (Z.to_nat moment)).

(** [itertools.product] of the seeds: the rightmost position advances
    first. *)
Fixpoint product (seeds : list (list Z)) : list (list Z) :=
  match seeds with
  | [] => [[]]
  | s :: seeds' =>
      flat_map (fun x => map (cons x) (product seeds')) s
  end.

(** The seed that the loop of [expand_delta] appends for a coordinate. *)
Definition seed (l : Z) : list Z := if l =? 0 then [0] else [0; 1].

(** [expand_delta(lvl)]: the pair [(mods, levels)]. *)
Definition expand_delta (lvl : list Z) : list Z * list (list Z) :=
  let seeds := map seed lvl in
  let inds := product seeds in
  let mods :=
    map (fun e => (2 * Np.sumZ lvl mod 2 - 1) * (2 * (Np.sumZ e mod 2) - 1))
        inds in
  (mods, map (fun e => Np.map2 Z.sub lvl e) inds).

(** ** MIMCItrData *)

(** The level set, [setutil.VarSizeList], lives outside mimc.py.  Here it is
    the list of its multi-indices in the order of their positions; [len] is
    the length of that list.  Its set operations that mimc.py calls
    ([add_from_list], [is_boundary]) are parameters of the sections below. *)
Definition VarSizeList : Type := list (list Z).

(** [Bunch]: the bundle [Q] of fitted constants.  An attribute that was not
    given is absent; reading it raises [AttributeError]. *)
Record Bunch : Type := MkBunch {
  Q_S : option float64;
  Q_W : option float64;
  Q_w : option (list float64);
  Q_s : option (list float64);
  Q_theta : option float64
}.

Definition getattr {A : Type} (o : option A) : result A :=
  match o with
  | Some a => Ok a
  | None => Raise AttributeError
  end.

Record MIMCItrData : Type := MkItr {
  moments : Z;
  _lvls : VarSizeList;
  psums_delta : option Np.matrix;
  psums_fine : option Np.matrix;
  tT : list float64;
  tW : list float64;
  M : list Z;
  bias : float64;
  stat_error : float64;
  exact_error : float64;
  TOL : option float64;
  total_time : option float64;
  Q : option Bunch;
  Vl_estimate : list float64;
  _lvls_count : nat;
  weights : list float64;
  active_lvls : list Z
}.

Module Itr.

Definition lvls_count (self : MIMCItrData) : nat := _lvls_count self.

(** [_levels_added]: grow the per-level arrays to the length of the level
    set. *)
Definition _levels_added (self : MIMCItrData) : result MIMCItrData :=
  let new_count := length (_lvls self) in
  _ <- assert (Nat.leb (_lvls_count self) new_count) ;;
  if Nat.eqb new_count (_lvls_count self) then Ok self
  else
    Ok {| moments := moments self;
          _lvls := _lvls self;
          psums_delta :=
            option_map (fun m => Np.resize_rows m new_count) (psums_delta self);
          psums_fine :=
            option_map (fun m => Np.resize_rows m new_count) (psums_fine self);
          tT := Np.resize zero (tT self) new_count;
          tW := Np.resize zero (tW self) new_count;
          M := Np.resize 0 (M self) new_count;
          bias := bias self;
          stat_error := stat_error self;
          exact_error := exact_error self;
          TOL := TOL self;
          total_time := total_time self;
          Q := Q self;
          Vl_estimate := Np.resize zero (Vl_estimate self) new_count;
          _lvls_count := new_count;
          weights :=
            Np.setslice (Np.resize zero (weights self) new_count)
              (_lvls_count self) new_count one;
          active_lvls :=
            Np.setslice (Np.resize 0 (active_lvls self) new_count)
              (_lvls_count self) new_count 1 |}.

(** [MIMCItrData(parent, min_dim, moments, lvls)] *)
Definition __init__ (moments : Z) (lvls : option VarSizeList)
  : result MIMCItrData :=
  _levels_added
    {| moments := moments;
       _lvls := match lvls with Some l => l | None => [] end;
       psums_delta := None;
       psums_fine := None;
       tT := [];
       tW := [];
       M := [];
       bias := PInf;
       stat_error := PInf;
       exact_error := NaN;
       TOL := None;
       total_time := None;
       Q := None;
       Vl_estimate := [];
       _lvls_count := 0;
       weights := [];
       active_lvls := [] |}.

Definition total_error_est (self : MIMCItrData) : float64 :=
  (bias self
   + (if negb (isnan (stat_error self)) then stat_error self else of_Z 0))%f64.

(** [zero_samples(ind=None)]; a given [ind] is one integer position. *)
Definition zero_samples (self : MIMCItrData) (ind : option Z)
  : result MIMCItrData :=
  match ind with
  | None =>
      Ok {| moments := moments self;
            _lvls := _lvls self;
            psums_delta := option_map Np.zeros_like (psums_delta self);
            psums_fine := option_map Np.zeros_like (psums_fine self);
            tT := map (fun _ => of_Z 0) (tT self);
            tW := map (fun _ => of_Z 0) (tW self);
            M := map (fun _ => 0) (M self);
            bias := bias self;
            stat_error := stat_error self;
            exact_error := exact_error self;
            TOL := TOL self;
            total_time := total_time self;
            Q := Q self;
            Vl_estimate := Vl_estimate self;
            _lvls_count := _lvls_count self;
            weights := weights self;
            active_lvls := active_lvls self |}
  | Some i =>
      M' <- Np.setitem (M self) i 0 ;;
      tT' <- Np.setitem (tT self) i (of_Z 0) ;;
      tW' <- Np.setitem (tW self) i (of_Z 0) ;;
      pd' <- match psums_delta self with
             | None => Ok None
             | Some m =>
                 r <- Np.setitem (Np.rows m) i (repeat zero (Np.ncols m)) ;;
                 Ok (Some (Np.Matrix (Np.ncols m) r))
             end ;;
      pf' <- match psums_fine self with
             | None => Ok None
             | Some m =>
                 r <- Np.setitem (Np.rows m) i (repeat zero (Np.ncols m)) ;;
                 Ok (Some (Np.Matrix (Np.ncols m) r))
             end ;;
      Ok {| moments := moments self;
            _lvls := _lvls self;
            psums_delta := pd';
            psums_fine := pf';
            tT := tT';
            tW := tW';
            M := M';
            bias := bias self;
            stat_error := stat_error self;
            exact_error := exact_error self;
            TOL := TOL self;
            total_time := total_time self;
            Q := Q self;
            Vl_estimate := Vl_estimate self;
            _lvls_count := _lvls_count self;
            weights := weights self;
            active_lvls := active_lvls self |}
  end.

Definition calcDeltaCentralMoment (self : MIMCItrData) (moment : Z)
  (weighted : bool) : result (list float64) :=
  match psums_delta self with
  | None => Ok []
  | Some pd =>
      B <- compute_central_moment pd (M self) moment ;;
      if negb weighted then Ok B
      else
        let w := map (fun x => pow_int x moment) (weights self) in
        Np.broadcast2 mul w B
  end.

Definition calcFineCentralMoment (self : MIMCItrData) (moment : Z)
  (weighted : bool) : result (list float64) :=
  match psums_delta self with
  | None => Ok []
  | Some _ =>
      pf <- match psums_fine self with
            | Some pf => Ok pf
            | None => Raise TypeError
            end ;;
      B <- compute_central_moment pf (M self) moment ;;
      if negb weighted then Ok B
      else
        let w := map (fun x => pow_int x moment) (weights self) in
        Np.broadcast2 mul w B
  end.

(** [calcEl(moment=1, active_only=False, weighted=True)] *)
Definition calcEl (self : MIMCItrData) (moment : Z) (active_only : bool)
  (weighted : bool) : result (list float64) :=
  El <- calcDeltaCentralMoment self moment weighted ;;
  let base := map (fun a => a =? 0) (active_lvls self) in
  fine <- calcFineCentralMoment self moment weighted ;;
  fine_base <- Np.getmask fine base ;;
  El <- Np.setmask El base fine_base ;;
  El <- Np.setmask_scalar El (map (fun a => a <? 0) (active_lvls self)) NaN ;;
  if active_only then Np.getmask El (map (fun a => 0 <=? a) (active_lvls self))
  else Ok El.

Definition calcVl (self : MIMCItrData) (active_only : bool) (weighted : bool)
  : result (list float64) :=
  calcEl self 2 active_only weighted.

(** [calcWl] *)
Definition calcWl (self : MIMCItrData) : result (list float64) :=
  let idx := map (fun m => negb (m =? 0)) (M self) in
  let val := map (fun _ => zero) (M self) in
  tW_idx <- Np.getmask (tW self) idx ;;
  M_idx <- Np.getmask (M self) idx ;;
  Np.setmask val idx (Np.map2 (fun t m => (t / of_Z m)%f64) tW_idx M_idx).

(** [get_lvls] *)
Definition get_lvls (self : MIMCItrData) : result VarSizeList :=
  if negb (Nat.eqb (lvls_count self) (length (_lvls self))) then
    Raise (Exception "Iteration does not use all levels!")
  else Ok (_lvls self).

Section LevelSet.

(** [VarSizeList.add_from_list(inds, j)]: the level set after the call. *)
Variable add_from_list :
  VarSizeList -> list (list Z) -> option (list (list Z)) -> VarSizeList.

Definition set_lvls (self : MIMCItrData) (lvls : VarSizeList)
  : MIMCItrData :=
  {| moments := moments self;
     _lvls := lvls;
     psums_delta := psums_delta self;
     psums_fine := psums_fine self;
     tT := tT self;
     tW := tW self;
     M := M self;
     bias := bias self;
     stat_error := stat_error self;
     exact_error := exact_error self;
     TOL := TOL self;
     total_time := total_time self;
     Q := Q self;
     Vl_estimate := Vl_estimate self;
     _lvls_count := _lvls_count self;
     weights := weights self;
     active_lvls := active_lvls self |}.

(** [lvls_add_from_list(inds, j=None)] *)
Definition lvls_add_from_list (self : MIMCItrData) (inds : list (list Z))
  (j : option (list (list Z))) : result MIMCItrData :=
  _levels_added (set_lvls self (add_from_list (_lvls self) inds j)).

End LevelSet.

End Itr.

(** ** MIMCRun *)

(** The entries of [params] that the methods below read. *)
Record Params : Type := MkParams {
  lsq_est : bool;
  reuse_samples : bool;
  bayes_fit_lvls : Z;
  bayes_w_sig : float64;
  bayes_s_sig : float64;
  bayes_k0 : float64;
  bayes_k1 : float64;
  confidence : float64
}.

(** The callbacks of [fn] that the methods below call.  [fnNorm] is
    [fn.Norm], by default [np.abs]: the norm of each entry of an array of
    per-level values.  [fnHierarchy] is [fn.Hierarchy]: the mesh sizes of an
    array of levels. *)
Record Fn : Type := MkFn {
  fnNorm : float64 -> float64;
  fnHierarchy : list (list Z) -> list float64
}.

Record MIMCRun : Type := MkRun {
  fn : Fn;
  params : Params;
  cur_start_level : Z;
  iters : list MIMCItrData;
  _all_itr : option MIMCItrData
}.

Module Run.

(** [last_itr]: [None] when there is no iteration. *)
Definition last_itr (self : MIMCRun) : option MIMCItrData :=
  last (map Some (iters self)) None.

(** [all_itr] *)
Definition all_itr (self : MIMCRun) : result (option MIMCItrData) :=
  if reuse_samples (params self) then Ok (last_itr self)
  else a <- getattr (_all_itr self) ;; Ok (Some a).

(** Reading an attribute of [last_itr] or [all_itr]. *)
Definition deref (o : option MIMCItrData) : result MIMCItrData :=
  getattr o.

(** [self.iters[-1] = itr], the effect of an assignment to an attribute of
    [self.iters[-1]]. *)
Definition set_last (self : MIMCRun) (itr : MIMCItrData) : result MIMCRun :=
  match iters self with
  | [] => Raise IndexError
  | _ :: _ =>
      Ok {| fn := fn self;
            params := params self;
            cur_start_level := cur_start_level self;
            iters := removelast (iters self) ++ [itr];
            _all_itr := _all_itr self |}
  end.

Definition set_Q (itr : MIMCItrData) (q : Bunch) : MIMCItrData :=
  {| moments := moments itr; _lvls := _lvls itr;
     psums_delta := psums_delta itr; psums_fine := psums_fine itr;
     tT := tT itr; tW := tW itr; M := M itr; bias := bias itr;
     stat_error := stat_error itr; exact_error := exact_error itr;
     TOL := TOL itr; total_time := total_time itr; Q := Some q;
     Vl_estimate := Vl_estimate itr; _lvls_count := _lvls_count itr;
     weights := weights itr; active_lvls := active_lvls itr |}.

Definition set_Vl_estimate (itr : MIMCItrData) (v : list float64)
  : MIMCItrData :=
  {| moments := moments itr; _lvls := _lvls itr;
     psums_delta := psums_delta itr; psums_fine := psums_fine itr;
     tT := tT itr; tW := tW itr; M := M itr; bias := bias itr;
     stat_error := stat_error itr; exact_error := exact_error itr;
     TOL := TOL itr; total_time := total_time itr; Q := Q itr;
     Vl_estimate := v; _lvls_count := _lvls_count itr;
     weights := weights itr; active_lvls := active_lvls itr |}.

Definition set_stat_error (itr : MIMCItrData) (v : float64) : MIMCItrData :=
  {| moments := moments itr; _lvls := _lvls itr;
     psums_delta := psums_delta itr; psums_fine := psums_fine itr;
     tT := tT itr; tW := tW itr; M := M itr; bias := bias itr;
     stat_error := v; exact_error := exact_error itr;
     TOL := TOL itr; total_time := total_time itr; Q := Q itr;
     Vl_estimate := Vl_estimate itr; _lvls_count := _lvls_count itr;
     weights := weights itr; active_lvls := active_lvls itr |}.

Definition set_bias (itr : MIMCItrData) (v : float64) : MIMCItrData :=
  {| moments := moments itr; _lvls := _lvls itr;
     psums_delta := psums_delta itr; psums_fine := psums_fine itr;
     tT := tT itr; tW := tW itr; M := M itr; bias := v;
     stat_error := stat_error itr; exact_error := exact_error itr;
     TOL := TOL itr; total_time := total_time itr; Q := Q itr;
     Vl_estimate := Vl_estimate itr; _lvls_count := _lvls_count itr;
     weights := weights itr; active_lvls := active_lvls itr |}.

(** [self.Q]: the bundle of the last iteration. *)
Definition Q_of (self : MIMCRun) : result Bunch :=
  itr <- deref (last_itr self) ;;
  getattr (Q itr).

(** [total_error_est] *)
Definition total_error_est (self : MIMCRun) : result float64 :=
  itr <- deref (last_itr self) ;;
  Ok (Itr.total_error_est itr).

(** [fnNorm1] *)
Definition fnNorm1 (self : MIMCRun) (x : float64) : float64 :=
  fnNorm (fn self) x.

(** [_get_hl(L)] *)
Definition _get_hl (self : MIMCRun) (L : Z) : list float64 :=
  fnHierarchy (fn self) (map (fun l => [l]) (Np.arange (L + 1))).

(** [psums_delta[idx, j]] of an iteration. *)
Definition psums_delta_at (itr : MIMCItrData) (idx : list Z) (j : nat)
  : result (list float64) :=
  pd <- match psums_delta itr with
        | Some pd => Ok pd
        | None => Raise TypeError
        end ;;
  col <- Np.column pd j ;;
  Np.take col idx.

(** [a[idx] = vals] for an array of integer indices and as many values. *)
Fixpoint put {A : Type} (a : list A) (idx : list Z) (vals : list A)
  : result (list A) :=
  match idx, vals with
  | i :: idx', v :: vals' => a' <- Np.setitem a i v ;; put a' idx' vals'
  | _, _ => Ok a
  end.

Section Numerics.

(** [x ** y] for a float exponent: the [pow] of the C library. *)
Variable power : float64 -> float64 -> float64.

(** [scipy.stats.norm.ppf] *)
Variable norm_ppf : float64 -> float64.

(** [_Ca] *)
Definition _Ca (self : MIMCRun) : float64 :=
  norm_ppf ((of_Z 1 + confidence (params self)) / of_Z 2)%f64.

Definition with_Q_W (q : Bunch) (v : float64) : Bunch :=
  {| Q_S := Q_S q; Q_W := Some v; Q_w := Q_w q; Q_s := Q_s q;
     Q_theta := Q_theta q |}.

Definition with_Q_S (q : Bunch) (v : float64) : Bunch :=
  {| Q_S := Some v; Q_W := Q_W q; Q_w := Q_w q; Q_s := Q_s q;
     Q_theta := Q_theta q |}.

(** [_estimateQParams] *)
Definition _estimateQParams (self : MIMCRun) : result MIMCRun :=
  if negb (lsq_est (params self)) then Ok self
  else
    all <- bind (all_itr self) deref ;;
    if Np.sumZ (M all) =? 0 then Ok self
    else
      let L := Z.of_nat (Itr.lvls_count all) - 1 in
      if L <=? 1 then Raise (Exception "Must have at least 2 levels")
      else
        let hl := _get_hl self L in
        mask <- Np.broadcast2 andb
                  (map (fun m => 0 <? m) (M all))
                  (map (fun i =>
                          Z.max 1 (L - bayes_fit_lvls (params self)) <=? i)
                       (Np.arange (Z.of_nat (Itr.lvls_count all)))) ;;
        let included := Np.nonzero mask in
        let included_1 := map (fun i => i - 1) included in
        M <- Np.take (M all) included ;;
        s1 <- psums_delta_at all included 0 ;;
        s2 <- psums_delta_at all included 1 ;;
        hl_1 <- Np.take hl included_1 ;;
        q <- Q_of self ;;
        w <- getattr (Q_w q) ;;
        w0 <- Np.getitem w 0 ;;
        hl_0 <- Np.take hl included ;;
        let t1 := Np.map2 (fun a b => (power a w0 - power b w0)%f64)
                    hl_1 hl_0 in
        s <- getattr (Q_s q) ;;
        s0 <- Np.getitem s 0 ;;
        let t2 :=
          Np.map2 (fun a b =>
                     pow_int (power a (s0 / Fin 2) - power b (s0 / Fin 2))%f64
                       (-2))
            hl_1 hl_0 in
        t1x <- _expand1 t1 (length s1) ;;
        t2x <- _expand1 t2 (length s1) ;;
        let W :=
          fnNorm1 self
            (Np.sum (Np.map2 mul (Np.map2 mul s1 t1x) t2x)
             / Np.sum (Np.map2 mul
                         (Np.map2 (fun m t => (of_Z m * pow_int t 2)%f64) M t1)
                         t2))%f64 in
        let q := with_Q_W q W in
        t2y <- _expand1 t2 (length s2) ;;
        Wt <- _expand1 (map (fun p => (W * fst p * of_Z 2 * snd p)%f64)
                          (combine t1 t2)) (length s1) ;;
        let S :=
          ((Np.sum (Np.map2 sub
                      (map (fnNorm (fn self)) (Np.map2 mul s2 t2y))
                      (map (fnNorm (fn self)) (Np.map2 mul s1 Wt)))
            + Np.sum (Np.map2 mul
                        (Np.map2 (fun m t =>
                                    (of_Z m * pow_int W 2 * pow_int t 2)%f64)
                           M t1)
                        t2))
           / of_Z (Np.sumZ M))%f64 in
        let q := with_Q_S q S in
        itr <- deref (last_itr self) ;;
        self' <- set_last self (set_Q itr q) ;;
        if ltb (of_Z 0) (bayes_w_sig (params self))
           || ltb (of_Z 0) (bayes_s_sig (params self))
        then Raise TypeError
        else Ok self'.

(** [_estimateBayesianVl(L=None)] *)
Definition _estimateBayesianVl (self : MIMCRun) (L : option Z)
  : result (list float64) :=
  all <- bind (all_itr self) deref ;;
  if Np.sumZ (M all) =? 0 then
    v <- Itr.calcVl all false true ;;
    Ok (map (fnNorm (fn self)) v)
  else
    let oL := Z.of_nat (Itr.lvls_count all) - 1 in
    let L := match L with
             | Some l => if l =? 0 then oL else l
             | None => oL
             end in
    if L <=? 1 then Raise (Exception "Must have at least 2 levels")
    else
      inc <- Np.setitem (map (fun m => 0 <? m) (M all)) 0 false ;;
      let included := Np.nonzero inc in
      let included_1 := map (fun i => i - 1) included in
      let hl := _get_hl self L in
      Mi <- Np.take (M all) included ;;
      s1 <- psums_delta_at all included 0 ;;
      El <- Itr.calcEl all 1 false true ;;
      m1 <- Np.take El included ;;
      s2 <- psums_delta_at all included 1 ;;
      q <- Q_of self ;;
      W <- getattr (Q_W q) ;;
      hl_1 <- Np.take hl included_1 ;;
      w <- getattr (Q_w q) ;;
      w0 <- Np.getitem w 0 ;;
      hl_0 <- Np.take hl included ;;
      let mu := Np.map2 (fun a b => (W * (power a w0 - power b w0))%f64)
                  hl_1 hl_0 in
      S <- getattr (Q_S q) ;;
      s <- getattr (Q_s q) ;;
      s0 <- Np.getitem s 0 ;;
      let Lambda :=
        Np.map2 (fun a b =>
                   (one / (S * pow_int (power a (s0 / Fin 2)
                                        - power b (s0 / Fin 2)) 2))%f64)
          (removelast hl) (tl hl) in
      _ <- (if L - oL <? 0 then Raise ValueError else Ok tt) ;;
      let tmpM := map of_Z (tl (M all))
                  ++ repeat zero (Z.to_nat (L - oL)) in
      let k0 := bayes_k0 (params self) in
      let k1 := bayes_k1 (params self) in
      G_3 <- Np.broadcast2 add (map (mul k1) Lambda)
               (map (fun x => (x / Fin 2)%f64) tmpM) ;;
      let G_4 := repeat (k1 * one)%f64 (Z.to_nat L) in
      G_4_inc <- Np.take G_4 included_1 ;;
      let sm := Np.map2 mul s1 m1 in
      let a := Np.map2 add
                 (Np.map2 sub s2 (map (fun x => (x * of_Z 2)%f64) sm)) sm in
      let d := Np.map2 sub (map (fnNorm (fn self)) m1) mu in
      let b := Np.map2 div
                 (Np.map2 mul (map (fun m => (of_Z m * k0)%f64) Mi)
                    (map (fun x => pow_int x 2) d))
                 (map (fun m => (k0 + of_Z m)%f64) Mi) in
      let rhs := map (mul (Fin (1 / 2)))
                   (Np.map2 add (map (fnNorm (fn self)) a) b) in
      G_4 <- put G_4 included_1 (Np.map2 add G_4_inc rhs) ;;
      let act := active_lvls all in
      fine <- Itr.calcFineCentralMoment all 2 true ;;
      let fine_Vl := map (fnNorm (fn self)) fine in
      fine0 <- Np.getitem fine_Vl 0 ;;
      ratio <- Np.broadcast2 div G_4 G_3 ;;
      rest <- (if Nat.eqb (length ratio) (Z.to_nat L) then Ok ratio
               else match ratio with
                    | [x] => Ok (repeat x (Z.to_nat L))
                    | _ => Raise ValueError
                    end) ;;
      let Vl := fine0 :: rest in
      let base := Np.nonzero (map (fun a => a =? 0) act) in
      fine_base <- Np.take fine_Vl base ;;
      Vl <- put Vl base fine_base ;;
      Np.setmask_scalar Vl (map (fun a => a <? 0) act) NaN.

(** [fn.EstimateBias], the bias estimator that [_checkFunctions] selected:
    it is given the run and returns the bias. *)
Variable EstimateBias : MIMCRun -> result float64.

(** The statistical error that [_estimateAll] stores. *)
Definition stat_error_of (self : MIMCRun) (last : MIMCItrData)
  (act : list bool) : result float64 :=
  M_act <- Np.getmask (M last) act ;;
  if existsb (fun m => m =? 0) M_act then Ok PInf
  else
    let Ca := _Ca self in
    Vl_act <- Np.getmask (Vl_estimate last) act ;;
    M_act <- Np.getmask (M last) act ;;
    q <- Np.broadcast2 div Vl_act (map of_Z M_act) ;;
    Ok (Ca * sqrt (Np.sum q))%f64.

(** [_estimateAll] *)
Definition _estimateAll (self : MIMCRun) : result MIMCRun :=
  self1 <- _estimateQParams self ;;
  last1 <- deref (last_itr self1) ;;
  lvls <- Itr.get_lvls last1 ;;
  let last2 :=
    set_stat_error (set_Vl_estimate last1 (repeat NaN (length lvls))) NaN in
  self2 <- set_last self1 last2 ;;
  self5 <-
    (if 2 <=? moments last2 then
       let act := map (fun a => 0 <=? a) (active_lvls last2) in
       last3 <-
         (if lsq_est (params self2) then
            Vl <- _estimateBayesianVl self2 None ;;
            Ok (set_Vl_estimate last2 Vl)
          else
            all <- bind (all_itr self2) deref ;;
            v <- Itr.calcVl all false true ;;
            v_act <- Np.getmask v act ;;
            Vl <- Np.setmask (Vl_estimate last2) act
                    (map (fnNorm (fn self2)) v_act) ;;
            Ok (set_Vl_estimate last2 Vl)) ;;
       self3 <- set_last self2 last3 ;;
       se <- stat_error_of self3 last3 act ;;
       set_last self3 (set_stat_error last3 se)
     else Ok self2) ;;
  b <- EstimateBias self5 ;;
  last5 <- deref (last_itr self5) ;;
  set_last self5 (set_bias last5 b).

End Numerics.

End Run.

(** ** Bias estimators *)

Section Bias.

(** [VarSizeList.is_boundary()] *)
Variable is_boundary : VarSizeList -> list bool.

(** [e is None] for an entry of a float array: assigning [None] to a float
    array stores [NaN], and an entry read back is a float, never the object
    [None]. *)
Definition is_None (e : float64) : bool := false.

Definition estimate_bias_bnd (run : MIMCRun) : result float64 :=
  itr <- Run.deref (Run.last_itr run) ;;
  El <- Itr.calcEl itr 1 false true ;;
  El <- Np.setmask_scalar El (map (fun a => a =? 0) (active_lvls itr)) PInf ;;
  lvls <- Itr.get_lvls itr ;;
  El_bnd <- Np.getmask El (is_boundary lvls) ;;
  if existsb is_None El_bnd then Ok PInf
  else Ok (Run.fnNorm1 run (Np.sum El_bnd)).

End Bias.

(** ** Further methods of MIMCItrData *)

Module ItrOps.

(** [m[i] = v] for a row [v] of a table: the index is resolved first, then
    [v] is broadcast to the row (a row of one entry fills it). *)
Definition setrow (m : Np.matrix) (i : Z) (v : list float64)
  : result Np.matrix :=
  _ <- Np.getitem (Np.rows m) i ;;
  row <- (if Nat.eqb (length v) (Np.ncols m) then Ok v
          else match v with
               | [x] => Ok (repeat x (Np.ncols m))
               | _ => Raise ValueError
               end) ;;
  r <- Np.setitem (Np.rows m) i row ;;
  Ok (Np.Matrix (Np.ncols m) r).

(** [m[i] += v]: the in-place sum of the row and [v] broadcast to it. *)
Definition addrow (m : Np.matrix) (i : Z) (v : list float64)
  : result Np.matrix :=
  old <- Np.getitem (Np.rows m) i ;;
  row <- (if Nat.eqb (length v) (length old) then Ok (Np.map2 add old v)
          else match v with
               | [x] => Ok (map (fun o => add o x) old)
               | _ => Raise ValueError
               end) ;;
  r <- Np.setitem (Np.rows m) i row ;;
  Ok (Np.Matrix (Np.ncols m) r).

(** A table that must exist: indexing [None] is a [TypeError]. *)
Definition subscriptable (t : option Np.matrix) : result Np.matrix :=
  match t with
  | Some m => Ok m
  | None => Raise TypeError
  end.

(** [addSamples(lvl_idx, M, psums_delta, psums_fine, tT, tW)] for the power
    sums of a scalar quantity: [psums_delta] and [psums_fine] are arrays of
    one entry per moment. *)
Definition addSamples (self : MIMCItrData) (lvl_idx : Z) (Mn : Z)
  (pd pf : list float64) (tTn tWn : float64) : result MIMCItrData :=
  _ <- assert (Nat.eqb (length pd) (length pf)
               && (Z.of_nat (length pf) =? moments self)) ;;
  m <- Np.getitem (M self) lvl_idx ;;
  if m =? 0 then
    let pd0 := match psums_delta self with
               | None => Np.zeros (Itr.lvls_count self) (length pd)
               | Some t => t
               end in
    let pf0 := match psums_fine self with
               | None => Np.zeros (Itr.lvls_count self) (length pf)
               | Some t => t
               end in
    pd' <- setrow pd0 lvl_idx pd ;;
    pf' <- setrow pf0 lvl_idx pf ;;
    M' <- Np.setitem (M self) lvl_idx Mn ;;
    tT' <- Np.setitem (tT self) lvl_idx tTn ;;
    tW' <- Np.setitem (tW self) lvl_idx tWn ;;
    Ok {| moments := moments self; _lvls := _lvls self;
          psums_delta := Some pd'; psums_fine := Some pf';
          tT := tT'; tW := tW'; M := M';
          bias := bias self; stat_error := stat_error self;
          exact_error := exact_error self; TOL := TOL self;
          total_time := total_time self; Q := Q self;
          Vl_estimate := Vl_estimate self;
          _lvls_count := _lvls_count self;
          weights := weights self; active_lvls := active_lvls self |}
  else
    pd0 <- subscriptable (psums_delta self) ;;
    pd' <- addrow pd0 lvl_idx pd ;;
    pf0 <- subscriptable (psums_fine self) ;;
    pf' <- addrow pf0 lvl_idx pf ;;
    M' <- Np.setitem (M self) lvl_idx (m + Mn) ;;
    t <- Np.getitem (tT self) lvl_idx ;;
    tT' <- Np.setitem (tT self) lvl_idx (t + tTn)%f64 ;;
    w <- Np.getitem (tW self) lvl_idx ;;
    tW' <- Np.setitem (tW self) lvl_idx (w + tWn)%f64 ;;
    Ok {| moments := moments self; _lvls := _lvls self;
          psums_delta := Some pd'; psums_fine := Some pf';
          tT := tT'; tW := tW'; M := M';
          bias := bias self; stat_error := stat_error self;
          exact_error := exact_error self; TOL := TOL self;
          total_time := total_time self; Q := Q self;
          Vl_estimate := Vl_estimate self;
          _lvls_count := _lvls_count self;
          weights := weights self; active_lvls := active_lvls self |}.

(** [calcTl] *)
Definition calcTl (self : MIMCItrData) : result (list float64) :=
  let idx := map (fun m => negb (m =? 0)) (M self) in
  let val := map (fun _ => zero) (M self) in
  tT_idx <- Np.getmask (tT self) idx ;;
  M_idx <- Np.getmask (M self) idx ;;
  Np.setmask val idx (Np.map2 (fun t m => (t / of_Z m)%f64) tT_idx M_idx).

(** [calcTotalTime] and [calcTotalWork] *)
Definition calcTotalTime (self : MIMCItrData) : float64 := Np.sum (tT self).

Definition calcTotalWork (self : MIMCItrData) : float64 := Np.sum (tW self).

(** [calcEg] *)
Definition calcEg (self : MIMCItrData) : result float64 :=
  El <- Itr.calcEl self 1 true true ;;
  Ok (Np.sum El).


End ItrOps.

(** ** An iteration as an object

    The record [MIMCItrData] above holds the data of an iteration.  An
    iteration also has a [parent] and [userdata], and its level set
    [_lvls] is an object that two iterations may share: what one adds to
    it, the other sees.  The level set object is known here by a number,
    its identity. *)

Module ItrObject.

Section Attributes.

Variable Parent : Type.
Variable UserData : Type.

Record t : Type := Mk {
  parent : option Parent;
  userdata : option UserData;
  lvls_object : nat;
  data : MIMCItrData
}.



End Attributes.

End ItrObject.

(** ** Further methods of MIMCRun and functions of the module *)

(** [len(n)] for an integer [n]: an integer has no length. *)
Definition len_of_int (n : nat) : result nat := Raise TypeError.

(** The name [self] in a function of the module, where no such name is
    bound. *)
Definition unbound_self : result MIMCRun := Raise NameError.

Section MoreBias.

Variable is_boundary : VarSizeList -> list bool.

(** [estimate_bias_abs_bnd(run)] *)
Definition estimate_bias_abs_bnd (run : MIMCRun) : result float64 :=
  itr <- Run.deref (Run.last_itr run) ;;
  El <- Itr.calcEl itr 1 false true ;;
  El <- Np.setmask_scalar El (map (fun a => a =? 0) (active_lvls itr)) PInf ;;
  n <- len_of_int (Itr.lvls_count itr) ;;
  let El_norm := repeat PInf n in
  let act := map (fun a => 0 <=? a) (active_lvls itr) in
  self <- unbound_self ;;
  El_act <- Np.getmask El act ;;
  El_norm <- Np.setmask El_norm act (map (fnNorm (fn self)) El_act) ;;
  lvls <- Itr.get_lvls itr ;;
  bnd <- Np.getmask El_norm (is_boundary lvls) ;;
  Ok (Np.sum bnd).

End MoreBias.

(** The entries of [params] that the methods below read, beside those of
    [Params]. *)
Record ToleranceParams : Type := MkToleranceParams {
  const_theta : bool;
  theta : float64;
  params_TOL : float64
}.

(** [_calcTheta(TOL, bias_est)] *)
Definition _calcTheta (p : ToleranceParams) (TOL bias_est : float64)
  : float64 :=
  if negb (const_theta p) then
    maximum (if ltb (of_Z 0) TOL then (of_Z 1 - bias_est / TOL)%f64
             else PInf)
      (theta p)
  else theta p.

(** [is_itr_tol_satisfied(itr)] for a given iteration: its tolerance [TOL]
    is [None] until [doRun] sets it, and [np.maximum] of a number and
    [None] is a [TypeError]. *)
Definition is_itr_tol_satisfied (p : ToleranceParams) (itr : MIMCItrData)
  : result bool :=
  let total := Itr.total_error_est itr in
  match TOL itr with
  | Some t => Ok (ltb total (maximum (params_TOL p) t))
  | None => Raise TypeError
  end.

(** ** Timer *)

Module Timer.

Section Clock.

(** The clock: [clock k] is the value of the [k]-th reading. *)
Variable clock : nat -> float64.

(** The stack [_tics], the last tic at the end, and the number of readings
    of the clock so far. *)
Record state : Type := MkState {
  _tics : list float64;
  readings : nat
}.

Definition tic (s : state) : state :=
  {| _tics := _tics s ++ [clock (readings s)]; readings := S (readings s) |}.

Definition __init__ : state := tic {| _tics := []; readings := 0 |}.

(** [toc(pop=True)]: the elapsed time and the state after the call. *)
Definition toc (s : state) (pop : bool) : result (float64 * state) :=
  _ <- assert (Nat.ltb 0 (length (_tics s))) ;;
  let now := clock (readings s) in
  let t := last (_tics s) NaN in
  Ok ((now - t)%f64,
      {| _tics := if pop then removelast (_tics s) else _tics s;
         readings := S (readings s) |}).

End Clock.

End Timer.

(** ** Bunch *)

Module BunchDict.

(** The methods that the class statement defines. *)
Definition methods : list string :=
  ["__init__"%string; "getDict"%string; "__getattr__"%string].

Section Values.

Variable V : Type.

(** What Python itself puts on the class and on its base [object]
    ([__class__], [__dict__], [__doc__], [__repr__], ...), and which of
    these names are data descriptors, which normal lookup takes before the
    instance's [__dict__]. *)
Variable builtin_attr : string -> bool.
Variable data_descriptor : string -> bool.

(** The names that normal lookup finds on the class. *)
Definition class_attr (name : string) : bool :=
  existsb (String.eqb name) methods || builtin_attr name.

(** What reading an attribute gives: a value of [__dict__], or an
    attribute of the class (a bound method, the class itself, ...). *)
Inductive attr : Type :=
| Value (v : V)
| ClassAttr.

(** The constructor of [Bunch]: the keyword arguments whose value is not
    [None], as the dictionary [__dict__]. *)
Fixpoint __init__ (kwargs : list (string * option V)) : list (string * V) :=
  match kwargs with
  | [] => []
  | (k, Some v) :: rest => (k, v) :: __init__ rest
  | (_, None) :: rest => __init__ rest
  end.

Fixpoint lookup (d : list (string * V)) (name : string) : option V :=
  match d with
  | [] => None
  | (k, v) :: rest => if String.eqb k name then Some v else lookup rest name
  end.

(** Reading the attribute [name]: normal lookup takes a data descriptor of
    the class, then the entry of [__dict__], then any other attribute of
    the class; [__getattr__] is called only when all of these fail, and
    raises. *)
Definition getattr (d : list (string * V)) (name : string) : result attr :=
  if builtin_attr name && data_descriptor name then Ok ClassAttr
  else match lookup d name with
       | Some v => Ok (Value v)
       | None =>
           if class_attr name then Ok ClassAttr else Raise AttributeError
       end.

(** [hasattr]: whether reading the attribute raises. *)
Definition hasattr (d : list (string * V)) (name : string) : bool :=
  match getattr d name with
  | Ok _ => true
  | Raise _ => false
  end.

Definition getDict (d : list (string * V)) : list (string * V) := d.

End Values.

End BunchDict.

(** ** Generating samples *)

(** What [fn.SampleAll] returns: for every level, the number of samples
    that were computed, their power sums, and the time and the work that
    they took. *)
Module Samples.

Record t : Type := Mk {
  calcM : list Z;
  psums_delta : list (list float64);
  psums_fine : list (list float64);
  total_time : list float64;
  total_work : list float64
}.

End Samples.

(** [self._all_itr = itr] *)
Definition set_all (self : MIMCRun) (itr : MIMCItrData) : MIMCRun :=
  {| fn := fn self; params := params self;
     cur_start_level := cur_start_level self;
     iters := iters self; _all_itr := Some itr |}.

(** The first lines of [_genSamples]: the samples that are missing, level
    by level, from the requested totals. *)
Definition samples_todo (totalM M active_lvls : list Z) : result (list Z) :=
  gt <- Np.broadcast2 (fun t m => m <? t) totalM M ;;
  active <- Np.broadcast2 andb gt (map (fun a => 0 <=? a) active_lvls) ;;
  totalM <- Np.setmask_scalar totalM (map negb active) 0 ;;
  t_act <- Np.getmask totalM active ;;
  M_act <- Np.getmask M active ;;
  d <- Np.broadcast2 Z.sub t_act M_act ;;
  Np.setmask totalM active d.

Section Sampling.

Variable power : float64 -> float64 -> float64.
Variable norm_ppf : float64 -> float64.
Variable EstimateBias : MIMCRun -> result float64.

(** [fn.SampleAll(lvls, M, moments)] *)
Variable SampleAll : VarSizeList -> list Z -> Z -> result Samples.t.

(** The loop of [_genSamples] over the levels. *)
Fixpoint addSamples_all (self : MIMCRun) (s : Samples.t)
  (levels : list nat) : result MIMCRun :=
  match levels with
  | [] => Ok self
  | l :: rest =>
      let i := Z.of_nat l in
      c <- Np.getitem (Samples.calcM s) i ;;
      if c <=? 0 then addSamples_all self s rest
      else
        last <- Run.deref (Run.last_itr self) ;;
        pd <- Np.getitem (Samples.psums_delta s) i ;;
        pf <- Np.getitem (Samples.psums_fine s) i ;;
        t <- Np.getitem (Samples.total_time s) i ;;
        w <- Np.getitem (Samples.total_work s) i ;;
        last' <- ItrOps.addSamples last i c pd pf t w ;;
        self <- Run.set_last self last' ;;
        self <-
          (if reuse_samples (params self) then Ok self
           else
             all <- getattr (_all_itr self) ;;
             all' <- ItrOps.addSamples all i c pd pf t w ;;
             Ok (set_all self all')) ;;
        addSamples_all self s rest
  end.

(** [_genSamples(totalM)]: whether samples were added, and the run after
    the call. *)
Definition _genSamples (self : MIMCRun) (totalM : list Z)
  : result (bool * MIMCRun) :=
  last <- Run.deref (Run.last_itr self) ;;
  lvls <- Itr.get_lvls last ;;
  let lvls_count := Itr.lvls_count last in
  _ <- assert (Nat.eqb lvls_count (length lvls)) ;;
  totalM <- samples_todo totalM (M last) (active_lvls last) ;;
  if Np.sumZ totalM =? 0 then Ok (false, self)
  else
    s <- SampleAll lvls totalM (moments last) ;;
    self <- addSamples_all self s (seq 0 lvls_count) ;;
    self <- Run._estimateAll power norm_ppf EstimateBias self ;;
    Ok (true, self).

End Sampling.

(** ** Sampling the levels: [default_sample_all]

    The sampler [fnSample] draws random samples: it is a function of a
    state that it returns updated.  The quantities of interest are scalars,
    so that [values] is a two-dimensional array with one row per sample
    and one column per index of [inds].  The [while] loop of a level runs
    on fuel; a run that exhausts it gives [None]. *)

Module SampleAll.

(** An entry of the object arrays [psums_delta] and [psums_fine]: None, as
    [np.empty] leaves it, the placeholder [_empty_obj()], or an array. *)
Inductive obj : Type :=
| PyNone
| EmptyObj
| Arr (a : list float64).

(** [o += arr]: the placeholder gives way to the array
    ([_empty_obj.__add__]); an array is added to in place. *)
Definition iadd (o : obj) (arr : list float64) : result obj :=
  match o with
  | PyNone => Raise TypeError
  | EmptyObj => Ok (Arr arr)
  | Arr a =>
      if Nat.eqb (length a) (length arr) then Ok (Arr (Np.map2 add a arr))
      else match arr with
           | [y] => Ok (Arr (map (fun x => add x y) a))
           | _ => Raise ValueError
           end
  end.

(** The tuple that [fnSample] returns: [(values, time)] or
    [(values, time, work)]. *)
Record ret : Type := Ret {
  values : Np.matrix;
  samples_time : float64;
  samples_work : option float64
}.

(** What [default_sample_all] returns. *)
Record out : Type := Out {
  calcM : list Z;
  psums_delta : list obj;
  psums_fine : list obj;
  total_time : list float64;
  total_work : list float64
}.

(** [_expand(b, 1, shape)] for a two-dimensional [shape]. *)
Definition _expand_axis1 {A : Type} (b : list A) (shape : nat * nat)
  : result (list (list A)) :=
  _ <- assert (Nat.eqb (length b) (snd shape)) ;;
  Ok (repeat b (fst shape)).

(** [np.sum(values * _expand(mods, 1, values.shape), axis=1)] *)
Definition delta_of_values (mods : list Z) (values : Np.matrix)
  : result (list float64) :=
  E <- _expand_axis1 (map of_Z mods) (Np.nrows values, Np.ncols values) ;;
  Ok (map Np.sum (Np.map2 (Np.map2 mul) (Np.rows values) E)).

(** [np.tile(a, (p, 1))] for a one-dimensional [a]. *)
Definition tile (a : list float64) (p : Z) : result (list (list float64)) :=
  if p <? 0 then Raise ValueError else Ok (repeat a (Z.to_nat p)).

(** [np.cumprod(A, axis=0)] *)
Fixpoint cumprod_from (acc : list float64) (A : list (list float64))
  : list (list float64) :=
  match A with
  | [] => []
  | r :: A' =>
      let acc' := Np.map2 mul acc r in
      acc' :: cumprod_from acc' A'
  end.

Definition cumprod (A : list (list float64)) : list (list float64) :=
  match A with
  | [] => []
  | r :: A' => r :: cumprod_from r A'
  end.

(** [np.sum(np.cumprod(A, axis=0), axis=1)] *)
Definition power_sums (A : list (list float64)) : list float64 :=
  map Np.sum (cumprod A).

(** The accumulators of a level: [calcM[i]], [psums_delta[i]],
    [psums_fine[i]], [total_time[i]] and [total_work[i]]. *)
Record acc : Type := Acc {
  acc_M : Z;
  acc_delta : obj;
  acc_fine : obj;
  acc_time : float64;
  acc_work : float64
}.

Section Sampler.

Variable St : Type.

(** [fnSample(inds=inds, M=M)] *)
Variable fnSample : St -> list (list Z) -> Z -> result (St * ret).

(** [fnWorkModel], when it is given. *)
Variable fnWorkModel : option (VarSizeList -> result (list float64)).

(** The body of the [while] loop. *)
Definition sample_step (st : St) (work_per_lvl : list float64) (i : Z)
  (mods : list Z) (inds : list (list Z)) (Mi p : Z) (a : acc)
  : result (St * acc) :=
  sr <- fnSample st inds (Mi - acc_M a) ;;
  let '(st', r) := sr in
  let values := values r in
  w <- match samples_work r with
       | None =>
           _ <- assert (match fnWorkModel with
                        | Some _ => true
                        | None => false
                        end) ;;
           wi <- Np.getitem work_per_lvl i ;;
           Ok (wi * of_Z (Z.of_nat (Np.nrows values)))%f64
       | Some w => Ok w
       end ;;
  let total_time := (acc_time a + samples_time r)%f64 in
  let total_work := (acc_work a + w)%f64 in
  delta <- delta_of_values mods values ;;
  A1 <- tile delta p ;;
  fine <- Np.column values 0 ;;
  A2 <- tile fine p ;;
  pd <- iadd (acc_delta a) (power_sums A1) ;;
  pf <- iadd (acc_fine a) (power_sums A2) ;;
  Ok (st', {| acc_M := acc_M a + Z.of_nat (Np.nrows values);
              acc_delta := pd;
              acc_fine := pf;
              acc_time := total_time;
              acc_work := total_work |}).

(** [while calcM[i] < M[i]: ...] *)
Fixpoint sample_level (fuel : nat) (st : St) (work_per_lvl : list float64)
  (i : Z) (mods : list Z) (inds : list (list Z)) (Mi p : Z) (a : acc)
  : option (result (St * acc)) :=
  if acc_M a <? Mi then
    match fuel with
    | O => None
    | S fuel' =>
        match sample_step st work_per_lvl i mods inds Mi p a with
        | Raise e => Some (Raise e)
        | Ok (st', a') =>
            sample_level fuel' st' work_per_lvl i mods inds Mi p a'
        end
    end
  else Some (Ok (st, a)).

(** The body of the [for] loop: level [i], with the arrays as they are. *)
Definition sample_at (fuel : nat) (st : St) (work_per_lvl : list float64)
  (lvls : VarSizeList) (M : list Z) (moments : Z) (i : Z) (o : out)
  : option (result (St * out)) :=
  match Np.getitem M i with
  | Raise e => Some (Raise e)
  | Ok Mi =>
      if Mi <=? 0 then Some (Ok (st, o))
      else
        match Np.getitem lvls i with
        | Raise e => Some (Raise e)
        | Ok lvl =>
            let '(mods, inds) := expand_delta lvl in
            let a0 := {| acc_M := 0; acc_delta := EmptyObj;
                         acc_fine := EmptyObj; acc_time := zero;
                         acc_work := zero |} in
            match sample_level fuel st work_per_lvl i mods inds Mi moments
                    a0 with
            | None => None
            | Some (Raise e) => Some (Raise e)
            | Some (Ok (st', a)) =>
                Some (cM <- Np.setitem (calcM o) i (acc_M a) ;;
                      pd <- Np.setitem (psums_delta o) i (acc_delta a) ;;
                      pf <- Np.setitem (psums_fine o) i (acc_fine a) ;;
                      tT <- Np.setitem (total_time o) i (acc_time a) ;;
                      tW <- Np.setitem (total_work o) i (acc_work a) ;;
                      Ok (st', {| calcM := cM; psums_delta := pd;
                                  psums_fine := pf; total_time := tT;
                                  total_work := tW |}))
            end
        end
  end.

(** [for i in range(0, lvls_count): ...], from level [i] on. *)
Fixpoint sample_from (fuel : nat) (st : St) (work_per_lvl : list float64)
  (lvls : VarSizeList) (M : list Z) (moments : Z) (i : Z) (count : nat)
  (o : out) : option (result (St * out)) :=
  match count with
  | O => Some (Ok (st, o))
  | S count' =>
      match sample_at fuel st work_per_lvl lvls M moments i o with
      | None => None
      | Some (Raise e) => Some (Raise e)
      | Some (Ok (st', o')) =>
          sample_from fuel st' work_per_lvl lvls M moments (i + 1) count' o'
      end
  end.

(** [default_sample_all(lvls, M, moments, fnSample, fnWorkModel)].  Without
    a work model [work_per_lvl] is not bound; it is read only after the
    assertion that there is one. *)
Definition default_sample_all (fuel : nat) (st : St) (lvls : VarSizeList)
  (M : list Z) (moments : Z) : option (result (St * out)) :=
  let lvls_count := length lvls in
  let o := {| calcM := repeat 0 lvls_count;
              psums_delta := repeat PyNone lvls_count;
              psums_fine := repeat PyNone lvls_count;
              total_time := repeat zero lvls_count;
              total_work := repeat zero lvls_count |} in
  match match fnWorkModel with
        | Some f => f lvls
        | None => Ok []
        end with
  | Raise e => Some (Raise e)
  | Ok work_per_lvl =>
      sample_from fuel st work_per_lvl lvls M moments 0 lvls_count o
  end.

End Sampler.

End SampleAll.

(** ** Sampling the levels from sums: [default_sample_all_sums]

    The arrays that the sampler returns are objects: an entry of
    [psums_delta] or [psums_fine] refers to one of them, and [+=] on an
    entry that refers to an array changes that array in place.  The arrays
    live in a store and are addressed by their position in it; every array
    that the sampler returns is a new one.  As above the sampler is a
    function of a state and the [while] loop runs on fuel. *)

Module SampleAllSums.

Definition store : Type := list (list float64).

(** An entry of the object arrays: None, the placeholder [_empty_obj()],
    or a reference to an array of the store. *)
Inductive obj : Type :=
| PyNone
| EmptyObj
| Ref (r : nat).

(** The array behind a reference; a reference always points into the
    store. *)
Definition deref (h : store) (r : nat) : list float64 := nth r h [].

(** [a += b] for arrays: [b] is broadcast to the shape of [a]. *)
Definition inplace_add (a b : list float64) : result (list float64) :=
  if Nat.eqb (length a) (length b) then Ok (Np.map2 add a b)
  else match b with
       | [y] => Ok (map (fun x => add x y) a)
       | _ => Raise ValueError
       end.

(** [o += b] for the array [b] at [rb]: the placeholder gives way to [b]
    itself ([_empty_obj.__add__] returns its argument); an array is added
    to in place. *)
Definition iadd (h : store) (o : obj) (rb : nat) : result (store * obj) :=
  match o with
  | PyNone => Raise TypeError
  | EmptyObj => Ok (h, Ref rb)
  | Ref ra =>
      s <- inplace_add (deref h ra) (deref h rb) ;;
      Ok (Np.update h ra s, Ref ra)
  end.

(** The tuple that [fnSampleSums] returns. *)
Record ret : Type := Ret {
  cur_M : Z;
  cur_fsums : list float64;
  cur_diffsums : option (list float64);
  cur_totalTime : float64;
  cur_totalWork : float64
}.

(** What [default_sample_all_sums] returns, with the store of the arrays
    that its entries refer to. *)
Record out : Type := Out {
  calcM : list Z;
  psums_delta : list obj;
  psums_fine : list obj;
  total_time : list float64;
  total_work : list float64;
  arrays : store
}.

(** The accumulators of a level. *)
Record acc : Type := Acc {
  acc_M : Z;
  acc_delta : obj;
  acc_fine : obj;
  acc_time : float64;
  acc_work : float64
}.

Section Sampler.

Variable St : Type.

(** [fnSampleSums(inds=inds, M=M)] *)
Variable fnSampleSums : St -> list (list Z) -> Z -> result (St * ret).

(** [fnWorkModel], when it is given. *)
Variable fnWorkModel : option (VarSizeList -> result (list float64)).

(** The body of the [while] loop.  The arrays of the tuple are new objects
    of the store: [cur_fsums] at [rf], [cur_diffsums] after it. *)
Definition sample_step (st : St) (h : store) (inds : list (list Z))
  (Mi : Z) (a : acc) : result (St * store * acc) :=
  sr <- fnSampleSums st inds (Mi - acc_M a) ;;
  let '(st', r) := sr in
  let rf := length h in
  let h := h ++ [cur_fsums r] in
  let rd := match cur_diffsums r with
            | None => None
            | Some _ => Some (length h)
            end in
  let h := match cur_diffsums r with
           | None => h
           | Some d => h ++ [d]
           end in
  let total_work := (acc_work a + cur_totalWork r)%f64 in
  let total_time := (acc_time a + cur_totalTime r)%f64 in
  hf <- iadd h (acc_fine a) rf ;;
  let '(h, pf) := hf in
  hd <- match rd with
        | None => iadd h (acc_delta a) rf
        | Some rd => iadd h (acc_delta a) rd
        end ;;
  let '(h, pd) := hd in
  Ok (st', h, {| acc_M := acc_M a + cur_M r;
                 acc_delta := pd;
                 acc_fine := pf;
                 acc_time := total_time;
                 acc_work := total_work |}).

(** [while calcM[i] < M[i]: ...] *)
Fixpoint sample_level (fuel : nat) (st : St) (h : store)
  (inds : list (list Z)) (Mi : Z) (a : acc)
  : option (result (St * store * acc)) :=
  if acc_M a <? Mi then
    match fuel with
    | O => None
    | S fuel' =>
        match sample_step st h inds Mi a with
        | Raise e => Some (Raise e)
        | Ok (st', h', a') => sample_level fuel' st' h' inds Mi a'
        end
    end
  else Some (Ok (st, h, a)).

(** The body of the [for] loop: level [i], with the arrays as they are. *)
Definition sample_at (fuel : nat) (st : St) (lvls : VarSizeList)
  (M : list Z) (i : Z) (o : out) : option (result (St * out)) :=
  match Np.getitem M i with
  | Raise e => Some (Raise e)
  | Ok Mi =>
      if Mi <=? 0 then Some (Ok (st, o))
      else
        match Np.getitem lvls i with
        | Raise e => Some (Raise e)
        | Ok lvl =>
            let '(mods, inds) := expand_delta lvl in
            let a0 := {| acc_M := 0; acc_delta := EmptyObj;
                         acc_fine := EmptyObj; acc_time := zero;
                         acc_work := zero |} in
            match sample_level fuel st (arrays o) inds Mi a0 with
            | None => None
            | Some (Raise e) => Some (Raise e)
            | Some (Ok (st', h, a)) =>
                Some (cM <- Np.setitem (calcM o) i (acc_M a) ;;
                      pd <- Np.setitem (psums_delta o) i (acc_delta a) ;;
                      pf <- Np.setitem (psums_fine o) i (acc_fine a) ;;
                      tT <- Np.setitem (total_time o) i (acc_time a) ;;
                      tW <- Np.setitem (total_work o) i (acc_work a) ;;
                      Ok (st', {| calcM := cM; psums_delta := pd;
                                  psums_fine := pf; total_time := tT;
                                  total_work := tW; arrays := h |}))
            end
        end
  end.

(** [for i in range(0, lvls_count): ...], from level [i] on. *)
Fixpoint sample_from (fuel : nat) (st : St) (lvls : VarSizeList)
  (M : list Z) (i : Z) (count : nat) (o : out)
  : option (result (St * out)) :=
  match count with
  | O => Some (Ok (st, o))
  | S count' =>
      match sample_at fuel st lvls M i o with
      | None => None
      | Some (Raise e) => Some (Raise e)
      | Some (Ok (st', o')) => sample_from fuel st' lvls M (i + 1) count' o'
      end
  end.

(** [default_sample_all_sums(lvls, M, moments, fnSampleSums, fnWorkModel)];
    [moments] and the work model are not used in the loops. *)
Definition default_sample_all_sums (fuel : nat) (st : St)
  (lvls : VarSizeList) (M : list Z) (moments : Z)
  : option (result (St * out)) :=
  let lvls_count := length lvls in
  let o := {| calcM := repeat 0 lvls_count;
              psums_delta := repeat PyNone lvls_count;
              psums_fine := repeat PyNone lvls_count;
              total_time := repeat zero lvls_count;
              total_work := repeat zero lvls_count;
              arrays := [] |} in
  match match fnWorkModel with
        | Some f => f lvls
        | None => Ok []
        end with
  | Raise e => Some (Raise e)
  | Ok work_per_lvl => sample_from fuel st lvls M 0 lvls_count o
  end.

End Sampler.

End SampleAllSums.

(** * Properties *)

(** ** Vocabulary of the statements *)

(** All entries of a list are [v]. *)
Definition all_eq {A : Type} (v : A) (l : list A) : Prop :=
  Forall (fun x => x = v) l.

(** A table has [n] rows of [p] zeros. *)
Definition zero_table (n p : nat) (m : Np.matrix) : Prop :=
  Np.ncols m = p /\ Np.nrows m = n /\ Forall (all_eq zero) (Np.rows m)
  /\ Np.wf_matrix m.

(** Every per-level array of an iteration has [n] rows. *)
Definition rows_are (n : nat) (d : MIMCItrData) : Prop :=
  length (M d) = n /\ length (tT d) = n /\ length (tW d) = n
  /\ length (weights d) = n /\ length (active_lvls d) = n
  /\ length (Vl_estimate d) = n
  /\ (forall m, psums_delta d = Some m -> Np.nrows m = n)
  /\ (forall m, psums_fine d = Some m -> Np.nrows m = n).

(** The data contract of [MIMCItrData]: one row per tracked level. *)
Definition per_level (d : MIMCItrData) : Prop := rows_are (_lvls_count d) d.

(** Row [i] of an optional table. *)
Definition row_at (t : option Np.matrix) (i : nat) : option (list float64) :=
  match t with
  | Some m => nth_error (Np.rows m) i
  | None => None
  end.

(** The rows of level [i] are the same in [d] and [d']. *)
Definition same_level (d d' : MIMCItrData) (i : nat) : Prop :=
  nth_error (M d') i = nth_error (M d) i
  /\ nth_error (tT d') i = nth_error (tT d) i
  /\ nth_error (tW d') i = nth_error (tW d) i
  /\ nth_error (weights d') i = nth_error (weights d) i
  /\ nth_error (active_lvls d') i = nth_error (active_lvls d) i
  /\ nth_error (Vl_estimate d') i = nth_error (Vl_estimate d) i
  /\ row_at (psums_delta d') i = row_at (psums_delta d) i
  /\ row_at (psums_fine d') i = row_at (psums_fine d) i.

(** What holds of [d'], the iteration [d] after its levels-added hook. *)
Definition levels_added_post (d d' : MIMCItrData) : Prop :=
  _lvls_count d' = length (_lvls d')
  /\ (_lvls_count d <= _lvls_count d')%nat
  /\ per_level d'
  /\ (forall i, (_lvls_count d <= i < _lvls_count d')%nat ->
        nth_error (active_lvls d') i = Some 1
        /\ nth_error (weights d') i = Some one)
  /\ (forall i, (i < _lvls_count d)%nat -> same_level d d' i)
  /\ (psums_delta d' = None <-> psums_delta d = None)
  /\ (psums_fine d' = None <-> psums_fine d = None).

(** [e] is a corner offset of [lvl]: one entry per dimension, 0 or 1, and 1
    only where the coordinate of [lvl] is positive. *)
Definition is_corner (lvl e : list Z) : Prop :=
  Forall2 (fun l x => x = 0 \/ (x = 1 /\ 0 < l)) lvl e.

(** The number of dimensions in which [lvl] is positive. *)
Definition positive_dims (lvl : list Z) : nat :=
  length (filter (fun l => 0 <? l) lvl).

(** The corner point [lvl - e]. *)
Definition corner_point (lvl e : list Z) : list Z := Np.map2 Z.sub lvl e.

(** The coefficient [(-1) ^ parity of e]. *)
Definition parity_sign (e : list Z) : Z := (-1) ^ Np.sumZ e.

(** A row of the raw moments: NaN where the count is zero, the row of power
    sums times [1/M] elsewhere. *)
Definition raw_row (p : nat) (row : list float64) (m : Z) : list float64 :=
  if m =? 0 then repeat NaN p
  else Np.map2 (fun x m => (x * (one / of_Z m))%f64) row (repeat m p).

(** The array that [_calcTheoryM] returns holds integers (with [ceil]) or
    floats (without): whether it holds integers, its length, and its entry
    [l] read as a float. *)
Definition int_counts (M : list Z + list float64) : bool :=
  match M with
  | inl _ => true
  | inr _ => false
  end.

Definition count_length (M : list Z + list float64) : nat :=
  match M with
  | inl Mi => length Mi
  | inr Mf => length Mf
  end.

Definition count_at (M : list Z + list float64) (l : nat)
  : option float64 :=
  match M with
  | inl Mi => option_map of_Z (nth_error Mi l)
  | inr Mf => nth_error Mf l
  end.

(** ** Concrete inputs of the examples *)

(** A level set whose [add_from_list] appends the given indices. *)
Definition append_levels (lvls : VarSizeList) (inds : list (list Z))
  (j : option (list (list Z))) : VarSizeList := lvls ++ inds.

(** An iteration with the one level [[0]], sampled 3 times. *)
Definition itr_one_level : MIMCItrData :=
  {| moments := 2;
     _lvls := [[0]];
     psums_delta := Some (Np.Matrix 2 [[of_Z 3; of_Z 3]]);
     psums_fine := Some (Np.Matrix 2 [[of_Z 3; of_Z 3]]);
     tT := [of_Z 1];
     tW := [of_Z 1];
     M := [3];
     bias := PInf;
     stat_error := PInf;
     exact_error := NaN;
     TOL := None;
     total_time := None;
     Q := None;
     Vl_estimate := [of_Z 0];
     _lvls_count := 1;
     weights := [of_Z 1];
     active_lvls := [0] |}.

(** The terms that the boundary bound adds up: the expectation [El[l]] of
    every level [l] on the boundary, a base level (active flag 0) counting
    as +inf. *)
Fixpoint boundary_terms (El : list float64) (active : list Z)
  (bnd : list bool) : list float64 :=
  match El, active, bnd with
  | e :: El', a :: active', b :: bnd' =>
      (if b then [if a =? 0 then PInf else e] else [])
      ++ boundary_terms El' active' bnd'
  | _, _, _ => []
  end.

(** The boundary bound in the words of the specification: the sum of the
    norms of the boundary terms, +inf when a term is undefined. *)
Definition sum_of_norms_bound (Norm : float64 -> float64)
  (El : list float64) (active : list Z) (bnd : list bool) : float64 :=
  let terms := boundary_terms El active bnd in
  if existsb isnan terms then PInf else Np.sum (map Norm terms).

Definition params_plain : Params :=
  {| lsq_est := false; reuse_samples := true; bayes_fit_lvls := 1000;
     bayes_w_sig := of_Z (-1); bayes_s_sig := of_Z (-1);
     bayes_k0 := Fin (1 / 10); bayes_k1 := Fin (1 / 10);
     confidence := Fin (95 / 100) |}.

(** [fn] with the default norm [np.abs] and the mesh sizes [1 / (l + 1)]. *)
Definition fn_abs : Fn :=
  {| fnNorm := abs;
     fnHierarchy :=
       map (fun lvl => (of_Z 1 / of_Z (Np.sumZ lvl + 1))%f64) |}.

(** Two active levels, one sample each, with the values 1 and -1. *)
Definition itr_cancel : MIMCItrData :=
  {| moments := 1;
     _lvls := [[1]; [2]];
     psums_delta := Some (Np.Matrix 1 [[of_Z 1]; [of_Z (-1)]]);
     psums_fine := Some (Np.Matrix 1 [[of_Z 1]; [of_Z (-1)]]);
     tT := [of_Z 1; of_Z 1];
     tW := [of_Z 1; of_Z 1];
     M := [1; 1];
     bias := PInf;
     stat_error := PInf;
     exact_error := NaN;
     TOL := None;
     total_time := None;
     Q := None;
     Vl_estimate := [of_Z 0; of_Z 0];
     _lvls_count := 2;
     weights := [of_Z 1; of_Z 1];
     active_lvls := [1; 1] |}.

Definition run_cancel : MIMCRun :=
  {| fn := fn_abs; params := params_plain; cur_start_level := 0;
     iters := [itr_cancel]; _all_itr := None |}.

(** Two active levels, two samples each, with two moments tracked. *)
Definition itr_two_moments : MIMCItrData :=
  {| moments := 2;
     _lvls := [[1]; [2]];
     psums_delta := Some (Np.Matrix 2 [[of_Z 2; of_Z 4]; [of_Z (-2); of_Z 6]]);
     psums_fine := Some (Np.Matrix 2 [[of_Z 2; of_Z 4]; [of_Z (-2); of_Z 6]]);
     tT := [of_Z 1; of_Z 1];
     tW := [of_Z 1; of_Z 1];
     M := [2; 2];
     bias := PInf;
     stat_error := PInf;
     exact_error := NaN;
     TOL := None;
     total_time := None;
     Q := None;
     Vl_estimate := [of_Z 0; of_Z 0];
     _lvls_count := 2;
     weights := [of_Z 1; of_Z 1];
     active_lvls := [1; 1] |}.

Definition run_two_moments : MIMCRun :=
  {| fn := fn_abs; params := params_plain; cur_start_level := 0;
     iters := [itr_two_moments]; _all_itr := None |}.

(** One level without samples, with a given active flag. *)
Definition itr_unsampled (flag : Z) : MIMCItrData :=
  {| moments := 2;
     _lvls := [[0]];
     psums_delta := Some (Np.Matrix 2 [[of_Z 0; of_Z 0]]);
     psums_fine := Some (Np.Matrix 2 [[of_Z 0; of_Z 0]]);
     tT := [of_Z 0];
     tW := [of_Z 0];
     M := [0];
     bias := PInf;
     stat_error := PInf;
     exact_error := NaN;
     TOL := None;
     total_time := None;
     Q := None;
     Vl_estimate := [of_Z 0];
     _lvls_count := 1;
     weights := [of_Z 1];
     active_lvls := [flag] |}.

Definition run_unsampled (flag : Z) : MIMCRun :=
  {| fn := fn_abs; params := params_plain; cur_start_level := 0;
     iters := [itr_unsampled flag]; _all_itr := None |}.

(** The number of levels with a positive sample count. *)
Definition levels_with_samples (M : list Z) : nat :=
  length (filter (fun m => 0 <? m) M).




(** Instances of the numeric parameters for the examples: [x ** y] for
    finite operands with a positive base, and the quantile 2 that
    [_calcTheoryM] has as its default [Ca]. *)
Definition power_example (x y : float64) : float64 :=
  match x, y with
  | Fin a, Fin b =>
      match Rcompare a 0 with
      | Gt => Fin (Rpower a b)
      | _ => NaN
      end
  | _, _ => NaN
  end.

Definition norm_ppf_example (p : float64) : float64 := of_Z 2.

(** A level set whose every level is on the boundary. *)
Definition all_boundary (lvls : VarSizeList) : list bool :=
  map (fun _ => true) lvls.

Definition params_bayes : Params :=
  {| lsq_est := true; reuse_samples := true; bayes_fit_lvls := 1000;
     bayes_w_sig := of_Z (-1); bayes_s_sig := of_Z (-1);
     bayes_k0 := Fin (1 / 10); bayes_k1 := Fin (1 / 10);
     confidence := Fin (95 / 100) |}.

Definition Q_bayes : Bunch :=
  {| Q_S := Some PInf; Q_W := Some PInf; Q_w := Some [of_Z 1];
     Q_s := Some [of_Z 2]; Q_theta := Some (Fin (1 / 2)) |}.

(** A Bayesian iteration over the levels [[0]], [[1]], ... with the sample
    counts [M] and the power sums [psums]. *)
Definition itr_bayes (lvls : VarSizeList) (M : list Z)
  (psums : list (list float64)) : MIMCItrData :=
  {| moments := 2;
     _lvls := lvls;
     psums_delta := Some (Np.Matrix 2 psums);
     psums_fine := Some (Np.Matrix 2 psums);
     tT := map (fun _ => of_Z 1) M;
     tW := map (fun _ => of_Z 1) M;
     M := M;
     bias := PInf;
     stat_error := PInf;
     exact_error := NaN;
     TOL := Some (Fin (1 / 10));
     total_time := None;
     Q := Some Q_bayes;
     Vl_estimate := map (fun _ => of_Z 0) M;
     _lvls_count := length lvls;
     weights := map (fun _ => of_Z 1) M;
     active_lvls := map (fun _ => 1) M |}.

(** Three levels, of which only the first one has a sample. *)
Definition run_one_sampled : MIMCRun :=
  {| fn := fn_abs; params := params_bayes; cur_start_level := 0;
     iters := [itr_bayes [[0]; [1]; [2]] [1; 0; 0]
                 [[of_Z 1; of_Z 1]; [of_Z 0; of_Z 0]; [of_Z 0; of_Z 0]]];
     _all_itr := None |}.

(** Two levels, both with samples. *)
Definition run_two_sampled : MIMCRun :=
  {| fn := fn_abs; params := params_bayes; cur_start_level := 0;
     iters := [itr_bayes [[0]; [1]] [4; 2]
                 [[of_Z 4; of_Z 4]; [of_Z 1; of_Z 1]]];
     _all_itr := None |}.

(** The real numbers behind [calc_ml2r_weights] for a finite [alpha = a]:
    [q_pow a n] is [exp(-a n)], the [n]-th power of [q = exp(-a)];
    [q_poch a j] is [denom[j]], the product of the [1 - q^k] for
    [k = 1..j]; [q_tri a j] is [exp(-a j (j+1) / 2)]; and [ml2r_term a L j]
    is the weight [w[L - j]]. *)
Definition q_pow (a : R) (n : nat) : R := Rtrigo_def.exp (- a * INR n).

Fixpoint q_poch (a : R) (j : nat) : R :=
  match j with
  | O => 1
  | S j' => q_poch a j' * (1 - q_pow a j)
  end.

Definition q_tri (a : R) (j : nat) : R :=
  Rtrigo_def.exp (- a * INR j * INR (j + 1) / 2).

Definition ml2r_term (a : R) (L j : nat) : R :=
  ((-1) ^ j * q_tri a j / (q_poch a (L - j) * q_poch a j))%R.

(** The sum of a list of reals, in the order of [np.sum]. *)
Definition rsum (l : list R) : R := fold_left Rplus l 0%R.

(** A power-sum table, when allocated, has [n] rows of [p] entries. *)
Definition table_fits (n p : nat) (t : option Np.matrix) : Prop :=
  forall m, t = Some m ->
    Np.nrows m = n /\ Np.ncols m = p /\ Np.wf_matrix m.

(** The rows of a power-sum table, a table that is not allocated counting
    as [n] rows of [p] zeros. *)
Definition table_rows (n p : nat) (t : option Np.matrix)
  : list (list float64) :=
  match t with
  | Some m => Np.rows m
  | None => repeat (repeat zero p) n
  end.

(** The data contract with the shape of the tables: one row per level in
    every array, one column per moment in the tables, and both tables
    allocated as soon as a level has samples. *)
Definition sums_contract (d : MIMCItrData) : Prop :=
  per_level d
  /\ table_fits (_lvls_count d) (Z.to_nat (moments d)) (psums_delta d)
  /\ table_fits (_lvls_count d) (Z.to_nat (moments d)) (psums_fine d)
  /\ (psums_delta d = None \/ psums_fine d = None -> all_eq 0 (M d)).

(** The attributes that the sampling methods leave alone. *)
Definition same_settings (d d' : MIMCItrData) : Prop :=
  moments d' = moments d /\ _lvls d' = _lvls d
  /\ _lvls_count d' = _lvls_count d
  /\ weights d' = weights d /\ active_lvls d' = active_lvls d
  /\ Vl_estimate d' = Vl_estimate d
  /\ bias d' = bias d /\ stat_error d' = stat_error d
  /\ exact_error d' = exact_error d
  /\ TOL d' = TOL d /\ total_time d' = total_time d /\ Q d' = Q d.


(** One level that counts 3 samples while no table of sums is allocated. *)
Definition itr_untabled : MIMCItrData :=
  {| moments := 2;
     _lvls := [[0]];
     psums_delta := None;
     psums_fine := None;
     tT := [of_Z 1];
     tW := [of_Z 1];
     M := [3];
     bias := PInf;
     stat_error := PInf;
     exact_error := NaN;
     TOL := None;
     total_time := None;
     Q := None;
     Vl_estimate := [of_Z 0];
     _lvls_count := 1;
     weights := [of_Z 1];
     active_lvls := [1] |}.


(** The per-sample average of a per-level total: [t[l] / M[l]], and 0 at a
    level without samples. *)
Definition per_sample (t : list float64) (M : list Z) : list float64 :=
  Np.map2 (fun x m => if m =? 0 then zero else (x / of_Z m)%f64) t M.


(** The count that [_calcTheoryM] gives a level before the rounding, [c]
    being the factor that the levels share. *)
Definition theory_count (c minM : float64) (a : Z) (V W : float64)
  : float64 :=
  if negb (0 <=? a) then zero
  else
    let y := maximum (c * sqrt (V / W))%f64 minM in
    if isnan y then minM else y.

Fixpoint theory_counts (c minM : float64) (active : list Z)
  (Vl Wl : list float64) : list float64 :=
  match active, Vl, Wl with
  | a :: active', V :: Vl', W :: Wl' =>
      theory_count c minM a V W :: theory_counts c minM active' Vl' Wl'
  | _, _, _ => []
  end.

(** The signed combination that [expand_delta] prescribes for a level: the
    sum of [mods[k] * f(inds[k])] over the corners. *)
Definition delta_of (f : list Z -> R) (lvl : list Z) : R :=
  let (mods, inds) := expand_delta lvl in
  rsum (Np.map2 (fun m p => (IZR m * f p)%R) mods inds).

(** The multi-indices [l] with [0 <= l[i] <= L[i]] in every dimension. *)
Definition box (L : list Z) : list (list Z) :=
  product (map (fun Li => Np.arange (Li + 1)) L).


(** Parameters with the splitting parameter 1/2, not held constant, and
    the final tolerance 1. *)
Definition params_half_theta : ToleranceParams :=
  {| const_theta := false; theta := Fin (1 / 2); params_TOL := Fin 1 |}.

(** A clock that counts its readings. *)
Definition counting_clock (k : nat) : float64 := of_Z (Z.of_nat k).


(** The samples that are missing at a level: the requested total less the
    count, where the total is larger and the level has active flag [>= 0];
    nothing elsewhere. *)
Fixpoint todo_of (totalM M active : list Z) : list Z :=
  match totalM, M, active with
  | t :: totalM', m :: M', a :: active' =>
      (if (m <? t) && (0 <=? a) then t - m else 0)
      :: todo_of totalM' M' active'
  | _, _, _ => []
  end.

(** What a sampler returned fits [n] levels and [p] moments: one entry per
    level in every array, and sums of [p] entries at the levels that got
    samples. *)
Definition samples_fit (n : nat) (p : Z) (s : Samples.t) : Prop :=
  length (Samples.calcM s) = n
  /\ length (Samples.psums_delta s) = n
  /\ length (Samples.psums_fine s) = n
  /\ length (Samples.total_time s) = n
  /\ length (Samples.total_work s) = n
  /\ forall l c pd pf,
       nth_error (Samples.calcM s) l = Some c -> 0 < c ->
       nth_error (Samples.psums_delta s) l = Some pd ->
       nth_error (Samples.psums_fine s) l = Some pf ->
       length pd = length pf /\ Z.of_nat (length pf) = p.

(** Both tables of power sums are allocated. *)
Definition allocated (d : MIMCItrData) : Prop :=
  psums_delta d <> None /\ psums_fine d <> None.

(** The samples of two iterations are the same. *)
Definition same_samples (d d' : MIMCItrData) : Prop :=
  M d' = M d /\ tT d' = tT d /\ tW d' = tW d
  /\ psums_delta d' = psums_delta d /\ psums_fine d' = psums_fine d.


(** A sampler that computes what it is asked, every sample with the value
    1, the time 1 and the work 1. *)
Definition sampler_ones (lvls : VarSizeList) (todo : list Z) (moments : Z)
  : result Samples.t :=
  Ok {| Samples.calcM := todo;
        Samples.psums_delta :=
          map (fun m => repeat (of_Z m) (Z.to_nat moments)) todo;
        Samples.psums_fine :=
          map (fun m => repeat (of_Z m) (Z.to_nat moments)) todo;
        Samples.total_time := map of_Z todo;
        Samples.total_work := map of_Z todo |}.

(** A sampler that must not be called. *)
Definition sampler_none (lvls : VarSizeList) (todo : list Z) (moments : Z)
  : result Samples.t := Raise ValueError.

(** A bias estimator that returns 0. *)
Definition bias_zero (run : MIMCRun) : result float64 := Ok (of_Z 0).


(** The weighted mean of a level: its weight times its first power sum
    divided by its count, NaN without samples. *)
Definition level_mean (w : float64) (m : Z) (row : list float64) : float64 :=
  (w * (if m =? 0 then NaN else nth 0 row NaN / of_Z m))%f64.

(** The levels that enter the estimator: the ones whose flag is not
    negative. *)
Definition in_estimator (d : MIMCItrData) : list bool :=
  map (fun a => 0 <=? a) (active_lvls d).

(** The difference that a row of sampled values gives: the sum over the
    indices [k] of [mods[k] * row[k]]. *)
Definition row_delta (mods : list Z) (row : list R) : R :=
  rsum (Np.map2 Rmult row (map IZR mods)).

(** The fine value of a row of sampled values: its first entry. *)
Definition row_fine (row : list R) : R := nth 0 row 0%R.

(** The first [p] power sums of a list of reals. *)
Definition power_sums_of (p : nat) (xs : list R) : list float64 :=
  map (fun j => Fin (rsum (map (fun x => (x ^ S j)%R) xs))) (seq 0 p).

(** A sampler that, asked for samples at the indices [inds], returns at
    least one row of finite values, one value per index, with the time and
    the work they took; every row it returns satisfies [P]. *)
Definition sampler_draws {St : Type}
  (fnSample : St -> list (list Z) -> Z -> result (St * SampleAll.ret))
  (inds : list (list Z)) (P : list R -> Prop) : Prop :=
  forall st m, 0 < m ->
    exists st' rows t w,
      fnSample st inds m
      = Ok (st', {| SampleAll.values :=
                      Np.Matrix (length inds) (map (map Fin) rows);
                    SampleAll.samples_time := t;
                    SampleAll.samples_work := Some w |})
      /\ rows <> []
      /\ Forall (fun r => length r = length inds) rows
      /\ Forall P rows.

(** Level [i] of the result [o] holds the count and the power sums, up to
    order [p], of a list of sampled rows that satisfy [P], at least [m] of
    them; [mods] are the signs of the difference. *)
Definition level_sampled (P : list R -> Prop) (p : nat) (mods : list Z)
  (m : Z) (o : SampleAll.out) (i : nat) : Prop :=
  exists samples,
    Forall P samples
    /\ m <= Z.of_nat (length samples)
    /\ nth_error (SampleAll.calcM o) i = Some (Z.of_nat (length samples))
    /\ nth_error (SampleAll.psums_delta o) i
       = Some (SampleAll.Arr
                 (power_sums_of p (map (row_delta mods) samples)))
    /\ nth_error (SampleAll.psums_fine o) i
       = Some (SampleAll.Arr (power_sums_of p (map row_fine samples))).

(** Level [i] of the result [o] is as the arrays were created. *)
Definition level_skipped (o : SampleAll.out) (i : nat) : Prop :=
  nth_error (SampleAll.calcM o) i = Some 0
  /\ nth_error (SampleAll.psums_delta o) i = Some SampleAll.PyNone
  /\ nth_error (SampleAll.psums_fine o) i = Some SampleAll.PyNone
  /\ nth_error (SampleAll.total_time o) i = Some zero
  /\ nth_error (SampleAll.total_work o) i = Some zero.

(** The accumulators of a level hold the count and the power sums, up to
    order [p], of the rows [samples] drawn so far; they hold the
    placeholders as long as no row was drawn. *)
Definition accumulated (P : list R -> Prop) (p : nat) (mods : list Z)
  (a : SampleAll.acc) (samples : list (list R)) : Prop :=
  SampleAll.acc_M a = Z.of_nat (length samples)
  /\ Forall P samples
  /\ ((samples = []
       /\ SampleAll.acc_delta a = SampleAll.EmptyObj
       /\ SampleAll.acc_fine a = SampleAll.EmptyObj)
      \/ (samples <> []
          /\ SampleAll.acc_delta a
             = SampleAll.Arr (power_sums_of p (map (row_delta mods) samples))
          /\ SampleAll.acc_fine a
             = SampleAll.Arr (power_sums_of p (map row_fine samples)))).

(** Level [j] is the same in two results. *)
Definition same_at (o o' : SampleAll.out) (j : nat) : Prop :=
  nth_error (SampleAll.calcM o') j = nth_error (SampleAll.calcM o) j
  /\ nth_error (SampleAll.psums_delta o') j
     = nth_error (SampleAll.psums_delta o) j
  /\ nth_error (SampleAll.psums_fine o') j
     = nth_error (SampleAll.psums_fine o) j
  /\ nth_error (SampleAll.total_time o') j
     = nth_error (SampleAll.total_time o) j
  /\ nth_error (SampleAll.total_work o') j
     = nth_error (SampleAll.total_work o) j.

(** The five arrays of a result have [n] entries. *)
Definition out_length (n : nat) (o : SampleAll.out) : Prop :=
  length (SampleAll.calcM o) = n
  /\ length (SampleAll.psums_delta o) = n
  /\ length (SampleAll.psums_fine o) = n
  /\ length (SampleAll.total_time o) = n
  /\ length (SampleAll.total_work o) = n.

(** Level [k] is the first one with samples to compute: [M[k] = m > 0],
    and nothing is asked for at the levels before it. *)
Definition first_requested (M : list Z) (k : nat) (m : Z) : Prop :=
  nth_error M k = Some m /\ 0 < m
  /\ forall j mj, (j < k)%nat -> nth_error M j = Some mj -> mj <= 0.

(** A sampler that, asked for samples at the indices [inds], always
    returns an array without any row. *)
Definition sampler_empty {St : Type}
  (fnSample : St -> list (list Z) -> Z -> result (St * SampleAll.ret))
  (inds : list (list Z)) : Prop :=
  forall st m,
    exists st' t w,
      fnSample st inds m
      = Ok (st', {| SampleAll.values := Np.Matrix (length inds) [];
                    SampleAll.samples_time := t;
                    SampleAll.samples_work := Some w |}).

(** An accumulator of power sums that can be added to: the placeholder, or
    an array of [p] entries. *)
Definition addable (p : nat) (o : SampleAll.obj) : Prop :=
  o = SampleAll.EmptyObj
  \/ exists a, o = SampleAll.Arr a /\ length a = p.

(** A sampler whose values are all 1: as many rows as asked for. *)
Definition sampler_const (st : unit) (inds : list (list Z)) (m : Z)
  : result (unit * SampleAll.ret) :=
  Ok (st, {| SampleAll.values :=
               Np.Matrix (length inds)
                 (map (map Fin)
                    (repeat (repeat 1%R (length inds)) (Z.to_nat m)));
             SampleAll.samples_time := zero;
             SampleAll.samples_work := Some zero |}).

(** A sampler that returns the pair [(values, time)], without the work. *)
Definition sampler_pair (st : unit) (inds : list (list Z)) (m : Z)
  : result (unit * SampleAll.ret) :=
  Ok (st, {| SampleAll.values :=
               Np.Matrix (length inds)
                 (map (map Fin)
                    (repeat (repeat 1%R (length inds)) (Z.to_nat m)));
             SampleAll.samples_time := zero;
             SampleAll.samples_work := None |}).

(** A sampler that returns no row. *)
Definition sampler_no_rows (st : unit) (inds : list (list Z)) (m : Z)
  : result (unit * SampleAll.ret) :=
  Ok (st, {| SampleAll.values := Np.Matrix (length inds) [];
             SampleAll.samples_time := zero;
             SampleAll.samples_work := Some zero |}).

(** A store that keeps the arrays of another one: it is at least as long,
    and the arrays that were there are unchanged. *)
Definition store_extends (h h' : SampleAllSums.store) : Prop :=
  (length h <= length h')%nat
  /\ forall j, (j < length h)%nat -> nth_error h' j = nth_error h j.

(** A sampler of sums that, asked for samples at the indices [inds],
    returns a positive count and sums of [p] entries that satisfy [P]; it
    returns the sums of the differences when [with_diff] is set and None
    in their place otherwise. *)
Definition sampler_sums {St : Type}
  (fnSampleSums : St -> list (list Z) -> Z
                  -> result (St * SampleAllSums.ret))
  (inds : list (list Z)) (p : nat) (with_diff : bool)
  (P : SampleAllSums.ret -> Prop) : Prop :=
  forall st m, 0 < m ->
    exists st' r,
      fnSampleSums st inds m = Ok (st', r)
      /\ 0 < SampleAllSums.cur_M r
      /\ length (SampleAllSums.cur_fsums r) = p
      /\ (if with_diff
          then exists d, SampleAllSums.cur_diffsums r = Some d
                         /\ length d = p
          else SampleAllSums.cur_diffsums r = None)
      /\ P r.



(** The array of the first batch with the array of every later batch added
    twice. *)
Definition added_twice (b1 : SampleAllSums.ret)
  (rest : list SampleAllSums.ret) : list float64 :=
  fold_left (fun s b =>
               Np.map2 add (Np.map2 add s (SampleAllSums.cur_fsums b))
                 (SampleAllSums.cur_fsums b))
    rest (SampleAllSums.cur_fsums b1).

(** The count of a list of batches. *)
Definition batch_count (bs : list SampleAllSums.ret) : Z :=
  Np.sumZ (map SampleAllSums.cur_M bs).


(** The same when no batch gives the sums of the differences: both
    accumulators refer to one array, the fine sums of the first batch, to
    which the fine sums of every later batch were added twice. *)
Definition sums_aliased (P : SampleAllSums.ret -> Prop) (p n0 : nat)
  (h : SampleAllSums.store) (a : SampleAllSums.acc)
  (bs : list SampleAllSums.ret) : Prop :=
  SampleAllSums.acc_M a = batch_count bs
  /\ Forall P bs
  /\ match bs with
     | [] => SampleAllSums.acc_delta a = SampleAllSums.EmptyObj
             /\ SampleAllSums.acc_fine a = SampleAllSums.EmptyObj
     | b1 :: rest =>
         exists r,
           SampleAllSums.acc_delta a = SampleAllSums.Ref r
           /\ SampleAllSums.acc_fine a = SampleAllSums.Ref r
           /\ (n0 <= r < length h)%nat
           /\ nth_error h r = Some (added_twice b1 rest)
           /\ length (added_twice b1 rest) = p
     end.

(** The entries of level [i] of a result are the accumulators [a]. *)
Definition level_is (o : SampleAllSums.out) (i : nat)
  (a : SampleAllSums.acc) : Prop :=
  nth_error (SampleAllSums.calcM o) i = Some (SampleAllSums.acc_M a)
  /\ nth_error (SampleAllSums.psums_delta o) i
     = Some (SampleAllSums.acc_delta a)
  /\ nth_error (SampleAllSums.psums_fine o) i
     = Some (SampleAllSums.acc_fine a)
  /\ nth_error (SampleAllSums.total_time o) i
     = Some (SampleAllSums.acc_time a)
  /\ nth_error (SampleAllSums.total_work o) i
     = Some (SampleAllSums.acc_work a).

(** The accumulators as the arrays of a result are created. *)
Definition acc_none : SampleAllSums.acc :=
  {| SampleAllSums.acc_M := 0;
     SampleAllSums.acc_delta := SampleAllSums.PyNone;
     SampleAllSums.acc_fine := SampleAllSums.PyNone;
     SampleAllSums.acc_time := zero;
     SampleAllSums.acc_work := zero |}.

(** The five arrays of a result have [n] entries. *)
Definition sums_length (n : nat) (o : SampleAllSums.out) : Prop :=
  length (SampleAllSums.calcM o) = n
  /\ length (SampleAllSums.psums_delta o) = n
  /\ length (SampleAllSums.psums_fine o) = n
  /\ length (SampleAllSums.total_time o) = n
  /\ length (SampleAllSums.total_work o) = n.


(** A sampler of sums that computes one sample per call and returns None
    for the sums of the differences. *)
Definition sampler_sums_one (st : unit) (inds : list (list Z)) (m : Z)
  : result (unit * SampleAllSums.ret) :=
  Ok (st, {| SampleAllSums.cur_M := 1;
             SampleAllSums.cur_fsums := [of_Z 1; of_Z 1];
             SampleAllSums.cur_diffsums := None;
             SampleAllSums.cur_totalTime := zero;
             SampleAllSums.cur_totalWork := zero |}).

(** Names that every object has, among them the data descriptors
    [__class__], [__dict__] and [__weakref__]. *)
Definition object_attr (name : string) : bool :=
  existsb (String.eqb name)
    ["__class__"%string; "__dict__"%string; "__weakref__"%string;
     "__doc__"%string; "__module__"%string; "__repr__"%string;
     "__str__"%string; "__hash__"%string; "__eq__"%string].

Definition object_data_descriptor (name : string) : bool :=
  existsb (String.eqb name)
    ["__class__"%string; "__dict__"%string; "__weakref__"%string].

(** ** Facts about float64 *)

Module F64Facts.

Lemma add_zero_r (a : float64) : (a + of_Z 0)%f64 = a.
Proof.
  destruct a; simpl; trivial.
  f_equal. lra.
Qed.

Lemma mul_nan_r (a : float64) : (a * NaN)%f64 = NaN.
Proof. destruct a; reflexivity. Qed.

Lemma div_nan_l (a : float64) : (NaN / a)%f64 = NaN.
Proof. reflexivity. Qed.

Lemma maximum_nan_l (a : float64) : maximum NaN a = NaN.
Proof. reflexivity. Qed.

Lemma Rcompare_Lt (x y : R) : (x < y)%R -> Rcompare x y = Lt.
Proof.
  intros H. destruct (Rcompare_spec x y); trivial; lra.
Qed.

Lemma Rcompare_Gt (x y : R) : (y < x)%R -> Rcompare x y = Gt.
Proof.
  intros H. destruct (Rcompare_spec x y); trivial; lra.
Qed.

Lemma Rcompare_Eq (x : R) : Rcompare x x = Eq.
Proof.
  destruct (Rcompare_spec x x); trivial; lra.
Qed.

Lemma div_fin (x y : R) : y <> 0%R -> (Fin x / Fin y)%f64 = Fin (x / y).
Proof.
  intros H. simpl. destruct (Rcompare_spec y 0); trivial. contradiction.
Qed.

Lemma Int_part_IZR (z : Z) : Int_part (IZR z) = z.
Proof.
  unfold Int_part.
  assert (H : (z + 1)%Z = up (IZR z)).
  { apply tech_up; rewrite plus_IZR; simpl; lra. }
  rewrite <- H. lia.
Qed.

Lemma ceil_of_Z (z : Z) : ceil (of_Z z) = of_Z z.
Proof.
  unfold ceil, of_Z. rewrite <- opp_IZR, Int_part_IZR.
  f_equal. f_equal. lia.
Qed.

Lemma astype_int_of_Z (z : Z) :
  (int64_min <= z < 2 ^ 63)%Z -> astype_int (of_Z z) = z.
Proof.
  intros [Hlo Hhi]. unfold astype_int, of_Z.
  assert (Hz : match Rcompare (IZR z) 0 with
               | Lt => (- Int_part (- IZR z))%Z
               | _ => Int_part (IZR z)
               end = z).
  { destruct (Rcompare (IZR z) 0).
    - apply Int_part_IZR.
    - rewrite <- opp_IZR, Int_part_IZR. lia.
    - apply Int_part_IZR. }
  rewrite Hz.
  apply Z.leb_le in Hlo. apply Z.ltb_lt in Hhi.
  rewrite Hlo, Hhi. reflexivity.
Qed.

End F64Facts.

(** ** Facts about arrays *)

Module NpFacts.

Import Np.

Lemma length_map2 {A B C : Type} (f : A -> B -> C) (a : list A) (b : list B) :
  length a = length b -> length (map2 f a b) = length a.
Proof.
  revert b. induction a as [|x a IH]; intros [|y b] H; simpl in *;
    try discriminate; trivial.
  f_equal. apply IH. lia.
Qed.

Lemma nth_error_map2 {A B C : Type} (f : A -> B -> C) (a : list A)
  (b : list B) (i : nat) (x : A) (y : B) :
  nth_error a i = Some x -> nth_error b i = Some y ->
  nth_error (map2 f a b) i = Some (f x y).
Proof.
  revert b i. induction a as [|x0 a IH]; intros [|y0 b] [|i] Ha Hb;
    simpl in *; try discriminate.
  - injection Ha as ->. injection Hb as ->. reflexivity.
  - eauto.
Qed.

Lemma length_putmask {A : Type} (a : list A) (mask : list bool) (v : A) :
  length (putmask a mask v) = length a.
Proof.
  revert mask. induction a as [|x a IH]; intros [|b mask]; simpl; trivial.
  f_equal. apply IH.
Qed.

Lemma nth_error_putmask {A : Type} (a : list A) (mask : list bool) (v : A)
  (i : nat) (x : A) (b : bool) :
  nth_error a i = Some x -> nth_error mask i = Some b ->
  nth_error (putmask a mask v) i = Some (if b then v else x).
Proof.
  revert mask i. induction a as [|x0 a IH]; intros [|b0 mask] [|i] Ha Hb;
    simpl in *; try discriminate.
  - injection Ha as ->. injection Hb as ->. reflexivity.
  - eauto.
Qed.

Lemma length_compress {A B : Type} (mask : list bool) (a : list A)
  (b : list B) :
  length a = length b -> length (compress mask a) = length (compress mask b).
Proof.
  revert a b. induction mask as [|m mask IH]; intros [|x a] [|y b] H;
    simpl in *; try discriminate; trivial.
  destruct m; simpl; auto.
Qed.

Lemma length_resize {A : Type} (z : A) (a : list A) (n : nat) :
  length (resize z a n) = n.
Proof.
  unfold resize. rewrite length_app, length_firstn, repeat_length. lia.
Qed.

Lemma nth_error_resize_old {A : Type} (z : A) (a : list A) (n i : nat) :
  (i < length a)%nat -> (i < n)%nat ->
  nth_error (resize z a n) i = nth_error a i.
Proof.
  intros Ha Hn. unfold resize.
  rewrite nth_error_app1 by (rewrite length_firstn; lia).
  rewrite nth_error_firstn.
  destruct (Nat.ltb_spec i n); [reflexivity | lia].
Qed.

Lemma length_setslice {A : Type} (a : list A) (lo hi : nat) (v : A) :
  length (setslice a lo hi v) = length a.
Proof.
  revert lo hi. induction a as [|x a IH]; intros lo hi; simpl; trivial.
  destruct lo, hi; simpl; trivial; f_equal; apply IH.
Qed.

Lemma nth_error_setslice_in {A : Type} (a : list A) (lo hi : nat) (v : A)
  (i : nat) :
  (lo <= i < hi)%nat -> (i < length a)%nat ->
  nth_error (setslice a lo hi v) i = Some v.
Proof.
  revert lo hi i. induction a as [|x a IH]; intros lo hi i H Hi;
    simpl in *; [lia|].
  destruct lo, hi; try lia.
  - destruct i; simpl; trivial. apply IH; lia.
  - destruct i; [lia|]. simpl. apply IH; lia.
Qed.

Lemma nth_error_setslice_below {A : Type} (a : list A) (lo hi : nat) (v : A)
  (i : nat) :
  (i < lo)%nat -> nth_error (setslice a lo hi v) i = nth_error a i.
Proof.
  revert lo hi i. induction a as [|x a IH]; intros lo hi i H;
    simpl in *; trivial.
  destruct lo, hi; try lia; trivial.
  destruct i; simpl; trivial. apply IH; lia.
Qed.

Lemma nrows_resize_rows (m : matrix) (n : nat) : nrows (resize_rows m n) = n.
Proof. unfold nrows, resize_rows. simpl. apply length_resize. Qed.

End NpFacts.

(** ** The iteration state *)

Module ItrFacts.

Import Np NpFacts.

Lemma rows_zeros_like (m : matrix) :
  zero_table (nrows m) (ncols m) (zeros_like m).
Proof.
  unfold zero_table, zeros_like, zeros, nrows, wf_matrix. simpl.
  repeat split.
  - apply repeat_length.
  - apply Forall_forall. intros r Hr. apply repeat_spec in Hr. subst r.
    apply Forall_forall. intros x Hx. apply repeat_spec in Hx. exact Hx.
  - apply Forall_forall. intros r Hr. apply repeat_spec in Hr. subst r.
    apply repeat_length.
Qed.

Lemma all_eq_map_const {A B : Type} (v : B) (l : list A) :
  all_eq v (map (fun _ => v) l).
Proof.
  induction l; simpl; constructor; trivial.
Qed.

Lemma same_level_refl (d : MIMCItrData) (i : nat) : same_level d d i.
Proof. repeat split. Qed.

Lemma row_at_resize_rows (t : option matrix) (n i : nat) (k : nat) :
  (forall m, t = Some m -> nrows m = k) -> (i < k)%nat -> (i < n)%nat ->
  row_at (option_map (fun m => resize_rows m n) t) i = row_at t i.
Proof.
  intros Hk Hi Hn. destruct t as [m|]; simpl; trivial.
  apply nth_error_resize_old; trivial.
  specialize (Hk m eq_refl). unfold nrows in Hk. lia.
Qed.

Lemma nrows_option_resize (t : option matrix) (n : nat) (m : matrix) :
  option_map (fun m => resize_rows m n) t = Some m -> nrows m = n.
Proof.
  destruct t as [m0|]; simpl; intros H; [|discriminate].
  injection H as <-. apply nrows_resize_rows.
Qed.

Lemma option_map_none {A B : Type} (f : A -> B) (o : option A) :
  option_map f o = None <-> o = None.
Proof. destruct o; simpl; split; congruence. Qed.

(** The hook [_levels_added] on a state that keeps the data contract and
    whose level set did not shrink. *)
Lemma levels_added_ok (d : MIMCItrData) :
  per_level d -> (_lvls_count d <= length (_lvls d))%nat ->
  exists d', Itr._levels_added d = Ok d' /\ _lvls d' = _lvls d
             /\ levels_added_post d d'.
Proof.
  intros Hinv Hle. unfold Itr._levels_added.
  apply Nat.leb_le in Hle as Hleb. rewrite Hleb. simpl.
  destruct (Nat.eqb_spec (length (_lvls d)) (_lvls_count d)) as [Heq|Hne].
  - exists d. split; [reflexivity|]. split; [reflexivity|].
    unfold levels_added_post.
    split; [congruence|]. split; [lia|]. split; [exact Hinv|].
    split; [intros i Hi; lia|].
    split; [intros i Hi; apply same_level_refl|].
    split; reflexivity.
  - eexists. split; [reflexivity|]. split; [reflexivity|].
    destruct Hinv as (HM & HtT & HtW & Hw & Ha & HV & Hpd & Hpf).
    assert (Hlt : (_lvls_count d < length (_lvls d))%nat) by lia.
    unfold levels_added_post. simpl.
    split; [reflexivity|]. split; [lia|]. split.
    { unfold per_level, rows_are. simpl.
      rewrite !length_setslice, !length_resize.
      repeat (split; [reflexivity|]).
      split; intros m Hm; apply nrows_option_resize in Hm; exact Hm. }
    split.
    { intros i Hi. split; apply nth_error_setslice_in; trivial;
        rewrite length_resize; lia. }
    split.
    { intros i Hi. unfold same_level. simpl.
      rewrite !nth_error_setslice_below by lia.
      rewrite !nth_error_resize_old by lia.
      repeat (split; [reflexivity|]).
      split; apply row_at_resize_rows with (k := _lvls_count d);
        trivial; lia. }
    split; apply option_map_none.
Qed.

(** When the level set is shorter than the count, the hook's assertion
    fails. *)
Lemma levels_added_shrunk (d : MIMCItrData) :
  (length (_lvls d) < _lvls_count d)%nat ->
  Itr._levels_added d = Raise AssertionError.
Proof.
  intros H. unfold Itr._levels_added.
  destruct (Nat.leb_spec (_lvls_count d) (length (_lvls d))); [lia|].
  reflexivity.
Qed.

(** A new iteration keeps the data contract. *)
Lemma init_per_level (moments : Z) (lvls : option VarSizeList) :
  exists d, Itr.__init__ moments lvls = Ok d /\ per_level d
            /\ _lvls_count d = length (_lvls d).
Proof.
  unfold Itr.__init__.
  match goal with |- context [Itr._levels_added ?d0] => set (d := d0) end.
  destruct (@levels_added_ok d) as (d' & Hd' & Hl & Hpost).
  - unfold per_level, rows_are. simpl. repeat split; intros; discriminate.
  - simpl. lia.
  - exists d'. split; [exact Hd'|].
    destruct Hpost as (Hc & _ & Hp & _). split; trivial.
Qed.

(** C8. The total error estimate is the bias plus the statistical error, a
    statistical error that is NaN counting as 0: the total is then the bias
    itself. *)
Theorem total_error_est_nan_as_zero (self : MIMCItrData) :
  Itr.total_error_est self =
    (if isnan (stat_error self) then bias self
     else (bias self + stat_error self)%f64).
Proof.
  unfold Itr.total_error_est.
  destruct (isnan (stat_error self)); simpl; trivial.
  apply F64Facts.add_zero_r.
Qed.

(** C10. [zero_samples()] with no index returns a state whose sample
    counts, times and works are all zero and whose power-sum tables, when
    allocated, are zero tables of the same shape; the level set, the level
    count, the active flags, the weights, the bias, the statistical error,
    the tolerance and the fitted constants are those of the state before. *)
Theorem zero_samples_all (self : MIMCItrData) :
  exists self',
    Itr.zero_samples self None = Ok self'
    /\ all_eq 0 (M self') /\ length (M self') = length (M self)
    /\ all_eq zero (tT self') /\ length (tT self') = length (tT self)
    /\ all_eq zero (tW self') /\ length (tW self') = length (tW self)
    /\ match psums_delta self, psums_delta self' with
       | Some m, Some m' => zero_table (Np.nrows m) (Np.ncols m) m'
       | None, None => True
       | _, _ => False
       end
    /\ match psums_fine self, psums_fine self' with
       | Some m, Some m' => zero_table (Np.nrows m) (Np.ncols m) m'
       | None, None => True
       | _, _ => False
       end
    /\ _lvls self' = _lvls self
    /\ _lvls_count self' = _lvls_count self
    /\ active_lvls self' = active_lvls self
    /\ weights self' = weights self
    /\ bias self' = bias self
    /\ stat_error self' = stat_error self
    /\ TOL self' = TOL self
    /\ Q self' = Q self.
Proof.
  eexists. split; [reflexivity|]. simpl.
  repeat split; try apply all_eq_map_const; try apply length_map.
  - destruct (psums_delta self); simpl; trivial. apply rows_zeros_like.
  - destruct (psums_fine self); simpl; trivial. apply rows_zeros_like.
Qed.

(** C9. On a state that keeps the data contract, the levels-added hook and
    [lvls_add_from_list] (for a level set that does not shrink) return a
    state in which every per-level array has [lvls_count] rows, the new
    levels have active flag 1 and weight 1, the rows of the levels that
    existed are unchanged, and [lvls_count] did not decrease. *)
Theorem levels_added_keeps_per_level
  (add_from_list :
     VarSizeList -> list (list Z) -> option (list (list Z)) -> VarSizeList)
  (self : MIMCItrData) :
  per_level self ->
  ((_lvls_count self <= length (_lvls self))%nat ->
   exists self', Itr._levels_added self = Ok self'
                 /\ levels_added_post self self')
  /\ (forall inds j,
        (_lvls_count self
         <= length (add_from_list (_lvls self) inds j))%nat ->
        exists self',
          Itr.lvls_add_from_list add_from_list self inds j = Ok self'
          /\ _lvls self' = add_from_list (_lvls self) inds j
          /\ levels_added_post self self').
Proof.
  intros Hinv. split.
  - intros Hle. destruct (levels_added_ok Hinv Hle) as (d' & H1 & _ & H3).
    exists d'. split; trivial.
  - intros inds j Hle. unfold Itr.lvls_add_from_list.
    destruct (@levels_added_ok
                (Itr.set_lvls self (add_from_list (_lvls self) inds j)))
      as (d' & H1 & H2 & H3).
    + exact Hinv.
    + exact Hle.
    + exists d'. split; [exact H1|]. split; [exact H2|]. exact H3.
Qed.

End ItrFacts.

(** ** The difference-estimator expansion *)

Module ExpandDelta.

Lemma fold_left_add (e : list Z) (a : Z) :
  fold_left Z.add e a = a + fold_left Z.add e 0.
Proof.
  revert a. induction e as [|x e IH]; intros a; simpl; [lia|].
  rewrite IH, (IH x). lia.
Qed.

Lemma sumZ_cons (x : Z) (e : list Z) : Np.sumZ (x :: e) = x + Np.sumZ e.
Proof. unfold Np.sumZ. simpl. apply fold_left_add. Qed.

Lemma in_seed (l x : Z) : 0 <= l ->
  (In x (seed l) <-> x = 0 \/ (x = 1 /\ 0 < l)).
Proof.
  intros Hl. unfold seed. destruct (Z.eqb_spec l 0) as [->|Hne]; simpl.
  - split; [intros [H|[]]; auto | intros [H|[_ H]]; [auto | lia]].
  - split.
    + intros [H|[H|[]]]; [auto | right; split; lia].
    + intros [H|[H _]]; auto.
Qed.

Lemma NoDup_seed (l : Z) : NoDup (seed l).
Proof.
  unfold seed. destruct (l =? 0).
  - constructor; [intros []|constructor].
  - constructor; [intros [H|[]]; discriminate|].
    constructor; [intros []|constructor].
Qed.

Lemma in_product (seeds : list (list Z)) (e : list Z) :
  In e (product seeds) <-> Forall2 (fun s x => In x s) seeds e.
Proof.
  revert e. induction seeds as [|s seeds IH]; intros e; simpl.
  - split.
    + intros [<-|[]]. constructor.
    + intros H. inversion H. left. reflexivity.
  - rewrite in_flat_map. split.
    + intros (x & Hx & He). apply in_map_iff in He as (t & <- & Ht).
      constructor; trivial. apply IH. exact Ht.
    + intros H. inversion H as [|s0 x seeds0 t Hx Ht]; subst.
      exists x. split; trivial. apply in_map_iff. exists t.
      split; trivial. apply IH. exact Ht.
Qed.

Lemma NoDup_product (seeds : list (list Z)) :
  Forall (@NoDup Z) seeds -> NoDup (product seeds).
Proof.
  induction seeds as [|s seeds IH]; intros H; simpl.
  - constructor; [intros []|constructor].
  - inversion H as [|s0 seeds0 Hs Hseeds]; subst.
    specialize (IH Hseeds). clear H Hseeds.
    induction s as [|x s IHs]; simpl; [constructor|].
    inversion Hs as [|x0 s0 Hx Hs']; subst.
    apply NoDup_app.
    + apply NoDup_map_NoDup_ForallPairs; trivial.
      intros t t' _ _ Heq. injection Heq as ->. reflexivity.
    + apply IHs. exact Hs'.
    + intros e He Hin. apply in_map_iff in He as (t & <- & Ht).
      apply in_flat_map in Hin as (y & Hy & Hin).
      apply in_map_iff in Hin as (t' & Heq & _).
      injection Heq as -> ->. contradiction.
Qed.

Lemma length_product_seeds (lvl : list Z) :
  Forall (fun l => 0 <= l) lvl ->
  length (product (map seed lvl)) = (2 ^ positive_dims lvl)%nat.
Proof.
  unfold positive_dims.
  induction lvl as [|l lvl IH]; intros H; [reflexivity|].
  inversion H as [|l0 lvl0 Hl Hlvl]; subst. specialize (IH Hlvl).
  cbn [map product filter].
  destruct (Z.eqb_spec l 0) as [->|Hne].
  - change (seed 0) with [0]. change (0 <? 0) with false.
    cbn [flat_map]. rewrite app_nil_r, length_map. exact IH.
  - assert (Hs : seed l = [0; 1]).
    { unfold seed. destruct (Z.eqb_spec l 0); congruence. }
    rewrite Hs. destruct (Z.ltb_spec 0 l); [|lia].
    cbn [flat_map length]. rewrite app_nil_r, length_app, !length_map, IH.
    simpl. lia.
Qed.

Lemma parity_sign_formula (s : Z) : 0 <= s ->
  (2 * 0 mod 2 - 1) * (2 * (s mod 2) - 1) = (-1) ^ s.
Proof.
  intros Hs.
  rewrite (Z.div_mod s 2) at 2 by lia.
  rewrite Z.pow_add_r, Z.pow_mul_r by
    (try apply Z.mul_nonneg_nonneg; try apply Z.div_pos;
     try apply Z.mod_pos_bound; lia).
  change ((-1) ^ 2) with 1. rewrite Z.pow_1_l by (apply Z.div_pos; lia).
  assert (Hm : 0 <= s mod 2 < 2) by (apply Z.mod_pos_bound; lia).
  assert (Hc : s mod 2 = 0 \/ s mod 2 = 1) by lia.
  destruct Hc as [-> | ->]; reflexivity.
Qed.

Lemma corner_sum_nonneg (lvl e : list Z) : is_corner lvl e -> 0 <= Np.sumZ e.
Proof.
  induction 1 as [|l x lvl e Hx _ IH]; [unfold Np.sumZ; simpl; lia|].
  rewrite sumZ_cons. destruct Hx as [->|[-> _]]; lia.
Qed.

Lemma corner_point_inj (lvl e e' : list Z) :
  is_corner lvl e -> is_corner lvl e' ->
  corner_point lvl e = corner_point lvl e' -> e = e'.
Proof.
  intros H. revert e'. unfold corner_point.
  induction H as [|l x lvl e _ _ IH]; intros e' H' Heq.
  - inversion H'. reflexivity.
  - inversion H' as [|l0 x' lvl0 t' _ Ht']; subst. simpl in Heq.
    injection Heq as Hx Ht. f_equal; [lia|]. apply IH; trivial.
Qed.

(** The structure of [expand_delta] on a level with no negative
    coordinate. *)
Lemma expand_delta_spec (lvl : list Z) :
  Forall (fun l => 0 <= l) lvl ->
  exists inds,
    expand_delta lvl = (map parity_sign inds, map (corner_point lvl) inds)
    /\ length inds = (2 ^ positive_dims lvl)%nat
    /\ NoDup inds
    /\ (forall e, In e inds <-> is_corner lvl e)
    /\ NoDup (map (corner_point lvl) inds).
Proof.
  intros Hlvl.
  assert (Hin : forall e,
             In e (product (map seed lvl)) <-> is_corner lvl e).
  { intros e. rewrite in_product. unfold is_corner.
    clear - Hlvl. revert e.
    induction lvl as [|l lvl IH]; intros e; simpl.
    - split; intros H; inversion H; constructor.
    - inversion Hlvl as [|l0 lvl0 Hl Hl']; subst. split.
      + intros H. inversion H as [|s x ss t Hx Ht]; subst.
        constructor; [apply in_seed; trivial | apply IH; trivial].
      + intros H. inversion H as [|s x ss t Hx Ht]; subst.
        constructor; [apply in_seed; trivial | apply IH; trivial]. }
  assert (Hnd : NoDup (product (map seed lvl))).
  { apply NoDup_product. apply Forall_forall. intros s Hs.
    apply in_map_iff in Hs as (l & <- & _). apply NoDup_seed. }
  exists (product (map seed lvl)). repeat split.
  - unfold expand_delta. f_equal.
    apply map_ext_in. intros e He. unfold parity_sign.
    rewrite Z.mul_comm with (n := 2) (m := Np.sumZ lvl).
    rewrite Z.mod_mul by lia.
    rewrite <- parity_sign_formula.
    + reflexivity.
    + apply corner_sum_nonneg with (lvl := lvl). apply Hin. exact He.
  - apply length_product_seeds. exact Hlvl.
  - exact Hnd.
  - apply Hin.
  - apply Hin.
  - apply NoDup_map_NoDup_ForallPairs; trivial.
    intros e e' He He' Heq.
    apply corner_point_inj with (lvl := lvl); trivial; apply Hin; trivial.
Qed.

(** C7. On a level with no negative coordinate, [expand_delta] returns the
    2^k corner points [lvl - e], [e] ranging once over the offsets in {0,1}
    that are 1 only where the coordinate is positive (k dimensions), each
    with the coefficient (-1)^(parity of e); [expand_delta([0])] is the pair
    ([0], +1) and [expand_delta([2])] is ([2], +1), ([1], -1). *)
Theorem expand_delta_corners :
  (forall lvl, Forall (fun l => 0 <= l) lvl ->
     exists inds,
       expand_delta lvl = (map parity_sign inds, map (corner_point lvl) inds)
       /\ length inds = (2 ^ positive_dims lvl)%nat
       /\ NoDup inds
       /\ (forall e, In e inds <-> is_corner lvl e)
       /\ NoDup (map (corner_point lvl) inds))
  /\ expand_delta [0] = ([1], [[0]])
  /\ expand_delta [2] = ([1; -1], [[2]; [1]]).
Proof.
  split; [exact expand_delta_spec|]. split; reflexivity.
Qed.

End ExpandDelta.

(** ** Moments *)

Module MomentFacts.

Import Np NpFacts F64Facts.

Lemma length_place {A : Type} (a : list A) (mask : list bool)
  (vals : list A) : length (place a mask vals) = length a.
Proof.
  revert mask vals. induction a as [|x a IH]; intros [|b mask] vals;
    simpl; trivial.
  destruct b; [destruct vals|]; simpl; f_equal; apply IH.
Qed.

Lemma count_true_compress {A : Type} (mask : list bool) (a : list A) :
  length mask = length a -> length (compress mask a) = count_true mask.
Proof.
  unfold count_true. revert a.
  induction mask as [|b mask IH]; intros [|x a] H; simpl in *;
    try discriminate; trivial.
  destruct b; simpl; auto.
Qed.

Lemma nth_error_place_compress {A B C : Type} (h : B -> C -> A)
  (mask : list bool) (a : list A) (b : list B) (c : list C) (l : nat)
  (x : A) (y : B) (z : C) (bl : bool) :
  nth_error a l = Some x -> nth_error b l = Some y ->
  nth_error c l = Some z -> nth_error mask l = Some bl ->
  nth_error (place a mask (map2 h (compress mask b) (compress mask c))) l
  = Some (if bl then h y z else x).
Proof.
  revert a b c l.
  induction mask as [|b0 mask IH]; intros [|x0 a] [|y0 b] [|z0 c] [|l]
    Ha Hb Hc Hm; simpl in *; try discriminate.
  - injection Ha as ->. injection Hb as ->. injection Hc as ->.
    injection Hm as ->. destruct bl; reflexivity.
  - destruct b0; simpl; apply IH; trivial.
Qed.

Lemma mul_inv_is_div (x : float64) (r : R) :
  r <> 0%R -> (x * (one / Fin r))%f64 = (x / Fin r)%f64.
Proof.
  intros Hr. unfold one. rewrite div_fin by exact Hr.
  destruct x as [| | |a]; trivial.
  - simpl. destruct (Rcompare_spec r 0) as [H|H|H]; [contradiction| |].
    + rewrite Rcompare_Lt; trivial.
      unfold Rdiv. rewrite Rmult_1_l. apply Rinv_lt_0_compat. exact H.
    + rewrite Rcompare_Gt; trivial.
      unfold Rdiv. rewrite Rmult_1_l. apply Rinv_0_lt_compat. exact H.
  - simpl. destruct (Rcompare_spec r 0) as [H|H|H]; [contradiction| |].
    + rewrite Rcompare_Lt; trivial.
      unfold Rdiv. rewrite Rmult_1_l. apply Rinv_lt_0_compat. exact H.
    + rewrite Rcompare_Gt; trivial.
      unfold Rdiv. rewrite Rmult_1_l. apply Rinv_0_lt_compat. exact H.
  - rewrite div_fin by exact Hr. simpl. f_equal. field. exact Hr.
Qed.

Lemma IZR_neq_0 (m : Z) : m <> 0 -> IZR m <> 0%R.
Proof. intros H H0. apply H. apply eq_IZR. exact H0. Qed.

#[local] Arguments F64.mul : simpl never.
#[local] Arguments F64.div : simpl never.

Lemma compute_raw_moments_rows (psums : matrix) (M : list Z) :
  length M = nrows psums ->
  exists rows',
    compute_raw_moments psums M = Ok (Matrix (ncols psums) rows')
    /\ length rows' = length M
    /\ forall l m row,
         nth_error M l = Some m -> nth_error (rows psums) l = Some row ->
         nth_error rows' l = Some (raw_row (ncols psums) row m).
Proof.
  intros Hlen. unfold nrows in Hlen. unfold compute_raw_moments.
  set (idx := map (fun m => negb (m =? 0)) M).
  assert (Hidx : length idx = length M) by apply length_map.
  unfold getmask. simpl.
  rewrite repeat_length. unfold nrows.
  replace (Nat.eqb (length idx) (length (rows psums))) with true
    by (symmetry; apply Nat.eqb_eq; lia).
  replace (Nat.eqb (length idx) (length M)) with true
    by (symmetry; apply Nat.eqb_eq; lia).
  simpl. unfold _expand, assert. simpl.
  replace (Nat.eqb (length (compress idx M))
             (length (compress idx (repeat (repeat NaN (ncols psums))
                                      (length (rows psums))))))
    with true.
  2:{ symmetry. apply Nat.eqb_eq. apply length_compress.
      rewrite repeat_length. lia. }
  simpl. unfold setmask. rewrite repeat_length.
  replace (Nat.eqb (length idx) (length (rows psums))) with true
    by (symmetry; apply Nat.eqb_eq; lia).
  set (h := fun (row : list float64) (m : Z) =>
              map2 (fun x m => (x * (one / of_Z m))%f64) row
                (repeat m (ncols psums))).
  assert (Hsc : map2 (map2 (fun x m => (x * (one / of_Z m))%f64))
                  (compress idx (rows psums))
                  (map (fun x => repeat x (ncols psums)) (compress idx M))
                = map2 h (compress idx (rows psums)) (compress idx M)).
  { generalize (compress idx (rows psums)) (compress idx M).
    induction l as [|r l IH]; intros [|m l0]; simpl; trivial.
    f_equal. apply IH. }
  rewrite Hsc.
  replace (Nat.eqb (length (map2 h (compress idx (rows psums))
                              (compress idx M))) (count_true idx))
    with true.
  2:{ symmetry. apply Nat.eqb_eq. rewrite length_map2.
      - apply count_true_compress. lia.
      - apply length_compress. lia. }
  simpl. unfold setmask_scalar.
  rewrite length_map, length_place, repeat_length.
  replace (Nat.eqb (length M) (length (rows psums))) with true
    by (symmetry; apply Nat.eqb_eq; lia).
  simpl. eexists. split; [reflexivity|]. split.
  - rewrite length_putmask, length_place, repeat_length. lia.
  - intros l m row Hm Hrow.
    assert (Hl : (l < length M)%nat).
    { apply nth_error_Some. congruence. }
    match goal with
    | |- nth_error (putmask ?a _ _) _ = _ =>
        assert (Hp : nth_error a l
                     = Some (if negb (m =? 0) then h row m
                             else repeat NaN (ncols psums)))
    end.
    { apply nth_error_place_compress; trivial.
      - apply nth_error_repeat. lia.
      - unfold idx. rewrite nth_error_map, Hm. reflexivity. }
    assert (Hz : nth_error (map (fun m => m =? 0) M) l = Some (m =? 0)).
    { rewrite nth_error_map, Hm. reflexivity. }
    rewrite (nth_error_putmask _ _ _ _ Hp Hz).
    unfold raw_row, h. destruct (m =? 0); reflexivity.
Qed.

(** C6. The central moment of order 1 is the first column of the raw
    moments, with no centering; on a table with one row per count and at
    least one column, its entry for a level is the first power sum divided
    by the sample count, and NaN where the count is zero. *)
Theorem central_moment_1_is_raw_moment :
  (forall psums M,
     compute_central_moment psums M 1
     = (raw <- compute_raw_moments psums M ;; Np.column raw 0))
  /\ (forall psums M,
        wf_matrix psums -> length M = nrows psums ->
        (0 < ncols psums)%nat ->
        exists raw col,
          compute_raw_moments psums M = Ok raw
          /\ compute_central_moment psums M 1 = Ok col
          /\ column raw 0 = Ok col
          /\ length col = length M
          /\ forall l m row,
               nth_error M l = Some m ->
               nth_error (rows psums) l = Some row ->
               nth_error col l
               = Some (if m =? 0 then NaN
                       else (nth 0 row NaN / of_Z m)%f64)).
Proof.
  split; [reflexivity|].
  intros psums M Hwf Hlen Hcols.
  destruct (compute_raw_moments_rows psums M Hlen) as (rows' & Hraw & Hl & Hr).
  exists (Matrix (ncols psums) rows'), (map (fun r => nth 0 r NaN) rows').
  assert (Hcol : column (Matrix (ncols psums) rows') 0
                 = Ok (map (fun r => nth 0 r NaN) rows')).
  { unfold column. simpl. apply Nat.ltb_lt in Hcols. rewrite Hcols.
    reflexivity. }
  split; [exact Hraw|]. split.
  { unfold compute_central_moment. rewrite Hraw. simpl. exact Hcol. }
  split; [exact Hcol|]. split; [rewrite length_map; exact Hl|].
  intros l m row Hm Hrow.
  rewrite nth_error_map, (Hr l m row Hm Hrow). simpl. f_equal.
  unfold raw_row. destruct (Z.eqb_spec m 0) as [->|Hne].
  - destruct (ncols psums); [lia|]. reflexivity.
  - assert (Hrl : length row = ncols psums).
    { unfold wf_matrix in Hwf. rewrite Forall_forall in Hwf.
      apply Hwf. eapply nth_error_In. exact Hrow. }
    destruct row as [|x row]; [simpl in Hrl; lia|].
    destruct (ncols psums); [lia|]. simpl.
    apply mul_inv_is_div. apply IZR_neq_0. exact Hne.
Qed.

End MomentFacts.

(** ** Sample allocation *)

Module AllocFacts.

Import Np NpFacts F64Facts.

#[local] Arguments F64.mul : simpl never.
#[local] Arguments F64.div : simpl never.
#[local] Arguments F64.sqrt : simpl never.
#[local] Arguments F64.maximum : simpl never.
#[local] Arguments F64.pow_int : simpl never.
#[local] Arguments F64.ceil : simpl never.
#[local] Arguments F64.astype_int : simpl never.

Lemma nth_error_lookup {A : Type} (a : list A) (l : nat) :
  (l < length a)%nat -> exists x, nth_error a l = Some x.
Proof.
  intros H. destruct (nth_error a l) eqn:E; [eauto|].
  apply nth_error_None in E. lia.
Qed.

Lemma astype_int_ceil_zero : astype_int (ceil zero) = 0.
Proof.
  change zero with (of_Z 0). rewrite ceil_of_Z.
  apply astype_int_of_Z. unfold int64_min. lia.
Qed.

(** [_calcTheoryM] on arrays of one length, before the rounding: the
    count of an inactive level is 0, the count of an active level whose
    variance is NaN is the minimum. *)
Lemma calcTheoryM_float (TOL theta : float64) (Vl Wl : list float64)
  (active : list Z) (rnd : bool) (minM Ca : float64) :
  length Vl = length active -> length Wl = length active ->
  exists Mf,
    _calcTheoryM TOL theta Vl Wl active rnd minM Ca
    = Ok (if rnd then inl (map (fun x => astype_int (ceil x)) Mf)
          else inr Mf)
    /\ length Mf = length active
    /\ forall l a v,
         nth_error active l = Some a -> nth_error Vl l = Some v ->
         (a < 0 -> nth_error Mf l = Some zero)
         /\ (0 <= a -> isnan v = true -> nth_error Mf l = Some minM).
Proof.
  intros HV HW. unfold _calcTheoryM.
  set (act := map (fun a => 0 <=? a) active).
  assert (Hact : length act = length active) by apply length_map.
  unfold getmask.
  replace (Nat.eqb (length act) (length Wl)) with true
    by (symmetry; apply Nat.eqb_eq; lia).
  replace (Nat.eqb (length act) (length Vl)) with true
    by (symmetry; apply Nat.eqb_eq; lia).
  cbn [bind]. unfold broadcast2.
  replace (Nat.eqb (length (compress act Wl)) (length (compress act Vl)))
    with true
    by (symmetry; apply Nat.eqb_eq; apply length_compress; lia).
  replace (Nat.eqb (length Vl) (length Wl)) with true
    by (symmetry; apply Nat.eqb_eq; lia).
  cbn [bind].
  set (c := (pow_int (theta * TOL / Ca) (-2)
             * Np.sum (map sqrt (map2 mul (compress act Wl)
                                   (compress act Vl))))%f64).
  set (M1 := map (fun x => maximum x minM)
               (map (fun x => (c * sqrt x)%f64) (map2 div Vl Wl))).
  assert (HM1 : length M1 = length active).
  { unfold M1. rewrite !length_map, length_map2; lia. }
  unfold setmask_scalar.
  rewrite length_map, Nat.eqb_refl. cbn [bind].
  rewrite length_map, length_putmask.
  replace (Nat.eqb (length act) (length M1)) with true
    by (symmetry; apply Nat.eqb_eq; lia).
  cbn [bind]. eexists. split; [destruct rnd; reflexivity|]. split.
  { rewrite !length_putmask. exact HM1. }
  intros l a v Ha Hv.
  assert (Hl : (l < length active)%nat).
  { apply nth_error_Some. congruence. }
  destruct (@nth_error_lookup _ Wl l) as [w Hw]; [lia|].
  assert (H1 : nth_error M1 l
               = Some (maximum (c * sqrt (v / w))%f64 minM)).
  { unfold M1. rewrite !nth_error_map.
    rewrite (nth_error_map2 div _ _ _ Hv Hw). reflexivity. }
  assert (H2 : nth_error (map isnan M1) l
               = Some (isnan (maximum (c * sqrt (v / w))%f64 minM))).
  { rewrite nth_error_map, H1. reflexivity. }
  assert (H3 : nth_error (map negb act) l = Some (negb (0 <=? a))).
  { unfold act. rewrite !nth_error_map, Ha. reflexivity. }
  rewrite (nth_error_putmask _ _ _ _ (nth_error_putmask _ _ _ _ H1 H2) H3).
  split.
  - intros Hneg. destruct (Z.leb_spec 0 a); [lia|]. reflexivity.
  - intros Hpos Hnan. destruct (Z.leb_spec 0 a); [|lia].
    destruct v; try discriminate.
    rewrite div_nan_l. change (sqrt NaN) with NaN.
    rewrite mul_nan_r, maximum_nan_l. reflexivity.
Qed.

(** The same for the array that is returned, of integers with [ceil] and
    of floats without. *)
Lemma calcTheoryM_spec (TOL theta : float64) (Vl Wl : list float64)
  (active : list Z) (rnd : bool) (minM Ca : float64) :
  length Vl = length active -> length Wl = length active ->
  exists M,
    _calcTheoryM TOL theta Vl Wl active rnd minM Ca = Ok M
    /\ int_counts M = rnd
    /\ count_length M = length active
    /\ forall l a v,
         nth_error active l = Some a -> nth_error Vl l = Some v ->
         (a < 0 -> count_at M l = Some (of_Z 0))
         /\ (0 <= a -> isnan v = true ->
             count_at M l
             = Some (if rnd then of_Z (astype_int (ceil minM)) else minM)).
Proof.
  intros HV HW.
  destruct (calcTheoryM_float TOL theta Vl Wl active rnd minM Ca HV HW)
    as (Mf & HM & Hlen & Hl).
  eexists. split; [exact HM|].
  destruct rnd; cbn [int_counts count_length count_at].
  - split; [reflexivity|]. split; [rewrite length_map; exact Hlen|].
    intros l a v Ha Hv. destruct (Hl l a v Ha Hv) as [H0 H1].
    rewrite nth_error_map. split.
    + intros Hneg. rewrite (H0 Hneg). cbn [option_map].
      rewrite astype_int_ceil_zero. reflexivity.
    + intros Hpos Hnan. rewrite (H1 Hpos Hnan). reflexivity.
  - split; [reflexivity|]. split; [exact Hlen|].
    intros l a v Ha Hv. destruct (Hl l a v Ha Hv) as [H0 H1].
    split; [exact H0 | exact H1].
Qed.

(** C1, as the code has it.  For arrays of one length, [_calcTheoryM]
    returns a count for every level, integers with [ceil] and floats
    without; a level whose active flag is negative receives 0, and a level
    whose flag is not negative and whose variance estimate is NaN receives
    the minimum [minM], rounded up with [ceil]. *)
Theorem calcTheoryM_inactive_zero_nan_minimum (TOL theta : float64)
  (Vl Wl : list float64) (active : list Z) (rnd : bool)
  (minM Ca : float64) :
  length Vl = length active -> length Wl = length active ->
  exists M,
    _calcTheoryM TOL theta Vl Wl active rnd minM Ca = Ok M
    /\ int_counts M = rnd
    /\ count_length M = length active
    /\ forall l a v,
         nth_error active l = Some a -> nth_error Vl l = Some v ->
         (a < 0 -> count_at M l = Some (of_Z 0))
         /\ (0 <= a -> isnan v = true ->
             count_at M l
             = Some (if rnd then of_Z (astype_int (ceil minM)) else minM)).
Proof. apply calcTheoryM_spec. Qed.

(** C1 fails as stated: with the default minimum 1, the one active level
    whose variance estimate is NaN receives 1 sample, not 0, with [ceil]
    and without. *)
Lemma calcTheoryM_nan_level_not_zero :
  _calcTheoryM (of_Z 1) (Fin (1 / 2)) [NaN] [of_Z 1] [1] true (of_Z 1)
    (of_Z 2)
  = Ok (inl [1])
  /\ _calcTheoryM (of_Z 1) (Fin (1 / 2)) [NaN] [of_Z 1] [1] false (of_Z 1)
       (of_Z 2)
     = Ok (inr [of_Z 1])
  /\ isnan (nth 0 [NaN] zero) = true /\ nth 0 [1] 0 <> 0
  /\ of_Z 1 <> of_Z 0.
Proof.
  split; [|split; [|split; [reflexivity | split; [simpl; lia|]]]].
  - destruct (@calcTheoryM_float (of_Z 1) (Fin (1 / 2)) [NaN] [of_Z 1] [1]
                true (of_Z 1) (of_Z 2) eq_refl eq_refl)
      as (M & HM & Hlen & Hl).
    rewrite HM. f_equal. f_equal.
    destruct (Hl 0%nat 1 NaN eq_refl eq_refl) as [_ H].
    specialize (H ltac:(lia) eq_refl).
    destruct M as [|m [|m' M]]; simpl in Hlen; try discriminate.
    simpl in H. injection H as ->. cbn [map].
    rewrite ceil_of_Z, astype_int_of_Z by (unfold int64_min; lia).
    reflexivity.
  - destruct (@calcTheoryM_float (of_Z 1) (Fin (1 / 2)) [NaN] [of_Z 1] [1]
                false (of_Z 1) (of_Z 2) eq_refl eq_refl)
      as (M & HM & Hlen & Hl).
    rewrite HM. f_equal. f_equal.
    destruct (Hl 0%nat 1 NaN eq_refl eq_refl) as [_ H].
    specialize (H ltac:(lia) eq_refl).
    destruct M as [|m [|m' M]]; simpl in Hlen; try discriminate.
    simpl in H. injection H as ->. reflexivity.
  - unfold of_Z. intros H. injection H as H. lra.
Qed.

End AllocFacts.

(** ** The boundary bound of the bias *)

Module BiasFacts.

Import Np NpFacts F64Facts.

#[local] Arguments F64.mul : simpl never.
#[local] Arguments F64.div : simpl never.
#[local] Arguments F64.add : simpl never.
#[local] Arguments F64.abs : simpl never.
#[local] Arguments F64.of_Z : simpl never.
#[local] Arguments F64.pow_int : simpl never.

Lemma calcEl_length (itr : MIMCItrData) (moment : Z) (weighted : bool)
  (El : list float64) :
  Itr.calcEl itr moment false weighted = Ok El ->
  length (active_lvls itr) = length El.
Proof.
  unfold Itr.calcEl.
  destruct (Itr.calcDeltaCentralMoment itr moment weighted) as [El0|];
    [|discriminate].
  cbn [bind].
  destruct (Itr.calcFineCentralMoment itr moment weighted) as [fine|];
    [|discriminate].
  cbn [bind].
  destruct (getmask fine _) as [fb|]; [|discriminate]. cbn [bind].
  destruct (setmask El0 _ fb) as [El1|]; [|discriminate]. cbn [bind].
  unfold setmask_scalar. rewrite length_map.
  destruct (Nat.eqb_spec (length (active_lvls itr)) (length El1)) as [E|E];
    [|discriminate].
  cbn [bind]. intros H. injection H as <-. rewrite length_putmask. exact E.
Qed.

Lemma compress_forced (El : list float64) (active : list Z)
  (bnd : list bool) :
  length active = length El -> length bnd = length El ->
  compress bnd (putmask El (map (fun a => a =? 0) active) PInf)
  = boundary_terms El active bnd.
Proof.
  revert active bnd.
  induction El as [|e El IH]; intros [|a active] [|b bnd] Ha Hb;
    simpl in *; try discriminate; trivial.
  rewrite IH by lia. destruct b; reflexivity.
Qed.

Lemma existsb_is_None (l : list float64) : existsb is_None l = false.
Proof. induction l; simpl; trivial. Qed.

(** What [estimate_bias_bnd] returns: the norm of the sum of the boundary
    terms. *)
Lemma estimate_bias_bnd_spec (is_boundary : VarSizeList -> list bool)
  (run : MIMCRun) (itr : MIMCItrData) (El : list float64) :
  Run.last_itr run = Some itr ->
  Itr.calcEl itr 1 false true = Ok El ->
  _lvls_count itr = length (_lvls itr) ->
  length (is_boundary (_lvls itr)) = length El ->
  estimate_bias_bnd is_boundary run
  = Ok (fnNorm (fn run)
          (Np.sum (boundary_terms El (active_lvls itr)
                     (is_boundary (_lvls itr))))).
Proof.
  intros Hlast HEl Hcount Hbnd.
  pose proof (calcEl_length _ _ _ HEl) as Hact.
  unfold estimate_bias_bnd. rewrite Hlast. cbn [Run.deref getattr bind].
  rewrite HEl. cbn [bind].
  unfold setmask_scalar. rewrite length_map.
  replace (Nat.eqb (length (active_lvls itr)) (length El)) with true
    by (symmetry; apply Nat.eqb_eq; exact Hact).
  cbn [bind]. unfold Itr.get_lvls, Itr.lvls_count.
  replace (Nat.eqb (_lvls_count itr) (length (_lvls itr))) with true
    by (symmetry; apply Nat.eqb_eq; exact Hcount).
  cbn [negb bind]. unfold getmask. rewrite length_putmask.
  replace (Nat.eqb (length (is_boundary (_lvls itr))) (length El)) with true
    by (symmetry; apply Nat.eqb_eq; exact Hbnd).
  cbn [bind]. rewrite existsb_is_None.
  rewrite compress_forced by trivial. reflexivity.
Qed.

(** C3, as the code has it.  When the expectations of the levels can be
    computed and no boundary term is undefined, the boundary-bound bias
    estimator returns the norm of the sum of the expectations of the levels
    on the boundary, a base level counting as +inf. *)
Theorem estimate_bias_bnd_norm_of_sum
  (is_boundary : VarSizeList -> list bool) (run : MIMCRun)
  (itr : MIMCItrData) (El : list float64) :
  Run.last_itr run = Some itr ->
  Itr.calcEl itr 1 false true = Ok El ->
  _lvls_count itr = length (_lvls itr) ->
  length (is_boundary (_lvls itr)) = length El ->
  existsb isnan
    (boundary_terms El (active_lvls itr) (is_boundary (_lvls itr)))
  = false ->
  estimate_bias_bnd is_boundary run
  = Ok (fnNorm (fn run)
          (Np.sum (boundary_terms El (active_lvls itr)
                     (is_boundary (_lvls itr))))).
Proof.
  intros Hlast HEl Hcount Hbnd _.
  apply estimate_bias_bnd_spec; trivial.
Qed.

(** C3 fails as stated: two boundary levels with the expectations 1 and -1
    give the bias 0, the norm of their sum, where the sum of their norms
    is 2. *)
Lemma estimate_bias_bnd_not_sum_of_norms :
  estimate_bias_bnd (fun _ => [true; true]) run_cancel = Ok (of_Z 0)
  /\ exists El,
       Itr.calcEl itr_cancel 1 false true = Ok El
       /\ sum_of_norms_bound abs El (active_lvls itr_cancel) [true; true]
          = of_Z 2.
Proof.
  assert (H1 : (pow_int (of_Z 1) 1 * (of_Z 1 * (one / of_Z 1)))%f64
               = of_Z 1).
  { unfold pow_int, one, of_Z. rewrite div_fin by lra.
    unfold mul. simpl. f_equal. field. }
  assert (H2 : (pow_int (of_Z 1) 1 * (of_Z (-1) * (one / of_Z 1)))%f64
               = of_Z (-1)).
  { unfold pow_int, one, of_Z. rewrite div_fin by lra.
    unfold mul. simpl. f_equal. field. }
  split.
  - cbn. rewrite H1, H2. unfold abs, add, zero, of_Z. do 2 f_equal.
    replace (0 + 1 + -1)%R with 0%R by lra. apply Rabs_R0.
  - eexists. split; [cbn; rewrite H1, H2; reflexivity|].
    unfold sum_of_norms_bound. cbn.
    unfold abs, add, zero, of_Z. cbn [isnan orb]. f_equal.
    rewrite (Rabs_left (-1)) by lra. rewrite Rabs_R1. lra.
Qed.

(** The check [e is None] of [estimate_bias_bnd] never fires on a float
    array: an inactive level on the boundary gives the bias NaN, not +inf. *)
Lemma estimate_bias_bnd_undefined_term :
  estimate_bias_bnd (fun _ => [true]) (run_unsampled (-1)) = Ok NaN.
Proof. reflexivity. Qed.

End BiasFacts.

(** ** The run: parameter fitting and the estimation step *)

Module RunFacts.

Import Np NpFacts F64Facts.

#[local] Arguments F64.mul : simpl never.
#[local] Arguments F64.div : simpl never.
#[local] Arguments F64.add : simpl never.
#[local] Arguments F64.sqrt : simpl never.


Lemma set_last_ok (self self' : MIMCRun) (itr : MIMCItrData) :
  Run.set_last self itr = Ok self' ->
  Run.last_itr self' = Some itr /\ params self' = params self
  /\ fn self' = fn self.
Proof.
  unfold Run.set_last. destruct (iters self) as [|x l] eqn:E;
    [discriminate|].
  intros H. injection H as <-. unfold Run.last_itr. cbn [iters fn params].
  rewrite map_app. cbn [map]. rewrite last_last. auto.
Qed.

Lemma set_last_some (self : MIMCRun) (itr0 itr : MIMCItrData) :
  Run.last_itr self = Some itr0 -> exists self', Run.set_last self itr = Ok self'.
Proof.
  unfold Run.last_itr, Run.set_last.
  destruct (iters self); [discriminate|]. eauto.
Qed.






Lemma estimateQParams_raises (power : float64 -> float64 -> float64)
  (self : MIMCRun) (all : MIMCItrData) :
  lsq_est (params self) = true ->
  Run.all_itr self = Ok (Some all) ->
  Np.sumZ (M all) <> 0 ->
  (Itr.lvls_count all <= 2)%nat ->
  Run._estimateQParams power self
  = Raise (Exception "Must have at least 2 levels").
Proof.
  intros Hlsq Hall Hsum Hcount. unfold Run._estimateQParams.
  rewrite Hlsq, Hall. cbn [negb bind Run.deref getattr].
  destruct (Z.eqb_spec (Np.sumZ (M all)) 0) as [|_]; [contradiction|].
  destruct (Z.leb_spec (Z.of_nat (Itr.lvls_count all) - 1) 1); [|lia].
  reflexivity.
Qed.

(** C2, as the code has it.  When the fitting step runs (least-squares
    fitting enabled, at least one sample recorded overall) on an iteration
    that tracks at most 2 levels, it raises the error "Must have at least 2
    levels"; the number of levels that have samples plays no part. *)
Theorem estimateQParams_raises_below_three_levels
  (power : float64 -> float64 -> float64) (self : MIMCRun)
  (all : MIMCItrData) :
  lsq_est (params self) = true ->
  Run.all_itr self = Ok (Some all) ->
  Np.sumZ (M all) <> 0 ->
  (Itr.lvls_count all <= 2)%nat ->
  Run._estimateQParams power self
  = Raise (Exception "Must have at least 2 levels").
Proof. apply estimateQParams_raises. Qed.

Lemma ltb_0_minus_1 : ltb (of_Z 0) (of_Z (-1)) = false.
Proof.
  unfold ltb, of_Z. rewrite Rcompare_Gt by lra. reflexivity.
Qed.

(** C2 fails as stated: with three tracked levels of which one has
    samples, the fitting step runs and returns fitted constants, whatever
    [power] is. *)
Lemma estimateQParams_one_sampled_level_returns :
  lsq_est (params run_one_sampled) = true
  /\ (exists all, Run.all_itr run_one_sampled = Ok (Some all)
                  /\ Np.sumZ (M all) = 1
                  /\ levels_with_samples (M all) = 1%nat)
  /\ forall power, exists self',
       Run._estimateQParams power run_one_sampled = Ok self'.
Proof.
  split; [reflexivity|]. split.
  - eexists. split; [reflexivity|]. split; reflexivity.
  - intros power.
    cbv -[F64.mul F64.div F64.add F64.sub F64.abs F64.of_Z F64.pow_int
          F64.ltb F64.sqrt F64.opp IZR Rdiv Rmult Rplus Rinv].
    rewrite ltb_0_minus_1. eexists. reflexivity.
Qed.



End RunFacts.

(** ** The ML2R combination weights *)

Module Ml2rFacts.

Import Np NpFacts F64Facts.

Local Open Scope R_scope.

Section Reals.

Variable a : R.
Hypothesis a_pos : 0 < a.

Lemma q_pow_0 : q_pow a 0 = 1.
Proof.
  unfold q_pow. simpl. rewrite Rmult_0_r. apply exp_0.
Qed.

Lemma q_pow_add (m n : nat) : q_pow a (m + n) = q_pow a m * q_pow a n.
Proof.
  unfold q_pow. rewrite plus_INR, <- exp_plus. f_equal. ring.
Qed.

Lemma q_pow_lt_1 (m : nat) : (0 < m)%nat -> q_pow a m < 1.
Proof.
  intros Hm. unfold q_pow. rewrite <- exp_0. apply exp_increasing.
  assert (0 < INR m) by (apply lt_0_INR; exact Hm).
  nra.
Qed.

Lemma q_poch_pos (j : nat) : 0 < q_poch a j.
Proof.
  induction j as [|j IH]; simpl; [lra|].
  apply Rmult_lt_0_compat; trivial.
  pose proof (@q_pow_lt_1 (S j) ltac:(lia)). lra.
Qed.

Lemma q_poch_neq (j : nat) : q_poch a j <> 0.
Proof. pose proof (q_poch_pos j). lra. Qed.

Lemma q_tri_0 : q_tri a 0 = 1.
Proof.
  unfold q_tri. simpl. replace (- a * 0 * 1 / 2) with 0 by field.
  apply exp_0.
Qed.

Lemma q_tri_S (j : nat) : q_tri a (S j) = q_tri a j * q_pow a (S j).
Proof.
  unfold q_tri, q_pow. rewrite <- exp_plus. f_equal.
  rewrite !plus_INR, !S_INR. simpl. field.
Qed.

(** The weights of the window [L + 1] from those of the window [L]. *)
Lemma ml2r_term_split (L j : nat) : (j <= S L)%nat ->
  ml2r_term a (S L) j * (1 - q_pow a (S L))
  = ml2r_term a (S L) j * (1 - q_pow a (S L - j))
    + ml2r_term a (S L) j * (q_pow a (S L - j) * (1 - q_pow a j)).
Proof.
  intros Hj.
  assert (H : q_pow a (S L) = q_pow a (S L - j) * q_pow a j).
  { rewrite <- q_pow_add. f_equal. lia. }
  rewrite H. ring.
Qed.

Lemma ml2r_term_same (L j : nat) : (j <= L)%nat ->
  ml2r_term a (S L) j * (1 - q_pow a (S L - j)) = ml2r_term a L j.
Proof.
  intros Hj. unfold ml2r_term.
  replace (S L - j)%nat with (S (L - j)) by lia. simpl q_poch.
  pose proof (q_poch_neq (L - j)). pose proof (q_poch_neq j).
  pose proof (@q_pow_lt_1 (S (L - j)) ltac:(lia)).
  field. repeat split; trivial; lra.
Qed.

Lemma ml2r_term_shift (L j : nat) : (j <= L)%nat ->
  ml2r_term a (S L) (S j) * (q_pow a (S L - S j) * (1 - q_pow a (S j)))
  = - q_pow a (S L) * ml2r_term a L j.
Proof.
  intros Hj. unfold ml2r_term.
  replace (S L - S j)%nat with (L - j)%nat by lia.
  assert (H : q_pow a (S L) = q_pow a (L - j) * q_pow a (S j)).
  { rewrite <- q_pow_add. f_equal. lia. }
  rewrite H, q_tri_S. simpl q_poch. simpl pow.
  pose proof (q_poch_neq (L - j)). pose proof (q_poch_neq j).
  pose proof (@q_pow_lt_1 (S j) ltac:(lia)).
  field. repeat split; trivial; lra.
Qed.

Lemma ml2r_term_last (L : nat) :
  ml2r_term a (S L) (S L) * (1 - q_pow a (S L - S L)) = 0.
Proof.
  rewrite Nat.sub_diag, q_pow_0. ring.
Qed.

Lemma ml2r_term_first (L : nat) :
  ml2r_term a (S L) 0 * (q_pow a (S L - 0) * (1 - q_pow a 0)) = 0.
Proof.
  rewrite q_pow_0. ring.
Qed.

(** The partition of unity: the weights of a window add up to 1. *)
Lemma ml2r_terms_sum (L : nat) : sum_f_R0 (ml2r_term a L) L = 1.
Proof.
  induction L as [|L IH].
  - simpl. unfold ml2r_term. simpl. rewrite q_tri_0. field.
  - assert (Hq : 1 - q_pow a (S L) <> 0).
    { pose proof (@q_pow_lt_1 (S L) ltac:(lia)). lra. }
    apply Rmult_eq_reg_r with (r := 1 - q_pow a (S L)); [|exact Hq].
    rewrite Rmult_1_l, Rmult_comm, scal_sum.
    rewrite (sum_eq _
               (fun j => ml2r_term a (S L) j * (1 - q_pow a (S L - j))
                         + ml2r_term a (S L) j
                           * (q_pow a (S L - j) * (1 - q_pow a j)))).
    2:{ intros j Hj. apply ml2r_term_split. exact Hj. }
    rewrite sum_plus.
    rewrite tech5, ml2r_term_last, Rplus_0_r.
    rewrite (sum_eq _ (ml2r_term a L))
      by (intros j Hj; apply ml2r_term_same; exact Hj).
    rewrite decomp_sum with (N := S L) by lia.
    rewrite ml2r_term_first, Rplus_0_l. simpl pred.
    rewrite (sum_eq
               (fun i => ml2r_term a (S L) (S i)
                         * (q_pow a (S L - S i) * (1 - q_pow a (S i))))
               (fun j => ml2r_term a L j * - q_pow a (S L))).
    2:{ intros j Hj. rewrite ml2r_term_shift by exact Hj. ring. }
    rewrite <- scal_sum, IH. ring.
Qed.

End Reals.

(** Sums of reals. *)

Lemma rsum_acc (l : list R) (acc : R) :
  fold_left Rplus l acc = acc + rsum l.
Proof.
  unfold rsum. revert acc.
  induction l as [|x l IH]; intros acc; simpl; [ring|].
  rewrite IH, (IH (0 + x)). ring.
Qed.

Lemma rsum_cons (x : R) (l : list R) : rsum (x :: l) = x + rsum l.
Proof.
  unfold rsum. cbn [fold_left]. rewrite rsum_acc. unfold rsum. ring.
Qed.

Lemma rsum_app (l l' : list R) : rsum (l ++ l') = rsum l + rsum l'.
Proof.
  induction l as [|x l IH]; cbn [app].
  - unfold rsum at 2. cbn [fold_left]. ring.
  - rewrite !rsum_cons, IH. ring.
Qed.

Lemma rsum_rev (l : list R) : rsum (rev l) = rsum l.
Proof.
  induction l as [|x l IH]; cbn [rev]; trivial.
  rewrite rsum_app, !rsum_cons, IH. unfold rsum at 2. cbn [fold_left]. ring.
Qed.

Lemma rsum_seq (f : nat -> R) (n : nat) :
  rsum (map f (seq 0 (S n))) = sum_f_R0 f n.
Proof.
  induction n as [|n IH].
  - unfold rsum. simpl. ring.
  - rewrite seq_S, map_app, rsum_app, IH. cbn [map Nat.add sum_f_R0].
    rewrite rsum_cons. unfold rsum. cbn [fold_left]. ring.
Qed.

Lemma map_sub_rev {A : Type} (f : nat -> A) (n : nat) :
  map (fun l => f (n - l)%nat) (seq 0 (S n)) = rev (map f (seq 0 (S n))).
Proof.
  induction n as [|n IH]; [reflexivity|].
  change (seq 0 (S (S n))) with (0%nat :: seq 1 (S n)) at 1.
  cbn [map]. rewrite <- seq_shift, map_map.
  change (map (fun x => f (S n - S x)%nat) (seq 0 (S n)))
    with (map (fun l => f (n - l)%nat) (seq 0 (S n))).
  rewrite IH, (seq_S (S n)), map_app, rev_app_distr. reflexivity.
Qed.

(** Sums of floats that are finite. *)

Lemma add_zero_l (x : float64) : add zero x = x.
Proof. destruct x; simpl; trivial; f_equal; ring. Qed.

Lemma fold_add_fin (xs : list R) (acc : R) :
  fold_left add (map Fin xs) (Fin acc) = Fin (fold_left Rplus xs acc).
Proof.
  revert acc. induction xs as [|x xs IH]; intros acc; simpl; [reflexivity|].
  apply IH.
Qed.

Lemma sum_fin (xs : list R) : Np.sum (map Fin xs) = Fin (rsum xs).
Proof. apply fold_add_fin. Qed.

Lemma cumsum_from_app (acc x : float64) (l : list float64) :
  cumsum_from acc (l ++ [x])
  = cumsum_from acc l ++ [fold_left add (l ++ [x]) acc].
Proof.
  revert acc. induction l as [|y l IH]; intros acc; simpl; trivial.
  rewrite IH. reflexivity.
Qed.

Lemma cumsum_is_from_zero (l : list float64) :
  cumsum l = cumsum_from zero l.
Proof.
  destruct l as [|x l]; [reflexivity|].
  cbn [cumsum cumsum_from]. rewrite add_zero_l. reflexivity.
Qed.

(** The first entry of the reverse cumulative sum is the sum of the
    reversed array. *)
Lemma hd_rev_cumsum_rev (x : float64) (l : list float64) :
  hd_error (rev (cumsum (rev (x :: l)))) = Some (Np.sum (rev (x :: l))).
Proof.
  simpl rev. rewrite cumsum_is_from_zero, cumsum_from_app, rev_app_distr.
  reflexivity.
Qed.

Section Weights.

Variable a : R.
Hypothesis a_pos : 0 < a.

Lemma exp_term (k : Z) :
  exp (- Fin a * of_Z k)%f64 = Fin (Rtrigo_def.exp (- a * IZR k)).
Proof. reflexivity. Qed.

Lemma denom_factor (k : nat) :
  (one - exp (- Fin a * of_Z (Z.of_nat k + 1)))%f64
  = Fin (1 - q_pow a (S k)).
Proof.
  unfold q_pow. rewrite S_INR, INR_IZR_INZ, <- plus_IZR. reflexivity.
Qed.

Lemma cumprod_from_poch (j m : nat) :
  cumprod_from (Fin (q_poch a j))
    (map (fun k => Fin (1 - q_pow a (S k))) (seq j m))
  = map (fun i => Fin (q_poch a i)) (seq (S j) m).
Proof.
  revert j. induction m as [|m IH]; intros j; simpl; trivial.
  f_equal. apply (IH (S j)).
Qed.

Lemma ml2r_denom_poch (n : nat) :
  ml2r_denom (Fin a) (Z.of_nat n)
  = map (fun i => Fin (q_poch a i)) (seq 0 (S (S n))).
Proof.
  unfold ml2r_denom, arange.
  replace (Z.to_nat (Z.of_nat n + 1)) with (S n) by lia.
  rewrite map_map.
  rewrite (map_ext _ (fun k => Fin (1 - q_pow a (S k))))
    by (intros k; apply denom_factor).
  change (seq 0 (S (S n))) with (0%nat :: 1%nat :: seq 2 n).
  change (seq 0 (S n)) with (0%nat :: seq 1 n).
  cbn [map cumprod]. f_equal.
  assert (H1 : Fin (1 - q_pow a 1) = Fin (q_poch a 1)).
  { f_equal. simpl. ring. }
  rewrite H1. f_equal. apply (cumprod_from_poch 1 n).
Qed.

Lemma getitem_map_seq {A : Type} (f : nat -> A) (m i : nat) :
  (i < m)%nat -> getitem (map f (seq 0 m)) (Z.of_nat i) = Ok (f i).
Proof.
  intros Hi. unfold getitem. rewrite length_map, length_seq.
  destruct (Z.ltb_spec (Z.of_nat i) 0); [lia|].
  destruct (Z.leb_spec 0 (Z.of_nat i)); [|lia].
  destruct (Z.ltb_spec (Z.of_nat i) (Z.of_nat m)); [|lia].
  cbn [andb]. rewrite Nat2Z.id, nth_error_map.
  rewrite nth_error_nth' with (d := 0%nat) by (rewrite length_seq; lia).
  rewrite seq_nth by lia. reflexivity.
Qed.

Lemma mapM_seq {B : Type} (f : Z -> result B) (g : nat -> B) (s m : nat) :
  (forall i, (s <= i < s + m)%nat -> f (Z.of_nat i) = Ok (g i)) ->
  mapM f (map Z.of_nat (seq s m)) = Ok (map g (seq s m)).
Proof.
  revert s. induction m as [|m IH]; intros s H; simpl; trivial.
  rewrite H by lia. cbn [bind]. rewrite IH; [reflexivity|].
  intros i Hi. apply H. lia.
Qed.

Lemma ml2r_weight (n i : nat) : (i <= n)%nat ->
  (of_Z ((-1) ^ (Z.of_nat n - Z.of_nat i))
   * exp (- Fin a * of_Z (Z.of_nat n - Z.of_nat i)
          * of_Z (Z.of_nat n + 1 - Z.of_nat i) / Fin 2)
   / (Fin (q_poch a i) * Fin (q_poch a (n - i))))%f64
  = Fin (ml2r_term a n (n - i)).
Proof.
  intros Hi.
  replace (Z.of_nat n - Z.of_nat i)%Z with (Z.of_nat (n - i)) by lia.
  replace (Z.of_nat n + 1 - Z.of_nat i)%Z with (Z.of_nat (n - i + 1))
    by lia.
  unfold of_Z. cbn [opp mul]. rewrite div_fin by lra.
  cbn [exp mul]. rewrite div_fin.
  2:{ apply Rmult_integral_contrapositive_currified;
        apply q_poch_neq; exact a_pos. }
  f_equal. unfold ml2r_term, q_tri.
  rewrite <- pow_IZR, <- !INR_IZR_INZ.
  replace (n - (n - i))%nat with i by lia. reflexivity.
Qed.

Lemma ml2r_w_terms (n : nat) :
  ml2r_w (Fin a) (Z.of_nat n)
  = Ok (map Fin (map (fun l => ml2r_term a n (n - l)) (seq 0 (S n)))).
Proof.
  unfold ml2r_w, arange. rewrite ml2r_denom_poch.
  replace (Z.to_nat (Z.of_nat n + 1)) with (S n) by lia.
  rewrite map_map. apply mapM_seq. intros i Hi.
  rewrite getitem_map_seq by lia. cbn [bind].
  replace (Z.of_nat n - Z.of_nat i)%Z with (Z.of_nat (n - i)) at 1 by lia.
  rewrite getitem_map_seq by lia. cbn [bind].
  f_equal. apply ml2r_weight. lia.
Qed.

Lemma ml2r_w_sum (n : nat) :
  rsum (map (fun l => ml2r_term a n (n - l)) (seq 0 (S n))) = 1.
Proof.
  rewrite map_sub_rev, rsum_rev, rsum_seq.
  apply ml2r_terms_sum. exact a_pos.
Qed.

End Weights.

(** The weights of [calc_ml2r_weights] for a finite positive [alpha], in
    exact arithmetic: they add up to 1, and the first entry of the reverse
    cumulative sum is 1 (the q-binomial identity with [q = exp(-alpha)]).
    The binary64 value that the program returns differs from this by the
    rounding of [np.exp], of the products and of the sums, which the
    embedding leaves out. *)
Lemma ml2r_weights_spec (a : R) (L : Z) : 0 < a -> (0 <= L)%Z ->
  exists w cw,
    ml2r_w (Fin a) L = Ok w
    /\ calc_ml2r_weights (Fin a) L = Ok cw
    /\ length w = Z.to_nat (L + 1)
    /\ Np.sum w = of_Z 1
    /\ hd_error cw = Some (of_Z 1).
Proof.
  intros Ha HL.
  rewrite <- (Z2Nat.id L) by exact HL.
  set (n := Z.to_nat L).
  pose proof (ml2r_w_terms Ha n) as Hw.
  pose proof (ml2r_w_sum Ha n) as Hs.
  set (xs := map (fun l => ml2r_term a n (n - l)) (seq 0 (S n))) in *.
  exists (map Fin xs), (rev (cumsum (rev (map Fin xs)))).
  split; [exact Hw|]. split.
  { unfold calc_ml2r_weights. rewrite Hw. reflexivity. }
  split.
  { unfold xs. rewrite !length_map, length_seq. lia. }
  split.
  { rewrite sum_fin, Hs. reflexivity. }
  assert (Hne : exists x l, map Fin xs = x :: l).
  { unfold xs. simpl. eauto. }
  destruct Hne as (x & l & Hxl).
  rewrite Hxl, hd_rev_cumsum_rev, <- Hxl, <- map_rev, sum_fin, rsum_rev, Hs.
  reflexivity.
Qed.

End Ml2rFacts.

(** ** More facts about arrays *)

Module ArrayFacts.

Import Np NpFacts.

Lemma length_map2_min {A B C : Type} (f : A -> B -> C) (a : list A)
  (b : list B) : length (map2 f a b) = Nat.min (length a) (length b).
Proof.
  revert b. induction a as [|x a IH]; intros [|y b]; simpl; trivial.
  f_equal. apply IH.
Qed.

Lemma getitem_nat {A : Type} (a : list A) (l : nat) (x : A) :
  nth_error a l = Some x -> getitem a (Z.of_nat l) = Ok x.
Proof.
  intros H. assert (Hl : (l < length a)%nat).
  { apply nth_error_Some. congruence. }
  unfold getitem. destruct (Z.ltb_spec (Z.of_nat l) 0); [lia|].
  replace ((0 <=? Z.of_nat l) && (Z.of_nat l <? Z.of_nat (length a)))
    with true by (symmetry; apply andb_true_iff; split;
                  [apply Z.leb_le | apply Z.ltb_lt]; lia).
  rewrite Nat2Z.id, H. reflexivity.
Qed.

Lemma setitem_nat {A : Type} (a : list A) (l : nat) (v : A) :
  (l < length a)%nat -> setitem a (Z.of_nat l) v = Ok (update a l v).
Proof.
  intros Hl. unfold setitem. destruct (Z.ltb_spec (Z.of_nat l) 0); [lia|].
  replace ((0 <=? Z.of_nat l) && (Z.of_nat l <? Z.of_nat (length a)))
    with true by (symmetry; apply andb_true_iff; split;
                  [apply Z.leb_le | apply Z.ltb_lt]; lia).
  rewrite Nat2Z.id. reflexivity.
Qed.

(** An index outside [-n .. n-1] is an [IndexError]. *)
Lemma getitem_out {A : Type} (a : list A) (i : Z) :
  i < - Z.of_nat (length a) \/ Z.of_nat (length a) <= i ->
  getitem a i = Raise IndexError.
Proof.
  intros H. unfold getitem.
  destruct (Z.ltb_spec i 0).
  - replace ((0 <=? i + Z.of_nat (length a))
             && (i + Z.of_nat (length a) <? Z.of_nat (length a)))
      with false; trivial.
    symmetry. apply andb_false_iff. left. apply Z.leb_gt. lia.
  - replace ((0 <=? i) && (i <? Z.of_nat (length a))) with false; trivial.
    symmetry. apply andb_false_iff. right. apply Z.ltb_ge. lia.
Qed.

Lemma length_update {A : Type} (a : list A) (n : nat) (v : A) :
  length (update a n v) = length a.
Proof.
  revert n. induction a as [|x a IH]; intros [|n]; simpl; trivial.
  f_equal. apply IH.
Qed.

Lemma nth_error_update_eq {A : Type} (a : list A) (n : nat) (v : A) :
  (n < length a)%nat -> nth_error (update a n v) n = Some v.
Proof.
  revert n. induction a as [|x a IH]; intros [|n] H; simpl in *;
    try lia; trivial.
  apply IH. lia.
Qed.

Lemma nth_error_update_neq {A : Type} (a : list A) (n i : nat) (v : A) :
  i <> n -> nth_error (update a n v) i = nth_error a i.
Proof.
  revert n i. induction a as [|x a IH]; intros [|n] [|i] H; simpl;
    trivial; try lia.
  apply IH. lia.
Qed.

Lemma Forall_update {A : Type} (P : A -> Prop) (a : list A) (n : nat)
  (v : A) : Forall P a -> P v -> Forall P (update a n v).
Proof.
  intros Ha Hv. revert n.
  induction Ha as [|x a Hx Ha IH]; intros [|n]; simpl; constructor; trivial.
Qed.

Lemma all_eq_nth {A : Type} (v x : A) (a : list A) (i : nat) :
  all_eq v a -> nth_error a i = Some x -> x = v.
Proof.
  intros H Hi. apply nth_error_In in Hi.
  unfold all_eq in H. rewrite Forall_forall in H. apply H. exact Hi.
Qed.

Lemma nth_error_nth_default {A : Type} (a : list A) (i : nat) (x d : A) :
  nth_error a i = Some x -> nth i a d = x.
Proof.
  revert i. induction a as [|y a IH]; intros [|i] H; simpl in *;
    try discriminate.
  - congruence.
  - apply IH. exact H.
Qed.

End ArrayFacts.

(** ** Central moments of higher order *)

Module CentralMoments.

Import ArrayFacts.

Import Np NpFacts F64Facts.

#[local] Arguments F64.mul : simpl never.
#[local] Arguments F64.div : simpl never.
#[local] Arguments F64.add : simpl never.
#[local] Arguments F64.pow_int : simpl never.

Lemma nth_error_column (m : matrix) (j l : nat) (col row : list float64) :
  column m j = Ok col -> nth_error (rows m) l = Some row ->
  nth_error col l = Some (nth j row NaN).
Proof.
  unfold column. destruct (Nat.ltb j (ncols m)); [|discriminate].
  intros H Hrow. injection H as <-.
  rewrite nth_error_map, Hrow. reflexivity.
Qed.

Lemma raw_row_nan (p j : nat) (row : list float64) :
  (j < p)%nat -> nth j (raw_row p row 0) NaN = NaN.
Proof.
  intros _. unfold raw_row. simpl.
  revert j. induction p as [|p IH]; intros [|j]; simpl; trivial.
Qed.

Lemma raw_row_fin (p j : nat) (row : list float64) (m : Z) (s : R) :
  m <> 0 -> (j < p)%nat -> nth_error row j = Some (Fin s) ->
  nth j (raw_row p row m) NaN = Fin (s / IZR m).
Proof.
  intros Hm Hj Hs. unfold raw_row.
  destruct (Z.eqb_spec m 0) as [|_]; [contradiction|].
  revert row j Hj Hs. induction p as [|p IH]; intros [|x row] [|j] Hj Hs;
    cbn [repeat map2 nth nth_error] in *; try discriminate; try lia.
  - injection Hs as ->. unfold of_Z.
    rewrite MomentFacts.mul_inv_is_div by (apply MomentFacts.IZR_neq_0; exact Hm).
    apply div_fin. apply MomentFacts.IZR_neq_0. exact Hm.
  - apply IH; [lia | exact Hs].
Qed.

(** The central moment of order 2, level by level. *)
Lemma central_moment_2_spec (psums : matrix) (M : list Z) :
  length M = nrows psums -> (2 <= ncols psums)%nat ->
  exists val,
    compute_central_moment psums M 2 = Ok val
    /\ length val = length M
    /\ forall l m row,
         nth_error M l = Some m -> nth_error (rows psums) l = Some row ->
         (m = 0 -> nth_error val l = Some NaN)
         /\ (forall s1 s2,
               m <> 0 -> nth_error row 0 = Some (Fin s1) ->
               nth_error row 1 = Some (Fin s2) ->
               nth_error val l
               = Some (Fin (s2 / IZR m - (s1 / IZR m) ^ 2))).
Proof.
  intros Hlen Hcols.
  destruct (MomentFacts.compute_raw_moments_rows psums M Hlen)
    as (rows' & Hraw & Hl & Hr).
  set (raw := Matrix (ncols psums) rows') in *.
  assert (Hc0 : column raw 0 = Ok (map (fun r => nth 0 r NaN) rows')).
  { unfold column. simpl.
    replace (Nat.ltb 0 (ncols psums)) with true
      by (symmetry; apply Nat.ltb_lt; lia).
    reflexivity. }
  assert (Hc1 : column raw 1 = Ok (map (fun r => nth 1 r NaN) rows')).
  { unfold column. simpl.
    replace (Nat.ltb 1 (ncols psums)) with true
      by (symmetry; apply Nat.ltb_lt; lia).
    reflexivity. }
  unfold compute_central_moment. rewrite Hraw. cbn [bind Z.eqb].
  rewrite Hc0. cbn [bind].
  change (factorial 2) with (Ok (A := Z) 2). cbn [bind].
  change (Z.to_nat 2) with 2%nat. cbn [seq central_moment_loop].
  unfold central_moment_step.
  change (factorial (Z.of_nat 1)) with (Ok (A := Z) 1).
  change (factorial (Z.of_nat 2)) with (Ok (A := Z) 2).
  change (factorial (2 - Z.of_nat 1)) with (Ok (A := Z) 1).
  change (factorial (2 - Z.of_nat 2)) with (Ok (A := Z) 1).
  cbn [bind Nat.sub]. rewrite Hc0, Hc1. cbn [bind].
  eexists. split; [reflexivity|]. split.
  { rewrite !length_map2_min, !length_map. lia. }
  intros l m row Hm Hrow.
  pose proof (Hr l m row Hm Hrow) as Hrl.
  set (r := raw_row (ncols psums) row m) in *.
  assert (H0 : nth_error (map (fun r => nth 0 r NaN) rows') l
               = Some (nth 0 r NaN)).
  { rewrite nth_error_map, Hrl. reflexivity. }
  assert (H1 : nth_error (map (fun r => nth 1 r NaN) rows') l
               = Some (nth 1 r NaN)).
  { rewrite nth_error_map, Hrl. reflexivity. }
  assert (Hv0 : nth_error
                  (map (fun x => (pow_int x 2 * of_Z ((-1) ^ 2))%f64)
                     (map (fun r => nth 0 r NaN) rows')) l
                = Some (pow_int (nth 0 r NaN) 2 * of_Z ((-1) ^ 2))%f64).
  { rewrite nth_error_map, H0. reflexivity. }
  rewrite (nth_error_map2 add _ _ _
             (nth_error_map2 add _ _ _ Hv0
                (nth_error_map2 _ _ _ _ H0 H0))
             (nth_error_map2 _ _ _ _ H1 H0)).
  split.
  - intros ->. unfold r. rewrite raw_row_nan by lia. reflexivity.
  - intros s1 s2 Hne Hs1 Hs2. unfold r.
    rewrite (raw_row_fin row Hne (j := 0%nat) (s := s1)) by (trivial; lia).
    rewrite (raw_row_fin row Hne (j := 1%nat) (s := s2)) by (trivial; lia).
    change (2 - Z.of_nat 1) with 1. change (2 - Z.of_nat 2) with 0.
    change (1 * 1) with 1. change (2 * 1) with 2.
    unfold of_Z. rewrite !div_fin by (simpl; lra).
    unfold pow_int, pow_nat, mul, add, one. simpl.
    change (Z.pow_pos (-1) 2) with 1. change (Z.pow_pos (-1) 1) with (-1).
    do 2 f_equal. field. apply MomentFacts.IZR_neq_0. exact Hne.
Qed.

(** X1. The central moment of order 2 is the variance: at a level with
    [m] samples and the finite power sums [s1] and [s2] it is
    [s2 / m - (s1 / m)^2], and it is NaN at a level without samples. *)
Theorem central_moment_2_is_variance (psums : matrix) (M : list Z) :
  length M = nrows psums -> (2 <= ncols psums)%nat ->
  exists val,
    compute_central_moment psums M 2 = Ok val
    /\ length val = length M
    /\ forall l m row,
         nth_error M l = Some m -> nth_error (rows psums) l = Some row ->
         (m = 0 -> nth_error val l = Some NaN)
         /\ (forall s1 s2,
               m <> 0 -> nth_error row 0 = Some (Fin s1) ->
               nth_error row 1 = Some (Fin s2) ->
               nth_error val l
               = Some (Fin (s2 / IZR m - (s1 / IZR m) ^ 2))).
Proof. apply central_moment_2_spec. Qed.

Lemma factorial_ok (n : Z) :
  0 <= n -> factorial n = Ok (Z.of_nat (fact (Z.to_nat n))).
Proof.
  intros H. unfold factorial. destruct (Z.ltb_spec n 0); [lia|reflexivity].
Qed.

(** The loop of [compute_central_moment] stops with [IndexError] at the
    first [k] that has no column. *)
Lemma central_moment_loop_raises (raw : matrix) (raw0 : list float64)
  (n nfact : Z) (k : nat) (ks2 ks1 : list nat) (val : list float64) :
  Forall (fun k' => (1 <= k' <= ncols raw)%nat /\ Z.of_nat k' <= n) ks1 ->
  (ncols raw < k)%nat -> Z.of_nat k <= n ->
  central_moment_loop raw raw0 n nfact val (ks1 ++ k :: ks2)
  = Raise IndexError.
Proof.
  intros Hks Hk Hn. revert val.
  induction Hks as [|k' ks1 [Hk1 Hk2] _ IH]; intros val.
  - cbn [app central_moment_loop]. unfold central_moment_step.
    rewrite !factorial_ok by lia. cbn [bind]. unfold column.
    replace (Nat.ltb (k - 1) (ncols raw)) with false
      by (symmetry; apply Nat.ltb_ge; lia).
    reflexivity.
  - cbn [app central_moment_loop]. unfold central_moment_step at 1.
    rewrite !factorial_ok by lia. cbn [bind]. unfold column at 1.
    replace (Nat.ltb (k' - 1) (ncols raw)) with true
      by (symmetry; apply Nat.ltb_lt; lia).
    cbn [bind]. apply IH.
Qed.

(** X2. The orders that [compute_central_moment] cannot serve: an order
    above the number of tracked power sums raises [IndexError], a negative
    order raises [ValueError], and the order 0 gives 1 at every level, the
    levels without samples included. *)
Theorem central_moment_order_edges (psums : matrix) (M : list Z)
  (moment : Z) :
  length M = nrows psums ->
  (Z.of_nat (ncols psums) < moment ->
   compute_central_moment psums M moment = Raise IndexError)
  /\ (moment < 0 -> (0 < ncols psums)%nat ->
      compute_central_moment psums M moment = Raise ValueError)
  /\ ((0 < ncols psums)%nat ->
      compute_central_moment psums M 0 = Ok (repeat one (length M))).
Proof.
  intros Hlen.
  destruct (MomentFacts.compute_raw_moments_rows psums M Hlen)
    as (rows' & Hraw & Hl & Hr).
  set (raw := Matrix (ncols psums) rows') in *.
  assert (Hc0 : (0 < ncols psums)%nat ->
                column raw 0 = Ok (map (fun r => nth 0 r NaN) rows')).
  { intros H. unfold column. simpl.
    replace (Nat.ltb 0 (ncols psums)) with true
      by (symmetry; apply Nat.ltb_lt; lia).
    reflexivity. }
  split; [|split].
  - intros Hm. unfold compute_central_moment. rewrite Hraw. cbn [bind].
    destruct (Nat.eq_dec (ncols psums) 0) as [H0|H0].
    + assert (E : column raw 0 = Raise IndexError).
      { unfold column. simpl. rewrite H0. reflexivity. }
      rewrite E. destruct (moment =? 1); reflexivity.
    + destruct (Z.eqb_spec moment 1) as [|_]; [lia|].
      rewrite Hc0 by lia. cbn [bind].
      rewrite factorial_ok by lia. cbn [bind].
      replace (Z.to_nat moment)
        with (ncols psums + S (Z.to_nat moment - S (ncols psums)))%nat
        by lia.
      rewrite seq_app. cbn [seq].
      apply central_moment_loop_raises.
      * apply Forall_forall. intros k' Hin. apply in_seq in Hin.
        simpl. lia.
      * simpl. lia.
      * lia.
  - intros Hm Hc. unfold compute_central_moment. rewrite Hraw. cbn [bind].
    destruct (Z.eqb_spec moment 1) as [|_]; [lia|].
    rewrite Hc0 by exact Hc. cbn [bind]. unfold factorial.
    destruct (Z.ltb_spec moment 0); [reflexivity|lia].
  - intros Hc. unfold compute_central_moment. rewrite Hraw.
    cbn [bind Z.eqb]. rewrite Hc0 by exact Hc. cbn [bind].
    change (factorial 0) with (Ok (A := Z) 1).
    cbn [bind Z.to_nat seq central_moment_loop]. f_equal.
    rewrite <- Hl. clear. induction rows' as [|r rows' IH]; simpl; trivial.
    f_equal; [|exact IH].
    unfold pow_int, mul, one, of_Z. simpl. f_equal. lra.
Qed.

End CentralMoments.

(** ** Adding samples to an iteration *)

Module SampleFacts.

Import Np NpFacts ArrayFacts.

Lemma setrow_nat (m : matrix) (l : nat) (old v : list float64) :
  nth_error (rows m) l = Some old -> length v = ncols m ->
  ItrOps.setrow m (Z.of_nat l) v
  = Ok (Matrix (ncols m) (update (rows m) l v)).
Proof.
  intros Hold Hv. unfold ItrOps.setrow.
  rewrite (getitem_nat _ _ Hold). cbn [bind].
  rewrite Hv, Nat.eqb_refl. cbn [bind].
  rewrite setitem_nat; [reflexivity|].
  apply nth_error_Some. congruence.
Qed.

Lemma addrow_nat (m : matrix) (l : nat) (old v : list float64) :
  nth_error (rows m) l = Some old -> length v = length old ->
  ItrOps.addrow m (Z.of_nat l) v
  = Ok (Matrix (ncols m) (update (rows m) l (map2 add old v))).
Proof.
  intros Hold Hv. unfold ItrOps.addrow.
  rewrite (getitem_nat _ _ Hold). cbn [bind].
  rewrite Hv, Nat.eqb_refl. cbn [bind].
  rewrite setitem_nat; [reflexivity|].
  apply nth_error_Some. congruence.
Qed.

Lemma table_rows_length (n p : nat) (t : option matrix) :
  table_fits n p t -> length (table_rows n p t) = n.
Proof.
  intros H. destruct t as [m|]; simpl.
  - destruct (H m eq_refl) as (Hn & _). exact Hn.
  - apply repeat_length.
Qed.

Lemma table_rows_wf (n p : nat) (t : option matrix) :
  table_fits n p t ->
  Forall (fun r => length r = p) (table_rows n p t).
Proof.
  intros H. destruct t as [m|]; simpl.
  - destruct (H m eq_refl) as (_ & Hp & Hwf). unfold wf_matrix in Hwf.
    rewrite Hp in Hwf. exact Hwf.
  - apply Forall_forall. intros r Hr. apply repeat_spec in Hr. subst r.
    apply repeat_length.
Qed.

Lemma table_fits_update (n p : nat) (rs : list (list float64)) (l : nat)
  (v : list float64) :
  length rs = n -> Forall (fun r => length r = p) rs -> length v = p ->
  table_fits n p (Some (Matrix p (update rs l v))).
Proof.
  intros Hn Hwf Hv m Hm. injection Hm as <-.
  unfold nrows, wf_matrix. simpl. rewrite length_update.
  split; [exact Hn|]. split; [reflexivity|].
  apply Forall_update; trivial.
Qed.

(** [addSamples] on a state that keeps the data contract. *)
Lemma addSamples_spec (self : MIMCItrData) (l : nat) (m Mn : Z)
  (pd pf : list float64) (tTn tWn : float64) :
  sums_contract self ->
  nth_error (M self) l = Some m ->
  length pd = length pf -> Z.of_nat (length pf) = moments self ->
  let n := _lvls_count self in
  let p := length pd in
  let old_d := table_rows n p (psums_delta self) in
  let old_f := table_rows n p (psums_fine self) in
  exists self' td tf,
    ItrOps.addSamples self (Z.of_nat l) Mn pd pf tTn tWn = Ok self'
    /\ sums_contract self' /\ same_settings self self'
    /\ M self' = update (M self) l (m + Mn)
    /\ tT self'
       = update (tT self) l
           (if m =? 0 then tTn else (nth l (tT self) NaN + tTn)%f64)
    /\ tW self'
       = update (tW self) l
           (if m =? 0 then tWn else (nth l (tW self) NaN + tWn)%f64)
    /\ psums_delta self' = Some td
    /\ rows td
       = update old_d l
           (if m =? 0 then pd else map2 add (nth l old_d []) pd)
    /\ psums_fine self' = Some tf
    /\ rows tf
       = update old_f l
           (if m =? 0 then pf else map2 add (nth l old_f []) pf).
Proof.
  intros (Hper & Hfd & Hff & Halloc) Hm Hlen Hmom n p old_d old_f.
  pose proof Hper as (HM & HtT & HtW & Hw & Ha & HV & Hpd & Hpf).
  assert (Hl : (l < n)%nat).
  { unfold n. rewrite <- HM. apply nth_error_Some. congruence. }
  assert (Hp : Z.to_nat (moments self) = p).
  { unfold p. rewrite <- Hmom, Nat2Z.id. symmetry. exact Hlen. }
  rewrite Hp in Hfd, Hff.
  assert (Hnd : length old_d = n) by (apply table_rows_length; exact Hfd).
  assert (Hnf : length old_f = n) by (apply table_rows_length; exact Hff).
  assert (Hwd : Forall (fun r => length r = p) old_d)
    by (apply table_rows_wf; exact Hfd).
  assert (Hwf : Forall (fun r => length r = p) old_f)
    by (apply table_rows_wf; exact Hff).
  destruct (nth_error old_d l) as [rd|] eqn:Erd.
  2:{ apply nth_error_None in Erd. lia. }
  destruct (nth_error old_f l) as [rf|] eqn:Erf.
  2:{ apply nth_error_None in Erf. lia. }
  assert (Hrd : length rd = p).
  { rewrite Forall_forall in Hwd. apply Hwd.
    apply nth_error_In with (n := l). exact Erd. }
  assert (Hrf : length rf = p).
  { rewrite Forall_forall in Hwf. apply Hwf.
    apply nth_error_In with (n := l). exact Erf. }
  destruct (nth_error (tT self) l) as [t|] eqn:Et.
  2:{ apply nth_error_None in Et. lia. }
  destruct (nth_error (tW self) l) as [w|] eqn:Ew.
  2:{ apply nth_error_None in Ew. lia. }
  unfold ItrOps.addSamples.
  rewrite Hlen, Nat.eqb_refl, Hmom, Z.eqb_refl. cbn [andb assert bind].
  rewrite (getitem_nat _ _ Hm). cbn [bind].
  rewrite !setitem_nat by lia.
  destruct (Z.eqb_spec m 0) as [->|Hne].
  - (* a level without samples *)
    set (pd0 := match psums_delta self with
                | Some t0 => t0
                | None => zeros (Itr.lvls_count self) (length pf)
                end).
    set (pf0 := match psums_fine self with
                | Some t0 => t0
                | None => zeros (Itr.lvls_count self) (length pf)
                end).
    assert (Ed : rows pd0 = old_d /\ ncols pd0 = p).
    { unfold pd0, old_d, table_rows. destruct (psums_delta self) as [t0|].
      - split; [reflexivity|]. apply (Hfd t0 eq_refl).
      - unfold zeros, p. simpl. rewrite Hlen. split; reflexivity. }
    assert (Ef : rows pf0 = old_f /\ ncols pf0 = p).
    { unfold pf0, old_f, table_rows. destruct (psums_fine self) as [t0|].
      - split; [reflexivity|]. apply (Hff t0 eq_refl).
      - unfold zeros, p. simpl. rewrite Hlen. split; reflexivity. }
    destruct Ed as [Ed1 Ed2]. destruct Ef as [Ef1 Ef2].
    rewrite (@setrow_nat pd0 l rd pd) by (rewrite ?Ed1, ?Ed2; trivial).
    cbn [bind].
    rewrite (@setrow_nat pf0 l rf pf)
      by (rewrite ?Ef1, ?Ef2; trivial; unfold p; lia).
    cbn [bind]. rewrite Ed1, Ed2, Ef1, Ef2.
    eexists. eexists. eexists. split; [reflexivity|].
    split; [|split; [|repeat split]].
    + unfold sums_contract, per_level, rows_are. cbn.
      rewrite !length_update. rewrite Hp.
      split.
      { repeat (split; [assumption|]).
        split; intros m0 Hm0; injection Hm0 as <-; unfold nrows; simpl;
          rewrite length_update; assumption. }
      split; [apply table_fits_update; trivial|].
      split; [apply table_fits_update; trivial; unfold p; lia|].
      intros [H|H]; discriminate.
    + unfold same_settings. cbn. repeat split.
  - (* a level with samples *)
    destruct (psums_delta self) as [t0|] eqn:Epd.
    2:{ exfalso. apply Hne.
        apply (@all_eq_nth _ 0 m (M self) l); trivial.
        apply Halloc. left. reflexivity. }
    destruct (psums_fine self) as [t1|] eqn:Epf.
    2:{ exfalso. apply Hne.
        apply (@all_eq_nth _ 0 m (M self) l); trivial.
        apply Halloc. right. reflexivity. }
    cbn [ItrOps.subscriptable bind]. simpl in old_d, old_f.
    rewrite (@addrow_nat t0 l rd pd)
      by (try exact Erd; unfold p in *; lia).
    cbn [bind].
    rewrite (@addrow_nat t1 l rf pf)
      by (try exact Erf; unfold p in *; lia).
    cbn [bind].
    rewrite (getitem_nat _ _ Et). cbn [bind].
    rewrite setitem_nat by lia. cbn [bind].
    rewrite (getitem_nat _ _ Ew). cbn [bind].
    rewrite setitem_nat by lia. cbn [bind].
    destruct (Hfd t0 eq_refl) as (_ & Hc0 & _).
    destruct (Hff t1 eq_refl) as (_ & Hc1 & _).
    rewrite Hc0, Hc1.
    rewrite (nth_error_nth_default _ _ NaN Et).
    rewrite (nth_error_nth_default _ _ NaN Ew).
    rewrite (nth_error_nth_default _ _ [] Erd).
    rewrite (nth_error_nth_default _ _ [] Erf).
    eexists. eexists. eexists. split; [reflexivity|].
    split; [|split; [|repeat split]].
    + unfold sums_contract, per_level, rows_are. cbn.
      rewrite !length_update. rewrite Hp.
      split.
      { repeat (split; [assumption|]).
        split; intros m0 Hm0; injection Hm0 as <-; unfold nrows; simpl;
          rewrite length_update; assumption. }
      split.
      { apply table_fits_update; trivial.
        rewrite length_map2_min. lia. }
      split.
      { apply table_fits_update; trivial.
        rewrite length_map2_min. unfold p in *. lia. }
      intros [H|H]; discriminate.
    + unfold same_settings. cbn. repeat split.
Qed.

(** X3. On a state that keeps the data contract, [addSamples] at a level
    returns a state that keeps it: the sample count of the level grows by
    [M]; a level that had no samples takes the given sums, time and work
    (the tables are allocated when they were not), a level that had samples
    adds them to its own; the other levels and the settings are as they
    were. *)
Theorem addSamples_adds (self : MIMCItrData) (l : nat) (m Mn : Z)
  (pd pf : list float64) (tTn tWn : float64) :
  sums_contract self ->
  nth_error (M self) l = Some m ->
  length pd = length pf -> Z.of_nat (length pf) = moments self ->
  let n := _lvls_count self in
  let p := length pd in
  let old_d := table_rows n p (psums_delta self) in
  let old_f := table_rows n p (psums_fine self) in
  exists self' td tf,
    ItrOps.addSamples self (Z.of_nat l) Mn pd pf tTn tWn = Ok self'
    /\ sums_contract self' /\ same_settings self self'
    /\ M self' = update (M self) l (m + Mn)
    /\ tT self'
       = update (tT self) l
           (if m =? 0 then tTn else (nth l (tT self) NaN + tTn)%f64)
    /\ tW self'
       = update (tW self) l
           (if m =? 0 then tWn else (nth l (tW self) NaN + tWn)%f64)
    /\ psums_delta self' = Some td
    /\ rows td
       = update old_d l
           (if m =? 0 then pd else map2 add (nth l old_d []) pd)
    /\ psums_fine self' = Some tf
    /\ rows tf
       = update old_f l
           (if m =? 0 then pf else map2 add (nth l old_f []) pf).
Proof. apply addSamples_spec. Qed.

(** X4. What [addSamples] refuses: sums whose shapes differ or do not
    match the number of moments fail the assertion; with good shapes, a
    level index outside the array is an [IndexError], and adding to a level
    that has samples while the table of sums is not allocated is a
    [TypeError]. *)
Theorem addSamples_refuses (self : MIMCItrData) (i Mn : Z)
  (pd pf : list float64) (tTn tWn : float64) :
  (length pd <> length pf \/ Z.of_nat (length pf) <> moments self ->
   ItrOps.addSamples self i Mn pd pf tTn tWn = Raise AssertionError)
  /\ (length pd = length pf -> Z.of_nat (length pf) = moments self ->
      i < - Z.of_nat (length (M self)) \/ Z.of_nat (length (M self)) <= i ->
      ItrOps.addSamples self i Mn pd pf tTn tWn = Raise IndexError)
  /\ (length pd = length pf -> Z.of_nat (length pf) = moments self ->
      forall m, getitem (M self) i = Ok m -> m <> 0 ->
      psums_delta self = None ->
      ItrOps.addSamples self i Mn pd pf tTn tWn = Raise TypeError).
Proof.
  unfold ItrOps.addSamples. split; [|split].
  - intros [H|H].
    + replace (Nat.eqb (length pd) (length pf)) with false
        by (symmetry; apply Nat.eqb_neq; exact H).
      reflexivity.
    + replace (Z.of_nat (length pf) =? moments self) with false
        by (symmetry; apply Z.eqb_neq; exact H).
      rewrite andb_false_r. reflexivity.
  - intros H1 H2 Hi. rewrite H1, Nat.eqb_refl, H2, Z.eqb_refl.
    cbn [andb assert bind]. rewrite getitem_out by exact Hi. reflexivity.
  - intros H1 H2 m Hm Hne Hnone. rewrite H1, Nat.eqb_refl, H2, Z.eqb_refl.
    cbn [andb assert bind]. rewrite Hm. cbn [bind].
    destruct (Z.eqb_spec m 0) as [|_]; [contradiction|].
    rewrite Hnone. reflexivity.
Qed.

Lemma map_const_repeat {A B : Type} (v : B) (a : list A) :
  map (fun _ => v) a = repeat v (length a).
Proof. induction a; simpl; f_equal; trivial. Qed.

Lemma all_eq_repeat {A : Type} (v : A) (n : nat) : all_eq v (repeat v n).
Proof.
  apply Forall_forall. intros x Hx. apply repeat_spec in Hx. exact Hx.
Qed.

Lemma itr_one_level_contract : sums_contract itr_one_level.
Proof.
  unfold sums_contract, per_level, rows_are, table_fits. simpl.
  split.
  { repeat (split; [reflexivity|]).
    split; intros m Hm; injection Hm as <-; reflexivity. }
  split; [|split].
  - intros m Hm. injection Hm as <-. repeat split. repeat constructor.
  - intros m Hm. injection Hm as <-. repeat split. repeat constructor.
  - intros [H|H]; discriminate.
Qed.

(** X5. [zero_samples(ind)] for a level [ind] of a state that keeps the
    data contract zeroes the count, the time, the work and the sums of that
    level and of no other, and keeps the contract; a position at or above
    the number of levels is an [IndexError]. *)
Theorem zero_samples_one_level (self : MIMCItrData) (l : nat) :
  sums_contract self ->
  ((l < _lvls_count self)%nat ->
   exists self',
     Itr.zero_samples self (Some (Z.of_nat l)) = Ok self'
     /\ sums_contract self' /\ same_settings self self'
     /\ M self' = update (M self) l 0
     /\ tT self' = update (tT self) l zero
     /\ tW self' = update (tW self) l zero
     /\ option_map rows (psums_delta self')
        = option_map (fun t => update (rows t) l (repeat zero (ncols t)))
            (psums_delta self)
     /\ option_map rows (psums_fine self')
        = option_map (fun t => update (rows t) l (repeat zero (ncols t)))
            (psums_fine self))
  /\ ((_lvls_count self <= l)%nat ->
      Itr.zero_samples self (Some (Z.of_nat l)) = Raise IndexError).
Proof.
  intros (Hper & Hfd & Hff & Halloc).
  pose proof Hper as (HM & HtT & HtW & Hw & Ha & HV & Hpd & Hpf).
  split.
  - intros Hl. unfold Itr.zero_samples.
    rewrite !setitem_nat by lia. cbn [bind].
    assert (Ht : forall t, table_fits (_lvls_count self)
                             (Z.to_nat (moments self)) t ->
              exists t',
                match t with
                | Some m =>
                    r <- setitem (rows m) (Z.of_nat l)
                           (repeat zero (ncols m)) ;;
                    Ok (Some (Matrix (ncols m) r))
                | None => Ok None
                end = Ok t'
                /\ table_fits (_lvls_count self)
                     (Z.to_nat (moments self)) t'
                /\ (t' = None <-> t = None)
                /\ option_map rows t'
                   = option_map
                       (fun t => update (rows t) l (repeat zero (ncols t)))
                       t).
    { intros [m|] Hfit.
      - destruct (Hfit m eq_refl) as (Hn & Hc & Hwfm).
        unfold nrows in Hn. rewrite setitem_nat by lia. cbn [bind].
        eexists. split; [reflexivity|]. split; [|split].
        + rewrite Hc. apply table_fits_update; trivial.
          * unfold wf_matrix in Hwfm. rewrite Hc in Hwfm. exact Hwfm.
          * apply repeat_length.
        + split; discriminate.
        + reflexivity.
      - exists None. split; [reflexivity|]. split; [exact Hfit|].
        split; [split; trivial | reflexivity]. }
    destruct (Ht _ Hfd) as (td & Etd & Hfd' & Hnd & Hrd).
    destruct (Ht _ Hff) as (tf & Etf & Hff' & Hnf & Hrf).
    rewrite Etd. cbn [bind]. rewrite Etf. cbn [bind].
    eexists. split; [reflexivity|]. cbn.
    split; [|split; [|repeat split; trivial]].
    + unfold sums_contract, per_level, rows_are. cbn.
      rewrite !length_update.
      split.
      { repeat (split; [assumption|]).
        split; intros m0 Hm0; [apply (Hfd' m0 Hm0) | apply (Hff' m0 Hm0)]. }
      split; [exact Hfd'|]. split; [exact Hff'|].
      intros H. apply Forall_update; [|reflexivity].
      apply Halloc. destruct H as [H|H]; [left; apply Hnd | right; apply Hnf];
        exact H.
    + unfold same_settings. cbn. repeat split.
  - intros Hl. unfold Itr.zero_samples. unfold setitem at 1.
    destruct (Z.ltb_spec (Z.of_nat l) 0); [lia|].
    replace ((0 <=? Z.of_nat l) && (Z.of_nat l <? Z.of_nat (length (M self))))
      with false; [reflexivity|].
    symmetry. apply andb_false_iff. right. apply Z.ltb_ge. lia.
Qed.

(** X6. A level restarts after [zero_samples()]: on a state that keeps the
    data contract, [zero_samples()] and then [addSamples] at a level leave
    exactly the given count, sums, time and work at that level, whatever it
    held before, and zeros at the other levels. *)
Theorem addSamples_after_zero_samples (self : MIMCItrData) (l : nat)
  (Mn : Z) (pd pf : list float64) (tTn tWn : float64) :
  sums_contract self -> (l < _lvls_count self)%nat ->
  length pd = length pf -> Z.of_nat (length pf) = moments self ->
  let n := _lvls_count self in
  exists z self' td tf,
    Itr.zero_samples self None = Ok z
    /\ ItrOps.addSamples z (Z.of_nat l) Mn pd pf tTn tWn = Ok self'
    /\ sums_contract self'
    /\ M self' = update (repeat 0 n) l Mn
    /\ tT self' = update (repeat zero n) l tTn
    /\ tW self' = update (repeat zero n) l tWn
    /\ psums_delta self' = Some td
    /\ rows td = update (repeat (repeat zero (length pd)) n) l pd
    /\ psums_fine self' = Some tf
    /\ rows tf = update (repeat (repeat zero (length pd)) n) l pf.
Proof.
  intros (Hper & Hfd & Hff & Halloc) Hl Hlen Hmom n.
  pose proof Hper as (HM & HtT & HtW & Hw & Ha & HV & Hpd & Hpf).
  assert (Hp : Z.to_nat (moments self) = length pd).
  { rewrite <- Hmom, Nat2Z.id. symmetry. exact Hlen. }
  eexists. cbn [Itr.zero_samples].
  set (z := {| moments := moments self; M := map (fun _ => 0) (M self) |}).
  assert (Hfz : forall t,
             table_fits n (Z.to_nat (moments self)) t ->
             table_fits n (Z.to_nat (moments self))
               (option_map zeros_like t)
             /\ table_rows n (length pd) (option_map zeros_like t)
                = repeat (repeat zero (length pd)) n).
  { intros [m|] Hfit; simpl.
    - destruct (Hfit m eq_refl) as (Hn & Hc & _). split.
      + intros m0 Hm0. injection Hm0 as <-.
        unfold zeros_like, zeros, nrows, wf_matrix. simpl.
        rewrite repeat_length. split; [exact Hn|]. split; [exact Hc|].
        apply Forall_forall. intros r Hr. apply repeat_spec in Hr.
        subst r. apply repeat_length.
      + rewrite Hn, Hc, Hp. reflexivity.
    - split; [exact Hfit | reflexivity]. }
  destruct (Hfz _ Hfd) as [Hfd' Hrd]. destruct (Hfz _ Hff) as [Hff' Hrf].
  assert (Hz : sums_contract z).
  { unfold sums_contract, per_level, rows_are. unfold z. cbn.
    rewrite !length_map.
    split.
    { repeat (split; [assumption|]).
      split; intros m0 Hm0; [apply (Hfd' m0 Hm0) | apply (Hff' m0 Hm0)]. }
    split; [exact Hfd'|]. split; [exact Hff'|].
    intros _. apply ItrFacts.all_eq_map_const. }
  assert (Hm : nth_error (M z) l = Some 0).
  { unfold z. cbn. rewrite nth_error_map.
    destruct (nth_error (M self) l) eqn:E; [reflexivity|].
    apply nth_error_None in E. lia. }
  destruct (@addSamples_spec z l 0 Mn pd pf tTn tWn Hz Hm Hlen Hmom)
    as (self' & td & tf & H1 & H2 & _ & H3 & H4 & H5 & H6 & H7 & H8 & H9).
  exists self', td, tf. split; [reflexivity|]. split; [exact H1|].
  split; [exact H2|].
  unfold z in H3, H4, H5, H7, H9. cbn in H3, H4, H5.
  cbn [psums_delta psums_fine _lvls_count Z.eqb] in H7, H9.
  rewrite map_const_repeat, HM in H3.
  rewrite map_const_repeat, HtT in H4.
  rewrite map_const_repeat, HtW in H5.
  unfold n in *. rewrite Hrd in H7. rewrite Hrf in H9.
  repeat split; assumption.
Qed.

End SampleFacts.

(** ** Average time and work of a sample *)

Module AverageFacts.

Import Np NpFacts ArrayFacts.

#[local] Arguments F64.div : simpl never.

Lemma place_per_sample (t : list float64) (M : list Z) :
  length t = length M ->
  let idx := map (fun m => negb (m =? 0)) M in
  place (map (fun _ => zero) M) idx
    (map2 (fun x m => (x / of_Z m)%f64) (compress idx t) (compress idx M))
  = per_sample t M.
Proof.
  revert t. induction M as [|m M IH]; intros [|x t] H; simpl in *;
    try discriminate; trivial.
  unfold per_sample. simpl. destruct (m =? 0); simpl; f_equal; apply IH; lia.
Qed.

Lemma average_ok (t : list float64) (M : list Z) :
  length t = length M ->
  let idx := map (fun m => negb (m =? 0)) M in
  (t_idx <- getmask t idx ;;
   M_idx <- getmask M idx ;;
   setmask (map (fun _ => zero) M) idx
     (map2 (fun x m => (x / of_Z m)%f64) t_idx M_idx))
  = Ok (per_sample t M).
Proof.
  intros H idx. unfold getmask.
  assert (Hidx : length idx = length M) by apply length_map.
  replace (Nat.eqb (length idx) (length t)) with true
    by (symmetry; apply Nat.eqb_eq; lia).
  replace (Nat.eqb (length idx) (length M)) with true
    by (symmetry; apply Nat.eqb_eq; lia).
  cbn [bind]. unfold setmask. rewrite length_map.
  replace (Nat.eqb (length idx) (length M)) with true
    by (symmetry; apply Nat.eqb_eq; lia).
  replace (Nat.eqb _ (count_true idx)) with true.
  2:{ symmetry. apply Nat.eqb_eq. rewrite length_map2.
      - apply MomentFacts.count_true_compress. lia.
      - apply length_compress. lia. }
  f_equal. apply place_per_sample. exact H.
Qed.

Lemma average_mismatch (t : list float64) (M : list Z) :
  length t <> length M ->
  let idx := map (fun m => negb (m =? 0)) M in
  (t_idx <- getmask t idx ;;
   M_idx <- getmask M idx ;;
   setmask (map (fun _ => zero) M) idx
     (map2 (fun x m => (x / of_Z m)%f64) t_idx M_idx))
  = Raise IndexError.
Proof.
  intros H idx. unfold getmask.
  assert (Hidx : length idx = length M) by apply length_map.
  replace (Nat.eqb (length idx) (length t)) with false
    by (symmetry; apply Nat.eqb_neq; lia).
  reflexivity.
Qed.

(** X7. [calcWl] and [calcTl] return, level by level, the work and the
    time of one sample: the total of the level divided by its sample count,
    and 0 (not NaN) at a level without samples.  Totals of another length
    than the counts are an [IndexError]. *)
Theorem calcWl_calcTl_per_sample (self : MIMCItrData) :
  (length (tW self) = length (M self) ->
   Itr.calcWl self = Ok (per_sample (tW self) (M self)))
  /\ (length (tT self) = length (M self) ->
      ItrOps.calcTl self = Ok (per_sample (tT self) (M self)))
  /\ (length (tW self) <> length (M self) ->
      Itr.calcWl self = Raise IndexError)
  /\ (length (tT self) <> length (M self) ->
      ItrOps.calcTl self = Raise IndexError).
Proof.
  unfold Itr.calcWl, ItrOps.calcTl.
  split; [|split; [|split]]; intros H.
  - apply average_ok. exact H.
  - apply average_ok. exact H.
  - apply average_mismatch. exact H.
  - apply average_mismatch. exact H.
Qed.

End AverageFacts.

(** ** The sample allocation: the minimum count and the array lengths *)

Module AllocGuarantee.

Import Np NpFacts F64Facts ArrayFacts.

#[local] Arguments F64.mul : simpl never.
#[local] Arguments F64.div : simpl never.
#[local] Arguments F64.sqrt : simpl never.
#[local] Arguments F64.maximum : simpl never.
#[local] Arguments F64.pow_int : simpl never.
#[local] Arguments F64.ceil : simpl never.
#[local] Arguments F64.astype_int : simpl never.

#[local] Open Scope R_scope.

Lemma length_theory_counts (c minM : float64) (active : list Z)
  (Vl Wl : list float64) :
  length Vl = length active -> length Wl = length active ->
  length (theory_counts c minM active Vl Wl) = length active.
Proof.
  revert Vl Wl.
  induction active as [|a active IH]; intros [|V Vl] [|W Wl] HV HW;
    simpl in *; try discriminate; trivial.
  f_equal. apply IH; lia.
Qed.

(** The array before the rounding, level by level. *)
Lemma putmask_theory_counts (c minM : float64) (active : list Z)
  (Vl Wl : list float64) :
  length Vl = length active -> length Wl = length active ->
  let M1 := map (fun x => maximum x minM)
              (map (fun x => (c * sqrt x)%f64) (map2 div Vl Wl)) in
  putmask (putmask M1 (map isnan M1) minM)
    (map negb (map (fun a => (0 <=? a)%Z) active)) zero
  = theory_counts c minM active Vl Wl.
Proof.
  revert Vl Wl.
  induction active as [|a active IH]; intros [|V Vl] [|W Wl] HV HW;
    simpl in *; try discriminate; trivial.
  f_equal; apply IH; lia.
Qed.

Lemma calcTheoryM_counts (TOL theta : float64) (Vl Wl : list float64)
  (active : list Z) (rnd : bool) (minM Ca : float64) :
  length Vl = length active -> length Wl = length active ->
  let act := map (fun a => (0 <=? a)%Z) active in
  let c := (pow_int (theta * TOL / Ca) (-2)
            * Np.sum (map sqrt (map2 mul (compress act Wl)
                                  (compress act Vl))))%f64 in
  let Mf := theory_counts c minM active Vl Wl in
  _calcTheoryM TOL theta Vl Wl active rnd minM Ca
  = Ok (if rnd then inl (map (fun x => astype_int (ceil x)) Mf)
        else inr Mf).
Proof.
  intros HV HW act c Mf. unfold _calcTheoryM. fold act.
  assert (Hact : length act = length active) by apply length_map.
  unfold getmask.
  replace (Nat.eqb (length act) (length Wl)) with true
    by (symmetry; apply Nat.eqb_eq; lia).
  replace (Nat.eqb (length act) (length Vl)) with true
    by (symmetry; apply Nat.eqb_eq; lia).
  cbn [bind]. unfold broadcast2.
  replace (Nat.eqb (length (compress act Wl)) (length (compress act Vl)))
    with true
    by (symmetry; apply Nat.eqb_eq; apply length_compress; lia).
  replace (Nat.eqb (length Vl) (length Wl)) with true
    by (symmetry; apply Nat.eqb_eq; lia).
  cbn [bind]. fold c.
  set (M1 := map (fun x => maximum x minM)
               (map (fun x => (c * sqrt x)%f64) (map2 div Vl Wl))).
  assert (HM1 : length M1 = length active).
  { unfold M1. rewrite !length_map, length_map2; lia. }
  unfold setmask_scalar.
  rewrite length_map, Nat.eqb_refl. cbn [bind].
  rewrite length_map, length_putmask.
  replace (Nat.eqb (length act) (length M1)) with true
    by (symmetry; apply Nat.eqb_eq; lia).
  cbn [bind]. unfold M1, act.
  rewrite putmask_theory_counts by assumption.
  destruct rnd; reflexivity.
Qed.

Lemma maximum_floor (a minM : float64) :
  let y := maximum a minM in
  let y' := if isnan y then minM else y in
  y' = minM \/ leb minM y' = true.
Proof.
  unfold maximum, leb.
  destruct a as [| | |x], minM as [| | |mm]; simpl; auto.
  destruct (Rcompare_spec x mm) as [H|H|H]; simpl;
    [left; reflexivity | left; reflexivity |].
  right. rewrite Rcompare_Lt by exact H. reflexivity.
Qed.

Lemma nth_error_theory_counts (c minM : float64) (active : list Z)
  (Vl Wl : list float64) (l : nat) (a : Z) (y : float64) :
  nth_error active l = Some a ->
  nth_error (theory_counts c minM active Vl Wl) l = Some y ->
  exists V W, y = theory_count c minM a V W.
Proof.
  revert Vl Wl l.
  induction active as [|a0 active IH]; intros [|V Vl] [|W Wl] [|l] Ha Hy;
    simpl in *; try discriminate.
  - injection Ha as ->. injection Hy as <-. eauto.
  - eapply IH; eassumption.
Qed.

(** X9. Without the rounding, no level with active flag [>= 0] gets less
    than the minimum: its count is [minM] itself or a value that [minM]
    does not exceed. *)
Theorem calcTheoryM_floor (TOL theta : float64) (Vl Wl : list float64)
  (active : list Z) (minM Ca : float64) :
  length Vl = length active -> length Wl = length active ->
  exists Mf,
    _calcTheoryM TOL theta Vl Wl active false minM Ca = Ok (inr Mf)
    /\ length Mf = length active
    /\ forall l a y,
         nth_error active l = Some a -> (0 <= a)%Z ->
         nth_error Mf l = Some y ->
         y = minM \/ leb minM y = true.
Proof.
  intros HV HW.
  rewrite (calcTheoryM_counts TOL theta Vl Wl active false minM Ca HV HW).
  cbv zeta. eexists. split; [reflexivity|]. split.
  { apply length_theory_counts; assumption. }
  intros l a y Ha Hpos Hy.
  destruct (nth_error_theory_counts _ _ _ _ _ _ Ha Hy) as (V & W & ->).
  unfold theory_count.
  replace (negb (0 <=? a)%Z) with false
    by (symmetry; apply negb_false_iff; apply Z.leb_le; exact Hpos).
  apply maximum_floor.
Qed.

(** X10. Arrays of different lengths: when the work or the variance array
    has another length than the active flags, [_calcTheoryM] raises
    [IndexError]. *)
Theorem calcTheoryM_length_mismatch (TOL theta : float64)
  (Vl Wl : list float64) (active : list Z) (rnd : bool)
  (minM Ca : float64) :
  length Wl <> length active \/ length Vl <> length active ->
  _calcTheoryM TOL theta Vl Wl active rnd minM Ca = Raise IndexError.
Proof.
  intros H. unfold _calcTheoryM, getmask. rewrite length_map.
  destruct (Nat.eqb_spec (length active) (length Wl)) as [EW|NW].
  - cbn [bind].
    destruct (Nat.eqb_spec (length active) (length Vl)) as [EV|NV].
    + exfalso. destruct H as [H|H]; apply H; congruence.
    + reflexivity.
  - reflexivity.
Qed.

End AllocGuarantee.

(** ** The differences of [expand_delta] telescope *)

Module Telescope.

Import Np NpFacts ArrayFacts.

#[local] Open Scope R_scope.

Lemma rsum_nil : rsum [] = 0.
Proof. reflexivity. Qed.

Lemma rsum_flat_map {A : Type} (g : A -> list R) (l : list A) :
  rsum (flat_map g l) = rsum (map (fun x => rsum (g x)) l).
Proof.
  induction l as [|x l IH]; cbn [flat_map map]; trivial.
  rewrite Ml2rFacts.rsum_app, Ml2rFacts.rsum_cons, IH. reflexivity.
Qed.

Lemma rsum_map_scale {A : Type} (c : R) (g : A -> R) (l : list A) :
  rsum (map (fun x => c * g x) l) = c * rsum (map g l).
Proof.
  induction l as [|x l IH]; cbn [map].
  - rewrite rsum_nil. ring.
  - rewrite !Ml2rFacts.rsum_cons, IH. ring.
Qed.

Lemma rsum_map_sub {A : Type} (g h : A -> R) (l : list A) :
  rsum (map (fun x => g x - h x) l) = rsum (map g l) - rsum (map h l).
Proof.
  induction l as [|x l IH]; cbn [map].
  - rewrite rsum_nil. ring.
  - rewrite !Ml2rFacts.rsum_cons, IH. ring.
Qed.

Lemma rsum_map_ext {A : Type} (g h : A -> R) (l : list A) :
  (forall x, In x l -> g x = h x) -> rsum (map g l) = rsum (map h l).
Proof.
  intros H. f_equal. apply map_ext_in. exact H.
Qed.

Lemma map2_map_map {A B C D : Type} (h : B -> C -> D) (f : A -> B)
  (g : A -> C) (l : list A) :
  map2 h (map f l) (map g l) = map (fun x => h (f x) (g x)) l.
Proof. induction l as [|x l IH]; simpl; f_equal; trivial. Qed.

(** The coefficient of a corner offset: 1 for an even number of steps
    back, -1 for an odd one. *)
Lemma mod_coefficient (s t : Z) :
  ((2 * s mod 2 - 1) * (2 * (t mod 2) - 1) = 1 - 2 * (t mod 2))%Z.
Proof.
  rewrite (Z.mul_comm 2 s), Z.mod_mul by lia. lia.
Qed.

Lemma coefficient_step (t : Z) :
  (1 - 2 * ((1 + t) mod 2) = - (1 - 2 * (t mod 2)))%Z.
Proof.
  assert (H : (0 <= t mod 2 < 2)%Z) by (apply Z.mod_pos_bound; lia).
  assert (H1 : (0 <= (1 + t) mod 2 < 2)%Z) by (apply Z.mod_pos_bound; lia).
  pose proof (Z.div_mod t 2 ltac:(lia)) as E.
  pose proof (Z.div_mod (1 + t) 2 ltac:(lia)) as E1.
  lia.
Qed.

Lemma delta_of_eq (f : list Z -> R) (lvl : list Z) :
  delta_of f lvl
  = rsum (map (fun e => IZR (1 - 2 * (sumZ e mod 2)) * f (map2 Z.sub lvl e))
            (product (map seed lvl))).
Proof.
  unfold delta_of, expand_delta. rewrite map2_map_map.
  f_equal. apply map_ext. intros e. rewrite mod_coefficient. reflexivity.
Qed.

(** The difference along the first dimension. *)
Lemma delta_of_cons (f : list Z -> R) (l : Z) (lvl : list Z) :
  delta_of f (l :: lvl)
  = if (l =? 0)%Z then delta_of (fun p => f (l :: p)) lvl
    else delta_of (fun p => f (l :: p)) lvl
         - delta_of (fun p => f ((l - 1)%Z :: p)) lvl.
Proof.
  rewrite !delta_of_eq. cbn [map product].
  change (seed l) with (if (l =? 0)%Z then [0%Z] else [0%Z; 1%Z]).
  destruct (Z.eqb_spec l 0) as [->|Hne]; cbn [flat_map].
  - rewrite app_nil_r, map_map. apply rsum_map_ext. intros e _.
    cbn [map2]. rewrite ExpandDelta.sumZ_cons.
    replace (0 - 0)%Z with 0%Z by lia. rewrite Z.add_0_l. reflexivity.
  - rewrite app_nil_r, map_app, Ml2rFacts.rsum_app, !map_map.
    unfold Rminus. f_equal.
    + apply rsum_map_ext. intros e _. cbn [map2].
      rewrite ExpandDelta.sumZ_cons, Z.add_0_l, Z.sub_0_r. reflexivity.
    + replace (- rsum (map (fun e => IZR (1 - 2 * (sumZ e mod 2))
                                      * f ((l - 1)%Z :: map2 Z.sub lvl e))
                         (product (map seed lvl))))
        with (-1 * rsum (map (fun e => IZR (1 - 2 * (sumZ e mod 2))
                                       * f ((l - 1)%Z :: map2 Z.sub lvl e))
                          (product (map seed lvl)))) by ring.
      rewrite <- rsum_map_scale. apply rsum_map_ext. intros e _.
      cbn [map2]. rewrite ExpandDelta.sumZ_cons, coefficient_step, opp_IZR.
      ring.
Qed.

(** The sum of the differences of a function of one index. *)
Lemma telescope_1 (g : Z -> R) (n : nat) :
  rsum (map (fun x => if (x =? 0)%Z then g x else g x - g (x - 1)%Z)
          (map Z.of_nat (seq 0 (S n))))
  = g (Z.of_nat n).
Proof.
  induction n as [|n IH].
  - cbn [seq map]. rewrite Ml2rFacts.rsum_cons, rsum_nil. simpl. ring.
  - rewrite seq_S, !map_app, Ml2rFacts.rsum_app, IH.
    cbn [map Nat.add]. rewrite Ml2rFacts.rsum_cons, rsum_nil.
    destruct (Z.eqb_spec (Z.of_nat (S n)) 0) as [H|_]; [lia|].
    replace (Z.of_nat (S n) - 1)%Z with (Z.of_nat n) by lia. ring.
Qed.

Lemma box_cons (L1 : Z) (L : list Z) :
  box (L1 :: L)
  = flat_map (fun x => map (cons x) (box L)) (arange (L1 + 1)).
Proof. reflexivity. Qed.

(** The telescoping sum, for every function of the level. *)
Lemma delta_sum (L : list Z) :
  Forall (fun l => (0 <= l)%Z) L ->
  forall f : list Z -> R, rsum (map (delta_of f) (box L)) = f L.
Proof.
  induction 1 as [|L1 L HL1 _ IH]; intros f.
  - unfold box. cbn [map product]. rewrite Ml2rFacts.rsum_cons, rsum_nil.
    rewrite delta_of_eq. cbn [map product map2].
    rewrite Ml2rFacts.rsum_cons, rsum_nil. unfold sumZ. simpl. ring.
  - rewrite box_cons, flat_map_concat_map, concat_map, map_map.
    rewrite <- flat_map_concat_map, rsum_flat_map.
    unfold arange. replace (Z.to_nat (L1 + 1)) with (S (Z.to_nat L1)) by lia.
    rewrite <- (Z2Nat.id L1) at 2 by exact HL1.
    rewrite <- (telescope_1 (fun x => f (x :: L)) (Z.to_nat L1)).
    apply rsum_map_ext. intros x _. rewrite map_map.
    rewrite (rsum_map_ext (fun l => delta_of f (x :: l))
               (fun l => if (x =? 0)%Z
                         then delta_of (fun p => f (x :: p)) l
                         else delta_of (fun p => f (x :: p)) l
                              - delta_of (fun p => f ((x - 1)%Z :: p)) l))
      by (intros l _; apply delta_of_cons).
    destruct (x =? 0)%Z.
    + apply IH.
    + rewrite rsum_map_sub, !IH. reflexivity.
Qed.

(** X11. The differences telescope: for a function [f] of the level, the
    signed combinations that [expand_delta] prescribes, added over all the
    levels [l] with [0 <= l <= L] in every dimension, give [f(L)]. *)
Theorem expand_delta_telescopes (f : list Z -> R) (L : list Z) :
  Forall (fun l => (0 <= l)%Z) L ->
  rsum (map (delta_of f) (box L)) = f L.
Proof. intros H. apply delta_sum. exact H. Qed.

(** X12. The coefficients of [expand_delta] add up to 1 for the level of
    zeros and to 0 for every other level: the difference of a constant
    vanishes above the base level. *)
Theorem expand_delta_coefficients_sum (lvl : list Z) :
  sumZ (fst (expand_delta lvl))
  = if forallb (fun l => (l =? 0)%Z) lvl then 1%Z else 0%Z.
Proof.
  apply eq_IZR.
  assert (E : IZR (sumZ (fst (expand_delta lvl)))
              = delta_of (fun _ => 1) lvl).
  { rewrite delta_of_eq. unfold expand_delta. cbn [fst].
    generalize (product (map seed lvl)). intros P.
    induction P as [|e P IHP]; cbn [map].
    - reflexivity.
    - rewrite ExpandDelta.sumZ_cons, plus_IZR, Ml2rFacts.rsum_cons, IHP.
      rewrite mod_coefficient. ring. }
  rewrite E. clear E.
  induction lvl as [|l lvl IH].
  - rewrite delta_of_eq. cbn [map product forallb].
    rewrite Ml2rFacts.rsum_cons, rsum_nil. unfold sumZ. simpl. ring.
  - rewrite delta_of_cons. cbn [forallb].
    destruct (l =? 0)%Z; cbn [andb].
    + exact IH.
    + rewrite IH. ring.
Qed.

End Telescope.

(** ** New iterations and copies *)

Module FreshFacts.

Import Np NpFacts ArrayFacts.

Lemma setslice_all {A : Type} (a : list A) (v : A) :
  setslice a 0 (length a) v = repeat v (length a).
Proof.
  induction a as [|x a IH]; simpl; trivial. f_equal. exact IH.
Qed.

Lemma resize_nil {A : Type} (z : A) (n : nat) : resize z [] n = repeat z n.
Proof.
  unfold resize. rewrite firstn_nil. simpl. rewrite Nat.sub_0_r.
  reflexivity.
Qed.

Lemma fill_new {A : Type} (z v : A) (n : nat) :
  setslice (resize z [] n) 0 n v = repeat v n.
Proof.
  rewrite resize_nil.
  rewrite <- (repeat_length z n) at 2 3. apply setslice_all.
Qed.

(** X13. A new iteration over the levels [lvls] keeps the data contract:
    it counts [len(lvls)] levels, every level is active (flag 1) with
    weight 1 and without samples, time, work or variance estimate, no table
    of sums is allocated, and its total error estimate is +inf. *)
Theorem init_fresh (moments : Z) (lvls : option VarSizeList) :
  let ls := match lvls with Some l => l | None => [] end in
  let n := length ls in
  exists d,
    Itr.__init__ moments lvls = Ok d
    /\ sums_contract d
    /\ _lvls d = ls /\ _lvls_count d = n
    /\ M d = repeat 0 n /\ tT d = repeat zero n /\ tW d = repeat zero n
    /\ Vl_estimate d = repeat zero n
    /\ weights d = repeat one n /\ active_lvls d = repeat 1 n
    /\ psums_delta d = None /\ psums_fine d = None
    /\ Itr.total_error_est d = PInf.
Proof.
  intros ls n. unfold Itr.__init__, Itr._levels_added.
  cbn [_lvls _lvls_count Nat.leb assert bind]. fold ls.
  assert (Hn : length ls = n) by reflexivity.
  clearbody n. clearbody ls. rewrite !Hn.
  destruct (Nat.eqb_spec n 0) as [->|E].
  - eexists. split; [reflexivity|]. cbn.
    split; [|repeat split; trivial].
    unfold sums_contract, per_level, rows_are, table_fits. cbn.
    repeat split; try discriminate; try constructor;
      intros; discriminate.
  - eexists. split; [reflexivity|].
    unfold sums_contract, per_level, rows_are, table_fits,
      Itr.total_error_est.
    cbn [_lvls _lvls_count M tT tW Vl_estimate weights active_lvls
         psums_delta psums_fine bias stat_error option_map].
    rewrite !fill_new, !resize_nil, !repeat_length.
    split; [|repeat split; trivial].
    repeat split; try discriminate; try (intros; discriminate).
    intros _. apply SampleFacts.all_eq_repeat.
Qed.


End FreshFacts.

(** ** The bias bound by absolute values, the splitting parameter and the
    tolerance test *)

Module ToleranceFacts.

Import Np NpFacts F64Facts.

(** X15. [estimate_bias_abs_bnd] never returns a bias: every call raises,
    and on a run whose per-level expectations can be computed the error is
    the [TypeError] of [len(itr.lvls_count)]. *)
Theorem estimate_bias_abs_bnd_never_returns
  (is_boundary : VarSizeList -> list bool) (run : MIMCRun) :
  (exists e, estimate_bias_abs_bnd is_boundary run = Raise e)
  /\ (forall itr El,
        Run.last_itr run = Some itr ->
        Itr.calcEl itr 1 false true = Ok El ->
        estimate_bias_abs_bnd is_boundary run = Raise TypeError).
Proof.
  unfold estimate_bias_abs_bnd. split.
  - destruct (Run.deref (Run.last_itr run)) as [itr|e]; cbn [bind];
      [|eauto].
    destruct (Itr.calcEl itr 1 false true) as [El|e]; cbn [bind]; [|eauto].
    destruct (setmask_scalar El _ PInf) as [El'|e]; cbn [bind];
      eexists; reflexivity.
  - intros itr El Hlast HEl. rewrite Hlast. cbn [Run.deref getattr bind].
    rewrite HEl. cbn [bind]. unfold setmask_scalar.
    rewrite length_map, (BiasFacts.calcEl_length _ _ _ HEl), Nat.eqb_refl.
    reflexivity.
Qed.

Lemma maximum_ge_r (a b : float64) :
  isnan (maximum a b) = true \/ leb b (maximum a b) = true.
Proof.
  destruct a as [| | |x], b as [| | |y]; simpl; auto;
    try (right; rewrite Rcompare_Eq; reflexivity).
  destruct (Rcompare_spec x y) as [H|H|H]; right; simpl.
  - rewrite Rcompare_Eq. reflexivity.
  - rewrite Rcompare_Eq. reflexivity.
  - rewrite Rcompare_Lt by exact H. reflexivity.
Qed.

(** X16. The splitting parameter.  With a constant theta [_calcTheta] is
    [params.theta].  Otherwise it is never below [params.theta]: it is NaN
    or at least [params.theta].  For a tolerance that is not positive
    (zero, negative or NaN) it is +inf, unless [params.theta] is NaN.  When
    the bias is +inf it is [params.theta] for a finite positive tolerance,
    and NaN for the tolerance +inf. *)
Theorem calcTheta_split (p : ToleranceParams) (TOL bias_est : float64) :
  (const_theta p = true -> _calcTheta p TOL bias_est = theta p)
  /\ (const_theta p = false ->
      (isnan (_calcTheta p TOL bias_est) = true
       \/ leb (theta p) (_calcTheta p TOL bias_est) = true)
      /\ (ltb (of_Z 0) TOL = false -> isnan (theta p) = false ->
          _calcTheta p TOL bias_est = PInf)
      /\ (forall tol, TOL = Fin tol -> (0 < tol)%R -> bias_est = PInf ->
          _calcTheta p TOL bias_est = theta p)
      /\ (TOL = PInf -> bias_est = PInf ->
          isnan (_calcTheta p TOL bias_est) = true)).
Proof.
  unfold _calcTheta. split.
  - intros ->. reflexivity.
  - intros ->. cbn [negb]. split; [apply maximum_ge_r|]. split; [|split].
    + intros -> Hth. destruct (theta p); try discriminate; reflexivity.
    + intros tol -> Htol ->.
      replace (ltb (of_Z 0) (Fin tol)) with true
        by (unfold ltb, of_Z; rewrite Rcompare_Lt by (simpl; lra);
            reflexivity).
      unfold div. rewrite Rcompare_Gt by exact Htol.
      destruct (theta p); reflexivity.
    + intros -> ->. reflexivity.
Qed.

(** X17. The tolerance test: an iteration whose bias is +inf (as in a new
    iteration) or NaN never satisfies the tolerance, whatever its
    statistical error and the tolerances; and an iteration whose own
    tolerance is not set yet makes the test a [TypeError]. *)
Theorem tol_not_satisfied_without_bias (p : ToleranceParams)
  (itr : MIMCItrData) :
  (bias itr = PInf \/ bias itr = NaN ->
   forall t, TOL itr = Some t -> is_itr_tol_satisfied p itr = Ok false)
  /\ (TOL itr = None -> is_itr_tol_satisfied p itr = Raise TypeError).
Proof.
  unfold is_itr_tol_satisfied, Itr.total_error_est. split.
  - intros Hb t ->. f_equal.
    destruct Hb as [-> | ->].
    + destruct (stat_error itr) as [| | |s]; simpl;
        destruct (maximum (params_TOL p) t); reflexivity.
    + reflexivity.
  - intros ->. reflexivity.
Qed.

End ToleranceFacts.

(** ** Timer and Bunch *)

Module UtilFacts.

(** X18. The timer is a stack: [tic] and then [toc()] give the time between
    the two readings of the clock and leave the stack as it was; [toc] with
    [pop=False] leaves the stack alone; and on an empty stack, as after the
    second [toc()] on a new timer, [toc] fails its assertion. *)
Theorem timer_stack (clock : nat -> float64) (s : Timer.state) :
  Timer.toc clock (Timer.tic clock s) true
  = Ok ((clock (S (Timer.readings s)) - clock (Timer.readings s))%f64,
        {| Timer._tics := Timer._tics s;
           Timer.readings := S (S (Timer.readings s)) |})
  /\ (forall t s', Timer.toc clock s false = Ok (t, s') ->
                   Timer._tics s' = Timer._tics s)
  /\ (Timer._tics s = [] ->
      forall pop, Timer.toc clock s pop = Raise AssertionError)
  /\ (forall t s', Timer.toc clock (Timer.__init__ clock) true = Ok (t, s') ->
                   forall pop, Timer.toc clock s' pop = Raise AssertionError).
Proof.
  split; [|split; [|split]].
  - unfold Timer.toc, Timer.tic. cbn [Timer._tics Timer.readings].
    rewrite length_app. cbn [length].
    replace (Nat.ltb 0 (length (Timer._tics s) + 1)) with true
      by (symmetry; apply Nat.ltb_lt; lia).
    cbn [assert bind]. rewrite last_last, removelast_last. reflexivity.
  - unfold Timer.toc. intros t s'.
    destruct (Nat.ltb 0 (length (Timer._tics s))); cbn [assert bind];
      [|discriminate].
    intros H. injection H as _ <-. reflexivity.
  - intros H pop. unfold Timer.toc. rewrite H. reflexivity.
  - intros t s' H pop. unfold Timer.toc, Timer.__init__, Timer.tic in H.
    cbn in H. injection H as _ <-. reflexivity.
Qed.

Lemma lookup_init_in (V : Type) (kwargs : list (string * option V))
  (name : string) (v : V) :
  NoDup (map fst kwargs) -> In (name, Some v) kwargs ->
  BunchDict.lookup (BunchDict.__init__ kwargs) name = Some v.
Proof.
  induction kwargs as [|[k o] kwargs IH]; intros Hnd Hin; [contradiction|].
  cbn [map fst] in Hnd. inversion Hnd as [|k0 ks Hk Hnd']; subst.
  destruct Hin as [E|Hin].
  - injection E as -> ->. cbn. rewrite String.eqb_refl. reflexivity.
  - assert (Hne : k <> name).
    { intros ->. apply Hk. apply in_map_iff. exists (name, Some v).
      split; trivial. }
    destruct o as [w|]; cbn.
    + apply String.eqb_neq in Hne. rewrite Hne. apply IH; trivial.
    + apply IH; trivial.
Qed.

Lemma lookup_init_none (V : Type) (kwargs : list (string * option V))
  (name : string) :
  (forall v, ~ In (name, Some v) kwargs) ->
  BunchDict.lookup (BunchDict.__init__ kwargs) name = None.
Proof.
  induction kwargs as [|[k o] kwargs IH]; intros H; [reflexivity|].
  assert (H' : forall v, ~ In (name, Some v) kwargs).
  { intros v Hv. apply (H v). right. exact Hv. }
  destruct o as [w|]; cbn.
  - destruct (String.eqb_spec k name) as [->|Hne].
    + exfalso. apply (H w). left. reflexivity.
    + apply IH. exact H'.
  - apply IH. exact H'.
Qed.

(** X19. A [Bunch] holds the keyword arguments that were given a value.
    For a name that is not an attribute of the class: an attribute given a
    value reads back as that value, and an attribute given as [None] reads
    like one that was never given, [AttributeError] with [hasattr] false.
    For a name that the class has, [getDict] among them, [hasattr] is true
    whatever the keyword arguments. *)
Theorem bunch_none_is_missing (V : Type)
  (builtin_attr data_descriptor : string -> bool)
  (kwargs : list (string * option V)) (name : string) :
  NoDup (map fst kwargs) ->
  let d := BunchDict.__init__ kwargs in
  let getattr := BunchDict.getattr builtin_attr data_descriptor in
  let hasattr := BunchDict.hasattr builtin_attr data_descriptor in
  (BunchDict.class_attr builtin_attr name = false ->
   (forall v, In (name, Some v) kwargs ->
      getattr d name = Ok (BunchDict.Value v) /\ hasattr d name = true)
   /\ (In (name, None) kwargs \/ ~ In name (map fst kwargs) ->
       getattr d name = Raise AttributeError /\ hasattr d name = false))
  /\ (BunchDict.class_attr builtin_attr name = true ->
      hasattr d name = true)
  /\ hasattr d "getDict"%string = true.
Proof.
  intros Hnd d getattr hasattr.
  assert (Hclass : forall n, BunchDict.class_attr builtin_attr n = true ->
            hasattr d n = true).
  { intros n Hn. unfold hasattr, BunchDict.hasattr, BunchDict.getattr.
    destruct (builtin_attr n && data_descriptor n); [reflexivity|].
    destruct (BunchDict.lookup d n); [reflexivity|].
    rewrite Hn. reflexivity. }
  split; [|split; [apply Hclass|apply Hclass; reflexivity]].
  intros Hname.
  assert (Hb : builtin_attr name && data_descriptor name = false).
  { unfold BunchDict.class_attr in Hname.
    apply orb_false_iff in Hname as [_ ->]. reflexivity. }
  unfold hasattr, getattr, d, BunchDict.hasattr, BunchDict.getattr.
  rewrite Hb, Hname. split.
  - intros v Hin. rewrite (@lookup_init_in V kwargs name v Hnd Hin).
    split; reflexivity.
  - intros H. rewrite lookup_init_none; [split; reflexivity|].
    intros v Hv. destruct H as [H|H].
    + assert (E : Some v = None); [|discriminate].
      clear d getattr hasattr Hclass.
      induction kwargs as [|[k o] kwargs IH]; [contradiction|].
      cbn [map fst] in Hnd. inversion Hnd as [|k0 ks Hk Hnd']; subst.
      destruct Hv as [Ev|Hv], H as [En|H].
      * congruence.
      * exfalso. injection Ev as -> ->. apply Hk.
        apply in_map_iff. exists (name, None). split; trivial.
      * exfalso. injection En as -> ->. apply Hk.
        apply in_map_iff. exists (name, Some v). split; trivial.
      * apply IH; trivial.
    + apply H. apply in_map_iff. exists (name, Some v). split; trivial.
Qed.

End UtilFacts.

(** ** Generating samples *)

Module GenSamples.

Import Np NpFacts ArrayFacts.

Lemma todo_lists (totalM M active : list Z) :
  length totalM = length M -> length active = length M ->
  let act := map2 andb (map2 (fun t m => m <? t) totalM M)
               (map (fun a => 0 <=? a) active) in
  let T1 := putmask totalM (map negb act) 0 in
  place T1 act (map2 Z.sub (compress act T1) (compress act M))
  = todo_of totalM M active.
Proof.
  revert M active.
  induction totalM as [|t totalM IH]; intros [|m M] [|a active] HT HA;
    simpl in *; try discriminate; trivial.
  destruct (m <? t), (0 <=? a); simpl; f_equal; apply IH; lia.
Qed.

Lemma samples_todo_ok (totalM M active : list Z) :
  length totalM = length M -> length active = length M ->
  samples_todo totalM M active = Ok (todo_of totalM M active).
Proof.
  intros HT HA. unfold samples_todo, broadcast2.
  rewrite HT, Nat.eqb_refl. cbn [bind].
  rewrite length_map2 by exact HT. rewrite length_map, HT, HA, Nat.eqb_refl.
  cbn [bind].
  set (act := map2 andb (map2 (fun t m => m <? t) totalM M)
                (map (fun a => 0 <=? a) active)).
  assert (Hact : length act = length M).
  { unfold act. rewrite length_map2; rewrite ?length_map2, ?length_map; lia. }
  unfold setmask_scalar. rewrite length_map, Hact, HT, Nat.eqb_refl.
  cbn [bind]. unfold getmask.
  rewrite length_putmask, Hact, HT, Nat.eqb_refl. cbn [bind].
  set (T1 := putmask totalM (map negb act) 0).
  assert (HT1 : length T1 = length M).
  { unfold T1. rewrite length_putmask. exact HT. }
  replace (Nat.eqb (length (compress act T1)) (length (compress act M)))
    with true
    by (symmetry; apply Nat.eqb_eq; apply length_compress; lia).
  cbn [bind]. unfold setmask. rewrite Hact, HT1, Nat.eqb_refl.
  replace (Nat.eqb _ (count_true act)) with true.
  2:{ symmetry. apply Nat.eqb_eq. rewrite length_map2.
      - apply MomentFacts.count_true_compress. lia.
      - apply length_compress. lia. }
  f_equal. apply todo_lists; assumption.
Qed.

Lemma sumZ_nonneg (l : list Z) : Forall (fun x => 0 <= x) l -> 0 <= sumZ l.
Proof.
  induction 1 as [|x l Hx _ IH]; [unfold sumZ; simpl; lia|].
  rewrite ExpandDelta.sumZ_cons. lia.
Qed.

Lemma todo_nonneg (totalM M active : list Z) :
  Forall (fun x => 0 <= x) (todo_of totalM M active).
Proof.
  revert M active.
  induction totalM as [|t totalM IH]; intros [|m M] [|a active]; simpl;
    try constructor; [|apply IH].
  destruct (Z.ltb_spec m t), (0 <=? a); simpl; lia.
Qed.

Lemma nth_error_todo (totalM M active : list Z) (l : nat) (t m a : Z) :
  nth_error totalM l = Some t -> nth_error M l = Some m ->
  nth_error active l = Some a ->
  nth_error (todo_of totalM M active) l
  = Some (if (m <? t) && (0 <=? a) then t - m else 0).
Proof.
  revert M active l.
  induction totalM as [|t0 totalM IH]; intros [|m0 M] [|a0 active] [|l];
    simpl; intros Ht Hm Ha; try discriminate.
  - injection Ht as ->. injection Hm as ->. injection Ha as ->.
    reflexivity.
  - apply IH; assumption.
Qed.

Lemma length_todo (totalM M active : list Z) :
  length totalM = length M -> length active = length M ->
  length (todo_of totalM M active) = length M.
Proof.
  revert M active.
  induction totalM as [|t totalM IH]; intros [|m M] [|a active] HT HA;
    simpl in *; try discriminate; trivial.
  f_equal. apply IH; lia.
Qed.

Lemma sumZ_zero (l : list Z) : Forall (fun x => x = 0) l -> sumZ l = 0.
Proof.
  induction 1 as [|x l Hx _ IH]; [reflexivity|].
  rewrite ExpandDelta.sumZ_cons. lia.
Qed.

(** The variances of a state that keeps the data contract, with its
    tables allocated, can be computed. *)
Lemma calcVl_total (d : MIMCItrData) :
  sums_contract d -> allocated d -> 2 <= moments d ->
  exists v, Itr.calcVl d false true = Ok v.
Proof.
  intros (Hper & Hfd & Hff & _) [Had Haf] Hmom.
  destruct Hper as (HM & HtT & HtW & Hw & Ha & HV & _ & _).
  destruct (psums_delta d) as [pd|] eqn:Epd; [|contradiction].
  destruct (psums_fine d) as [pf|] eqn:Epf; [|contradiction].
  destruct (Hfd pd eq_refl) as (Hnd & Hcd & _).
  destruct (Hff pf eq_refl) as (Hnf & Hcf & _).
  destruct (@CentralMoments.central_moment_2_spec pd (M d))
    as (Bd & HBd & HlBd & _); [lia | lia |].
  destruct (@CentralMoments.central_moment_2_spec pf (M d))
    as (Bf & HBf & HlBf & _); [lia | lia |].
  set (w := map (fun x => pow_int x 2) (weights d)).
  assert (Hlw : length w = length (weights d)) by apply length_map.
  assert (HD : Itr.calcDeltaCentralMoment d 2 true = Ok (map2 mul w Bd)).
  { unfold Itr.calcDeltaCentralMoment. rewrite Epd, HBd. cbn [bind negb].
    unfold broadcast2. fold w.
    replace (Nat.eqb (length w) (length Bd)) with true
      by (symmetry; apply Nat.eqb_eq; lia).
    reflexivity. }
  assert (HF : Itr.calcFineCentralMoment d 2 true = Ok (map2 mul w Bf)).
  { unfold Itr.calcFineCentralMoment. rewrite Epd, Epf. cbn [bind].
    rewrite HBf. cbn [bind negb]. unfold broadcast2. fold w.
    replace (Nat.eqb (length w) (length Bf)) with true
      by (symmetry; apply Nat.eqb_eq; lia).
    reflexivity. }
  assert (HlD : length (map2 mul w Bd) = length (active_lvls d))
    by (rewrite length_map2; lia).
  assert (HlF : length (map2 mul w Bf) = length (active_lvls d))
    by (rewrite length_map2; lia).
  unfold Itr.calcVl, Itr.calcEl. rewrite HD. cbn [bind].
  rewrite HF. cbn [bind]. unfold getmask. rewrite length_map, HlF.
  rewrite Nat.eqb_refl. cbn [bind]. unfold setmask.
  rewrite length_map, HlD, Nat.eqb_refl.
  replace (Nat.eqb _ (count_true _)) with true.
  2:{ symmetry. apply Nat.eqb_eq.
      apply MomentFacts.count_true_compress. rewrite length_map. lia. }
  cbn [bind]. unfold setmask_scalar.
  rewrite length_map, MomentFacts.length_place, HlD, Nat.eqb_refl.
  cbn [bind]. eauto.
Qed.

(** Without least-squares fitting the estimation step returns, and it
    keeps the samples of the last iteration. *)
Lemma estimateAll_plain (power : float64 -> float64 -> float64)
  (norm_ppf : float64 -> float64)
  (EstimateBias : MIMCRun -> result float64) (self : MIMCRun)
  (last : MIMCItrData) :
  lsq_est (params self) = false ->
  reuse_samples (params self) = true ->
  Run.last_itr self = Some last ->
  _lvls_count last = length (_lvls last) ->
  length (active_lvls last) = length (_lvls last) ->
  length (M last) = length (_lvls last) ->
  (2 <= moments last -> exists v, Itr.calcVl last false true = Ok v) ->
  (forall r, exists b, EstimateBias r = Ok b) ->
  exists self' last',
    Run._estimateAll power norm_ppf EstimateBias self = Ok self'
    /\ Run.last_itr self' = Some last'
    /\ same_samples last last'.
Proof.
  intros Hlsq Hreuse Hlast Hcount Hact HM Hv Hbias.
  unfold Run._estimateAll, Run._estimateQParams.
  rewrite Hlsq. cbn [negb bind]. rewrite Hlast.
  cbn [Run.deref getattr bind].
  unfold Itr.get_lvls, Itr.lvls_count.
  replace (Nat.eqb (_lvls_count last) (length (_lvls last))) with true
    by (symmetry; apply Nat.eqb_eq; exact Hcount).
  cbn [negb bind].
  set (last2 := Run.set_stat_error
                  (Run.set_Vl_estimate last
                     (repeat NaN (length (_lvls last)))) NaN).
  destruct (RunFacts.set_last_some self last2 Hlast) as [self2 E2].
  rewrite E2. cbn [bind].
  destruct (RunFacts.set_last_ok _ _ E2) as (Hl2 & Hp2 & _).
  assert (Hfinish : forall self5 last5,
             Run.last_itr self5 = Some last5 ->
             exists self' b,
               (b <- EstimateBias self5 ;;
                last5 <- Run.deref (Run.last_itr self5) ;;
                Run.set_last self5 (Run.set_bias last5 b)) = Ok self'
               /\ Run.last_itr self' = Some (Run.set_bias last5 b)).
  { intros self5 last5 H5. destruct (Hbias self5) as [b Hb].
    rewrite Hb, H5. cbn [bind Run.deref getattr].
    destruct (RunFacts.set_last_some self5 (Run.set_bias last5 b) H5)
      as [self' E].
    exists self', b. split; [exact E|].
    apply (RunFacts.set_last_ok _ _ E). }
  change (moments last2) with (moments last).
  destruct (Z.leb_spec 2 (moments last)) as [Hge|Hlt].
  - destruct (Hv Hge) as [v Hv'].
    rewrite Hp2, Hlsq. unfold Run.all_itr. rewrite Hp2, Hreuse, Hl2.
    cbn [bind Run.deref getattr].
    change (Itr.calcVl last2 false true) with (Itr.calcVl last false true).
    rewrite Hv'. cbn [bind].
    change (active_lvls last2) with (active_lvls last).
    set (act := map (fun a => 0 <=? a) (active_lvls last)).
    assert (Hlact : length act = length (active_lvls last))
      by apply length_map.
    pose proof (BiasFacts.calcEl_length _ _ _ Hv') as Hlv.
    unfold getmask at 1.
    replace (Nat.eqb (length act) (length v)) with true
      by (symmetry; apply Nat.eqb_eq; lia).
    cbn [bind]. unfold setmask.
    change (Vl_estimate last2) with (repeat NaN (length (_lvls last))).
    rewrite repeat_length.
    replace (Nat.eqb (length act) (length (_lvls last))) with true
      by (symmetry; apply Nat.eqb_eq; lia).
    rewrite length_map.
    replace (Nat.eqb (length (compress act v)) (count_true act)) with true
      by (symmetry; apply Nat.eqb_eq;
          apply MomentFacts.count_true_compress; lia).
    cbn [bind].
    set (last3 := Run.set_Vl_estimate last2 _).
    destruct (RunFacts.set_last_some self2 last3 Hl2) as [self3 E3].
    rewrite E3. cbn [bind].
    destruct (RunFacts.set_last_ok _ _ E3) as (Hl3 & _ & _).
    assert (Hse : exists se,
               Run.stat_error_of norm_ppf self3 last3 act = Ok se).
    { unfold Run.stat_error_of, getmask.
      change (M last3) with (M last).
      replace (Nat.eqb (length act) (length (M last))) with true
        by (symmetry; apply Nat.eqb_eq; lia).
      cbn [bind]. destruct (existsb _ _); [eauto|].
      replace (Nat.eqb (length act) (length (Vl_estimate last3))) with true.
      2:{ symmetry. apply Nat.eqb_eq. unfold last3. cbn [Run.set_Vl_estimate
            Vl_estimate]. rewrite MomentFacts.length_place, repeat_length.
          lia. }
      cbn [bind]. unfold broadcast2.
      replace (Nat.eqb _ _) with true.
      2:{ symmetry. apply Nat.eqb_eq. rewrite length_map.
          apply length_compress. unfold last3.
          cbn [Run.set_Vl_estimate Vl_estimate].
          rewrite MomentFacts.length_place, repeat_length. lia. }
      cbn [bind]. eauto. }
    destruct Hse as [se Hse]. rewrite Hse. cbn [bind].
    destruct (RunFacts.set_last_some self3 (Run.set_stat_error last3 se) Hl3)
      as [self5 E5].
    rewrite E5. cbn [bind].
    destruct (RunFacts.set_last_ok _ _ E5) as (Hl5 & _ & _).
    destruct (Hfinish self5 (Run.set_stat_error last3 se) Hl5)
      as (self' & b & E & Hl').
    exists self', (Run.set_bias (Run.set_stat_error last3 se) b).
    split; [exact E|]. split; [exact Hl'|].
    repeat split.
  - replace (2 <=? moments last) with false
      by (symmetry; apply Z.leb_gt; exact Hlt).
    cbn [bind].
    destruct (Hfinish self2 last2 Hl2) as (self' & b & E & Hl').
    exists self', (Run.set_bias last2 b).
    split; [exact E|]. split; [exact Hl'|]. repeat split.
Qed.

(** X20. Nothing to do: when no level with active flag [>= 0] is asked for
    more samples than it has, [_genSamples] returns [False] and leaves the
    run as it is, without a call of the sampler or of the estimators. *)
Theorem genSamples_nothing_to_do
  (power : float64 -> float64 -> float64) (norm_ppf : float64 -> float64)
  (EstimateBias : MIMCRun -> result float64)
  (SampleAll : VarSizeList -> list Z -> Z -> result Samples.t)
  (self : MIMCRun) (last : MIMCItrData) (totalM : list Z) :
  Run.last_itr self = Some last ->
  _lvls_count last = length (_lvls last) ->
  length totalM = length (M last) ->
  length (active_lvls last) = length (M last) ->
  (forall l t m a,
     nth_error totalM l = Some t -> nth_error (M last) l = Some m ->
     nth_error (active_lvls last) l = Some a -> 0 <= a -> t <= m) ->
  _genSamples power norm_ppf EstimateBias SampleAll self totalM
  = Ok (false, self).
Proof.
  intros Hlast Hcount HT HA Hle. unfold _genSamples.
  rewrite Hlast. cbn [Run.deref getattr bind].
  unfold Itr.get_lvls, Itr.lvls_count. rewrite Hcount, Nat.eqb_refl.
  cbn [negb bind assert]. rewrite Nat.eqb_refl. cbn [bind assert].
  rewrite samples_todo_ok by assumption. cbn [bind].
  rewrite sumZ_zero; [reflexivity|].
  apply Forall_forall. intros x Hx.
  apply In_nth_error in Hx as [l Hl].
  assert (Hlt : (l < length (M last))%nat).
  { rewrite <- (length_todo totalM (M last) (active_lvls last)) by assumption.
    apply nth_error_Some. congruence. }
  destruct (nth_error totalM l) as [t|] eqn:Et.
  2:{ apply nth_error_None in Et. lia. }
  destruct (nth_error (M last) l) as [m|] eqn:Em.
  2:{ apply nth_error_None in Em. lia. }
  destruct (nth_error (active_lvls last) l) as [a|] eqn:Ea.
  2:{ apply nth_error_None in Ea. lia. }
  rewrite (nth_error_todo _ _ _ _ Et Em Ea) in Hl. injection Hl as <-.
  destruct (Z.ltb_spec m t) as [Hmt|]; [|reflexivity].
  destruct (Z.leb_spec 0 a) as [Hpos|]; [|reflexivity].
  specialize (Hle l t m a Et Em Ea Hpos). lia.
Qed.

Lemma same_settings_trans (a b c : MIMCItrData) :
  same_settings a b -> same_settings b c -> same_settings a c.
Proof.
  unfold same_settings.
  intros (A1 & A2 & A3 & A4 & A5 & A6 & A7 & A8 & A9 & A10 & A11 & A12)
         (B1 & B2 & B3 & B4 & B5 & B6 & B7 & B8 & B9 & B10 & B11 & B12).
  repeat split; congruence.
Qed.

Lemma same_settings_refl (a : MIMCItrData) : same_settings a a.
Proof. unfold same_settings. repeat split. Qed.

(** The loop of [_genSamples] from level [i] on. *)
Lemma addSamples_all_ok (s : Samples.t) (n : nat) (p : Z) :
  samples_fit n p s ->
  forall k i self cur,
    (i + k = n)%nat -> Run.last_itr self = Some cur ->
    reuse_samples (params self) = true ->
    sums_contract cur -> _lvls_count cur = n -> moments cur = p ->
    exists self' cur',
      addSamples_all self s (seq i k) = Ok self'
      /\ Run.last_itr self' = Some cur'
      /\ params self' = params self
      /\ sums_contract cur' /\ same_settings cur cur'
      /\ (forall l m,
            nth_error (M cur) l = Some m ->
            nth_error (M cur') l
            = Some (if (i <=? l)%nat
                    then m + Z.max (nth l (Samples.calcM s) 0) 0
                    else m))
      /\ (allocated cur
          \/ (exists l, (i <= l < n)%nat /\ 0 < nth l (Samples.calcM s) 0) ->
          allocated cur').
Proof.
  intros (HlM & Hld & Hlf & Hlt & Hlw & Hfit).
  induction k as [|k IH]; intros i self cur Hik Hlast Hreuse Hc Hn Hp.
  - exists self, cur. cbn [seq addSamples_all].
    split; [reflexivity|]. split; [exact Hlast|]. split; [reflexivity|].
    split; [exact Hc|]. split; [apply same_settings_refl|]. split.
    + intros l m Hm.
      assert (Hl : (l < n)%nat).
      { destruct Hc as ((HM & _) & _). rewrite <- Hn, <- HM.
        apply nth_error_Some. congruence. }
      destruct (Nat.leb_spec i l); [lia|exact Hm].
    + intros [H|(l & Hl & _)]; [exact H|lia].
  - assert (Hi : (i < n)%nat) by lia.
    cbn [seq addSamples_all].
    destruct (nth_error (Samples.calcM s) i) as [c|] eqn:Ec.
    2:{ apply nth_error_None in Ec. lia. }
    rewrite (getitem_nat _ _ Ec). cbn [bind].
    pose proof (nth_error_nth_default _ _ 0 Ec) as Hci.
    destruct (Z.leb_spec c 0) as [Hle|Hgt].
    + destruct (IH (S i) self cur ltac:(lia) Hlast Hreuse Hc Hn Hp)
        as (self' & cur' & E & Hl' & Hp' & Hc' & Hs' & HM' & Ha').
      exists self', cur'. split; [exact E|]. split; [exact Hl'|].
      split; [exact Hp'|]. split; [exact Hc'|]. split; [exact Hs'|].
      split.
      * intros l m Hm. rewrite (HM' l m Hm).
        destruct (Nat.leb_spec (S i) l), (Nat.leb_spec i l);
          try reflexivity; try lia.
        assert (l = i) by lia. subst l. rewrite Hci.
        f_equal. lia.
      * intros [H|(l & Hl & Hpos)]; apply Ha'; [left; exact H|].
        right. exists l. split; [|exact Hpos].
        assert (l <> i) by (intros ->; lia). lia.
    + rewrite Hlast. cbn [Run.deref getattr bind].
      destruct (nth_error (Samples.psums_delta s) i) as [pd|] eqn:Epd.
      2:{ apply nth_error_None in Epd. lia. }
      destruct (nth_error (Samples.psums_fine s) i) as [pf|] eqn:Epf.
      2:{ apply nth_error_None in Epf. lia. }
      destruct (nth_error (Samples.total_time s) i) as [t|] eqn:Et.
      2:{ apply nth_error_None in Et. lia. }
      destruct (nth_error (Samples.total_work s) i) as [w|] eqn:Ew.
      2:{ apply nth_error_None in Ew. lia. }
      rewrite (getitem_nat _ _ Epd), (getitem_nat _ _ Epf),
        (getitem_nat _ _ Et), (getitem_nat _ _ Ew).
      cbn [bind].
      destruct (Hfit i c pd pf Ec Hgt Epd Epf) as [Hpdpf Hpfp].
      destruct (nth_error (M cur) i) as [mi|] eqn:Emi.
      2:{ apply nth_error_None in Emi.
          destruct Hc as ((HM & _) & _). lia. }
      destruct (@SampleFacts.addSamples_spec cur i mi c pd pf t w Hc Emi
                  Hpdpf ltac:(congruence))
        as (cur1 & td & tf & E1 & Hc1 & Hs1 & HM1 & _ & _ & Hd1 & _ & Hf1 & _).
      rewrite E1. cbn [bind].
      destruct (RunFacts.set_last_some self cur1 Hlast) as [self1 E2].
      rewrite E2. cbn [bind].
      destruct (RunFacts.set_last_ok _ _ E2) as (Hl1 & Hp1 & _).
      rewrite Hp1, Hreuse. cbn [bind].
      assert (Hn1 : _lvls_count cur1 = n).
      { destruct Hs1 as (_ & _ & H & _). congruence. }
      assert (Hmom1 : moments cur1 = p).
      { destruct Hs1 as (H & _). congruence. }
      destruct (IH (S i) self1 cur1 ltac:(lia) Hl1
                  ltac:(congruence) Hc1 Hn1 Hmom1)
        as (self' & cur' & E & Hl' & Hp' & Hc' & Hs' & HM' & Ha').
      exists self', cur'. split; [exact E|]. split; [exact Hl'|].
      split; [congruence|]. split; [exact Hc'|].
      split; [apply same_settings_trans with cur1; assumption|].
      split.
      * intros l m Hm.
        destruct (Nat.eq_dec l i) as [->|Hne].
        -- assert (Hm1 : nth_error (M cur1) i = Some (mi + c)).
           { rewrite HM1. apply nth_error_update_eq.
             apply nth_error_Some. congruence. }
           rewrite (HM' i (mi + c) Hm1).
           destruct (Nat.leb_spec (S i) i); [lia|].
           rewrite Nat.leb_refl, Hci. f_equal.
           assert (m = mi) by congruence. lia.
        -- assert (Hm1 : nth_error (M cur1) l = Some m).
           { rewrite HM1, nth_error_update_neq by exact Hne. exact Hm. }
           rewrite (HM' l m Hm1).
           destruct (Nat.leb_spec (S i) l), (Nat.leb_spec i l);
             try reflexivity; lia.
      * intros _. apply Ha'. left. unfold allocated.
        rewrite Hd1, Hf1. split; discriminate.
Qed.

(** X21. [_genSamples] adds what the sampler computed: without
    least-squares fitting and with one store of samples, on a last
    iteration that keeps the data contract, when some samples are missing
    and the sampler returns sums that fit, the call returns [True] and the
    count of every level has grown by the number of samples computed for
    it; with a sampler that computes exactly what was asked, the levels
    with active flag [>= 0] reach the requested totals. *)
Theorem genSamples_adds
  (power : float64 -> float64 -> float64) (norm_ppf : float64 -> float64)
  (EstimateBias : MIMCRun -> result float64)
  (SampleAll : VarSizeList -> list Z -> Z -> result Samples.t)
  (self : MIMCRun) (last : MIMCItrData) (totalM : list Z)
  (s : Samples.t) :
  lsq_est (params self) = false -> reuse_samples (params self) = true ->
  Run.last_itr self = Some last -> sums_contract last ->
  _lvls_count last = length (_lvls last) ->
  length totalM = _lvls_count last ->
  let todo := todo_of totalM (M last) (active_lvls last) in
  sumZ todo <> 0 ->
  SampleAll (_lvls last) todo (moments last) = Ok s ->
  samples_fit (_lvls_count last) (moments last) s ->
  Exists (fun c => 0 < c) (Samples.calcM s) ->
  (forall r, exists b, EstimateBias r = Ok b) ->
  exists self' last',
    _genSamples power norm_ppf EstimateBias SampleAll self totalM
    = Ok (true, self')
    /\ Run.last_itr self' = Some last'
    /\ (forall l m c,
          nth_error (M last) l = Some m ->
          nth_error (Samples.calcM s) l = Some c ->
          nth_error (M last') l = Some (m + Z.max c 0))
    /\ (Samples.calcM s = todo ->
        forall l m t a,
          nth_error (M last) l = Some m -> nth_error totalM l = Some t ->
          nth_error (active_lvls last) l = Some a ->
          nth_error (M last') l
          = Some (if 0 <=? a then Z.max m t else m)).
Proof.
  intros Hlsq Hreuse Hlast Hc Hcount HT todo Hsum Hs Hfit Hex Hbias.
  pose proof Hc as ((HM & _ & _ & _ & Ha & _) & _).
  unfold _genSamples. rewrite Hlast. cbn [Run.deref getattr bind].
  unfold Itr.get_lvls, Itr.lvls_count.
  replace (Nat.eqb (_lvls_count last) (length (_lvls last))) with true
    by (symmetry; apply Nat.eqb_eq; exact Hcount).
  cbn [negb bind assert].
  replace (Nat.eqb (_lvls_count last) (length (_lvls last))) with true
    by (symmetry; apply Nat.eqb_eq; exact Hcount).
  cbn [bind assert].
  rewrite samples_todo_ok by lia. cbn [bind]. fold todo.
  destruct (Z.eqb_spec (sumZ todo) 0) as [|_]; [contradiction|].
  rewrite Hs. cbn [bind].
  destruct (@addSamples_all_ok s (_lvls_count last) (moments last) Hfit
              (_lvls_count last) 0%nat self last eq_refl Hlast Hreuse Hc
              eq_refl eq_refl)
    as (self1 & cur & E1 & Hl1 & Hp1 & Hc1 & Hs1 & HM1 & Ha1).
  rewrite E1. cbn [bind].
  assert (Halloc : allocated cur).
  { apply Ha1. right. apply Exists_exists in Hex as (c & Hin & Hpos).
    apply In_nth_error in Hin as [l Hl]. exists l.
    destruct Hfit as (HlM & _).
    assert (l < length (Samples.calcM s))%nat
      by (apply nth_error_Some; congruence).
    split; [lia|]. rewrite (nth_error_nth_default _ _ 0 Hl). exact Hpos. }
  pose proof Hc1 as ((HMc & _ & _ & _ & Hac & _) & _).
  destruct Hs1 as (Hmom & Hlv & Hcnt & _ & _).
  destruct (@estimateAll_plain power norm_ppf EstimateBias self1 cur)
    as (self' & last' & E & Hl' & Hsame); trivial; try congruence.
  { intros Hge. apply calcVl_total; trivial. }
  rewrite E. cbn [bind]. exists self', last'.
  split; [reflexivity|]. split; [exact Hl'|].
  destruct Hsame as (HMs & _). rewrite HMs.
  assert (Hgrow : forall l m c,
             nth_error (M last) l = Some m ->
             nth_error (Samples.calcM s) l = Some c ->
             nth_error (M cur) l = Some (m + Z.max c 0)).
  { intros l m c Hm Hcl. rewrite (HM1 l m Hm). cbn [Nat.leb].
    rewrite (nth_error_nth_default _ _ 0 Hcl). reflexivity. }
  split; [exact Hgrow|].
  intros Heq l m t a Hm Ht Hal.
  assert (Hcl : nth_error (Samples.calcM s) l
                = Some (if (m <? t) && (0 <=? a) then t - m else 0)).
  { rewrite Heq. apply nth_error_todo; assumption. }
  rewrite (Hgrow l m _ Hm Hcl). f_equal.
  destruct (Z.ltb_spec m t), (Z.leb_spec 0 a); cbn [andb]; lia.
Qed.

End GenSamples.

(** ** The expectations of the levels *)

Module ExpectationFacts.

Import Np NpFacts F64Facts ArrayFacts.

#[local] Arguments F64.mul : simpl never.
#[local] Arguments F64.div : simpl never.
#[local] Arguments F64.pow_int : simpl never.

Lemma nth_error_place_mask {A : Type} (mask : list bool) (a b : list A)
  (l : nat) (x y : A) (bl : bool) :
  nth_error a l = Some x -> nth_error b l = Some y ->
  nth_error mask l = Some bl ->
  nth_error (place a mask (compress mask b)) l
  = Some (if bl then y else x).
Proof.
  revert a b l.
  induction mask as [|b0 mask IH]; intros [|x0 a] [|y0 b] [|l] Ha Hb Hm;
    simpl in *; try discriminate.
  - injection Ha as ->. injection Hb as ->. injection Hm as ->.
    destruct bl; reflexivity.
  - destruct b0; simpl; apply IH; trivial.
Qed.

(** The mean of a level: its first power sum divided by its count, NaN
    without samples. *)
Lemma first_moment_rows (psums : matrix) (M : list Z) :
  length M = nrows psums -> (0 < ncols psums)%nat ->
  exists B,
    compute_central_moment psums M 1 = Ok B
    /\ length B = length M
    /\ forall l m row,
         nth_error M l = Some m -> nth_error (rows psums) l = Some row ->
         length row = ncols psums ->
         nth_error B l
         = Some (if m =? 0 then NaN else (nth 0 row NaN / of_Z m)%f64).
Proof.
  intros Hlen Hcols.
  destruct (MomentFacts.compute_raw_moments_rows psums M Hlen)
    as (rows' & Hraw & Hl & Hr).
  exists (map (fun r => nth 0 r NaN) rows').
  split.
  { unfold compute_central_moment. rewrite Hraw. cbn [bind Z.eqb Pos.eqb].
    unfold column. cbn [ncols rows].
    replace (Nat.ltb 0 (ncols psums)) with true
      by (symmetry; apply Nat.ltb_lt; exact Hcols).
    reflexivity. }
  split; [rewrite length_map; exact Hl|].
  intros l m row Hm Hrow Hrl.
  rewrite nth_error_map, (Hr l m row Hm Hrow). cbn [option_map]. f_equal.
  unfold raw_row. destruct (Z.eqb_spec m 0) as [->|Hne].
  - destruct (ncols psums); [lia|reflexivity].
  - destruct row as [|x row]; [simpl in Hrl; lia|].
    destruct (ncols psums); [lia|]. cbn [repeat map2 nth].
    unfold of_Z. apply MomentFacts.mul_inv_is_div.
    apply MomentFacts.IZR_neq_0. exact Hne.
Qed.

Lemma calcEl_spec (d : MIMCItrData) :
  sums_contract d -> allocated d -> 1 <= moments d ->
  exists El,
    Itr.calcEl d 1 false true = Ok El
    /\ Itr.calcEl d 1 true true = Ok (compress (in_estimator d) El)
    /\ length El = _lvls_count d
    /\ forall l a m w rd rf,
         nth_error (active_lvls d) l = Some a ->
         nth_error (M d) l = Some m ->
         nth_error (weights d) l = Some w ->
         row_at (psums_delta d) l = Some rd ->
         row_at (psums_fine d) l = Some rf ->
         nth_error El l
         = Some (if a <? 0 then NaN
                 else level_mean w m (if a =? 0 then rf else rd)).
Proof.
  intros (Hper & Hfd & Hff & _) [Had Haf] Hmom.
  destruct Hper as (HM & HtT & HtW & Hw & Ha & HV & _ & _).
  destruct (psums_delta d) as [pd|] eqn:Epd; [|contradiction].
  destruct (psums_fine d) as [pf|] eqn:Epf; [|contradiction].
  destruct (Hfd pd eq_refl) as (Hnd & Hcd & Hwd).
  destruct (Hff pf eq_refl) as (Hnf & Hcf & Hwf).
  destruct (first_moment_rows pd (M d)) as (Bd & HBd & HlBd & HrBd);
    [lia | lia |].
  destruct (first_moment_rows pf (M d)) as (Bf & HBf & HlBf & HrBf);
    [lia | lia |].
  set (w := map (fun x => pow_int x 1) (weights d)).
  assert (Hlw : length w = length (weights d)) by apply length_map.
  assert (HD : Itr.calcDeltaCentralMoment d 1 true = Ok (map2 mul w Bd)).
  { unfold Itr.calcDeltaCentralMoment. rewrite Epd, HBd. cbn [bind negb].
    unfold broadcast2. fold w.
    replace (Nat.eqb (length w) (length Bd)) with true
      by (symmetry; apply Nat.eqb_eq; lia).
    reflexivity. }
  assert (HF : Itr.calcFineCentralMoment d 1 true = Ok (map2 mul w Bf)).
  { unfold Itr.calcFineCentralMoment. rewrite Epd, Epf. cbn [bind].
    rewrite HBf. cbn [bind negb]. unfold broadcast2. fold w.
    replace (Nat.eqb (length w) (length Bf)) with true
      by (symmetry; apply Nat.eqb_eq; lia).
    reflexivity. }
  assert (HlD : length (map2 mul w Bd) = length (active_lvls d))
    by (rewrite length_map2; lia).
  assert (HlF : length (map2 mul w Bf) = length (active_lvls d))
    by (rewrite length_map2; lia).
  set (base := map (fun a => a =? 0) (active_lvls d)).
  set (neg := map (fun a => a <? 0) (active_lvls d)).
  set (El := putmask
               (place (map2 mul w Bd) base (compress base (map2 mul w Bf)))
               neg NaN).
  assert (HlEl : length El = length (active_lvls d)).
  { unfold El. rewrite length_putmask, MomentFacts.length_place. exact HlD. }
  assert (Hrun : forall ao,
            Itr.calcEl d 1 ao true
            = if ao then getmask El (in_estimator d) else Ok El).
  { intros ao. unfold Itr.calcEl. rewrite HD. cbn [bind].
    rewrite HF. cbn [bind]. fold base neg. unfold getmask at 1.
    unfold base at 1. rewrite length_map, HlF, Nat.eqb_refl. cbn [bind].
    unfold setmask. unfold base at 1. rewrite length_map, HlD, Nat.eqb_refl.
    replace (Nat.eqb _ (count_true _)) with true.
    2:{ symmetry. apply Nat.eqb_eq.
        apply MomentFacts.count_true_compress. unfold base.
        rewrite length_map. lia. }
    cbn [bind]. unfold setmask_scalar. unfold neg at 1.
    rewrite length_map, MomentFacts.length_place, HlD, Nat.eqb_refl.
    cbn [bind]. reflexivity. }
  exists El. split; [exact (Hrun false)|]. split.
  { rewrite (Hrun true). unfold getmask, in_estimator.
    rewrite length_map, HlEl, Nat.eqb_refl. reflexivity. }
  split; [lia|].
  intros l a m wl rd rf Hal Hml Hwl Hrd Hrf. cbn [row_at] in Hrd, Hrf.
  assert (Hld : length rd = ncols pd).
  { apply nth_error_In in Hrd. unfold wf_matrix in Hwd.
    rewrite Forall_forall in Hwd. apply Hwd. exact Hrd. }
  assert (Hlf : length rf = ncols pf).
  { apply nth_error_In in Hrf. unfold wf_matrix in Hwf.
    rewrite Forall_forall in Hwf. apply Hwf. exact Hrf. }
  assert (Hwl' : nth_error w l = Some wl).
  { unfold w. rewrite nth_error_map, Hwl. reflexivity. }
  pose proof (HrBd l m rd Hml Hrd Hld) as Hd.
  pose proof (HrBf l m rf Hml Hrf Hlf) as Hf.
  pose proof (nth_error_map2 mul w Bd l Hwl' Hd) as Hd'.
  pose proof (nth_error_map2 mul w Bf l Hwl' Hf) as Hf'.
  assert (Hb : nth_error base l = Some (a =? 0))
    by (unfold base; rewrite nth_error_map, Hal; reflexivity).
  assert (Hn : nth_error neg l = Some (a <? 0))
    by (unfold neg; rewrite nth_error_map, Hal; reflexivity).
  pose proof (nth_error_place_mask base _ _ l Hd' Hf' Hb) as Hp.
  unfold El. rewrite (nth_error_putmask _ _ NaN l Hp Hn).
  unfold level_mean. destruct (a <? 0); [reflexivity|].
  destruct (a =? 0); reflexivity.
Qed.

(** X22.  In a state that keeps the data contract, with its tables
    allocated and at least one moment, [calcEl] returns one entry per
    level: NaN at a level whose flag is negative, and otherwise the weight
    of the level times its mean (first power sum over count, NaN without
    samples), taken from the fine sums at a base level (flag 0) and from
    the difference sums at the other levels.  [calcEg], the estimator, is
    the sum of these entries over the levels whose flag is not negative. *)
Theorem calcEg_sums_level_means (d : MIMCItrData) :
  sums_contract d -> allocated d -> 1 <= moments d ->
  exists El,
    Itr.calcEl d 1 false true = Ok El
    /\ length El = _lvls_count d
    /\ (forall l a m w rd rf,
          nth_error (active_lvls d) l = Some a ->
          nth_error (M d) l = Some m ->
          nth_error (weights d) l = Some w ->
          row_at (psums_delta d) l = Some rd ->
          row_at (psums_fine d) l = Some rf ->
          nth_error El l
          = Some (if a <? 0 then NaN
                  else level_mean w m (if a =? 0 then rf else rd)))
    /\ ItrOps.calcEg d = Ok (Np.sum (compress (in_estimator d) El)).
Proof.
  intros Hc Ha Hm.
  destruct (calcEl_spec Hc Ha Hm) as (El & H1 & H2 & H3 & H4).
  exists El. repeat split; trivial.
  unfold ItrOps.calcEg. rewrite H2. reflexivity.
Qed.

(** X23.  Before any sample is added the tables are not allocated, and
    [calcEl] (hence [calcVl] and [calcEg]) raises IndexError as soon as
    there is a level: the empty array of moments does not match the mask
    of the levels.  Without any level it returns the empty array, and
    [calcEg] returns 0. *)
Theorem calcEl_before_samples (d : MIMCItrData) (moment : Z)
  (active_only weighted : bool) :
  psums_delta d = None ->
  (active_lvls d <> [] ->
     Itr.calcEl d moment active_only weighted = Raise IndexError
     /\ Itr.calcVl d active_only weighted = Raise IndexError
     /\ ItrOps.calcEg d = Raise IndexError)
  /\ (active_lvls d = [] ->
        Itr.calcEl d moment active_only weighted = Ok []
        /\ ItrOps.calcEg d = Ok zero).
Proof.
  intros Hnone.
  assert (H : forall mo ao we, active_lvls d <> [] ->
            Itr.calcEl d mo ao we = Raise IndexError).
  { intros mo ao we Hne. unfold Itr.calcEl, Itr.calcDeltaCentralMoment,
      Itr.calcFineCentralMoment. rewrite Hnone. cbn [bind].
    unfold getmask. destruct (active_lvls d); [contradiction|]. reflexivity. }
  split.
  - intros Hne. split; [apply H; exact Hne|]. split.
    + unfold Itr.calcVl. apply H. exact Hne.
    + unfold ItrOps.calcEg. rewrite H by exact Hne. reflexivity.
  - intros He.
    assert (H0 : forall mo ao we, Itr.calcEl d mo ao we = Ok []).
    { intros mo ao we. unfold Itr.calcEl, Itr.calcDeltaCentralMoment,
        Itr.calcFineCentralMoment. rewrite Hnone, He. cbn [bind].
      destruct ao; reflexivity. }
    split; [apply H0|]. unfold ItrOps.calcEg. rewrite H0. reflexivity.
Qed.

End ExpectationFacts.

(** ** Sampling the levels *)

Module SamplingFacts.

Import Np NpFacts F64Facts ArrayFacts SampleAll.

#[local] Arguments F64.mul : simpl never.
#[local] Arguments F64.add : simpl never.

Lemma product_seeds_nonempty (lvl : list Z) : product (map seed lvl) <> [].
Proof.
  induction lvl as [|l lvl IH]; [discriminate|].
  cbn [map product]. destruct (product (map seed lvl)) as [|e es];
    [contradiction|].
  unfold seed. destruct (l =? 0); discriminate.
Qed.

Lemma expand_delta_shape (lvl : list Z) :
  length (fst (expand_delta lvl)) = length (snd (expand_delta lvl))
  /\ (0 < length (snd (expand_delta lvl)))%nat.
Proof.
  unfold expand_delta. cbn [fst snd]. rewrite !length_map.
  split; [reflexivity|].
  pose proof (product_seeds_nonempty lvl) as H.
  destruct (product (map seed lvl)); [contradiction|simpl; lia].
Qed.

Lemma map2_fin (f : float64 -> float64 -> float64) (g : R -> R -> R)
  (a b : list R) :
  (forall x y, f (Fin x) (Fin y) = Fin (g x y)) ->
  map2 f (map Fin a) (map Fin b) = map Fin (map2 g a b).
Proof.
  intros H. revert b. induction a as [|x a IH]; intros [|y b];
    cbn [map map2]; trivial.
  rewrite H, IH. reflexivity.
Qed.

Lemma map2_same {A B C D : Type} (h : B -> C -> D) (f : A -> B)
  (g : A -> C) (l : list A) :
  map2 h (map f l) (map g l) = map (fun x => h (f x) (g x)) l.
Proof.
  induction l as [|x l IH]; cbn [map map2]; [reflexivity|].
  rewrite IH. reflexivity.
Qed.

Lemma map2_same_r {A B C : Type} (h : B -> A -> C) (f : A -> B)
  (l : list A) :
  map2 h (map f l) l = map (fun x => h (f x) x) l.
Proof.
  induction l as [|x l IH]; cbn [map map2]; [reflexivity|].
  rewrite IH. reflexivity.
Qed.

Lemma map2_repeat_r {A B C : Type} (h : A -> B -> C) (l : list A) (b : B) :
  map2 h l (repeat b (length l)) = map (fun x => h x b) l.
Proof.
  induction l as [|x l IH]; cbn [length repeat map map2]; [reflexivity|].
  rewrite IH. reflexivity.
Qed.

(** The differences of a batch of finite rows. *)
Lemma delta_of_values_fin (mods : list Z) (rs : list (list R)) :
  delta_of_values mods (Matrix (length mods) (map (map Fin) rs))
  = Ok (map (fun r => Fin (row_delta mods r)) rs).
Proof.
  unfold delta_of_values, _expand_axis1. cbn [fst snd ncols nrows rows].
  rewrite length_map, Nat.eqb_refl. cbn [assert bind]. f_equal.
  unfold nrows. cbn [rows].
  rewrite map2_repeat_r, !map_map.
  apply map_ext. intros r. unfold of_Z.
  rewrite <- (map_map IZR Fin).
  rewrite (map2_fin mul Rmult) by reflexivity.
  rewrite Ml2rFacts.sum_fin. reflexivity.
Qed.

(** The fine values of a batch of finite rows. *)
Lemma column_fin (k : nat) (rs : list (list R)) :
  (0 < k)%nat -> Forall (fun r => length r = k) rs ->
  column (Matrix k (map (map Fin) rs)) 0
  = Ok (map (fun r => Fin (row_fine r)) rs).
Proof.
  intros Hk Hrs. unfold column. cbn [ncols rows].
  replace (Nat.ltb 0 k) with true by (symmetry; apply Nat.ltb_lt; exact Hk).
  f_equal. rewrite map_map. apply map_ext_in. intros r Hr.
  rewrite Forall_forall in Hrs. specialize (Hrs r Hr).
  destruct r as [|x r]; [simpl in Hrs; lia|reflexivity].
Qed.

Lemma cumprod_from_repeat (xs : list R) (n k : nat) :
  cumprod_from (map Fin (map (fun x => (x ^ S k)%R) xs))
    (repeat (map Fin xs) n)
  = map (fun j => map Fin (map (fun x => (x ^ S (S k + j))%R) xs))
      (seq 0 n).
Proof.
  revert k. induction n as [|n IH]; intros k; [reflexivity|].
  cbn [repeat cumprod_from seq map].
  rewrite (map2_fin mul Rmult) by reflexivity.
  assert (E : map2 Rmult (map (fun x => (x ^ S k)%R) xs) xs
              = map (fun x => (x ^ S (S k))%R) xs).
  { rewrite map2_same_r. apply map_ext. intros x. simpl. ring. }
  rewrite E, IH. f_equal.
  - rewrite Nat.add_0_r. reflexivity.
  - rewrite <- seq_shift, map_map. apply map_ext. intros j.
    replace (S (S k) + j)%nat with (S k + S j)%nat by lia. reflexivity.
Qed.

(** The power sums that the code computes are the power sums. *)
Lemma power_sums_repeat (xs : list R) (p : nat) :
  power_sums (repeat (map Fin xs) p) = power_sums_of p xs.
Proof.
  unfold power_sums, power_sums_of, cumprod.
  assert (E : map (fun x => (x ^ 1)%R) xs = xs).
  { erewrite map_ext; [apply map_id|]. intros x. simpl. ring. }
  destruct p as [|p]; [reflexivity|].
  cbn [repeat seq map]. rewrite Ml2rFacts.sum_fin, E. f_equal.
  replace (cumprod_from (map Fin xs))
    with (cumprod_from (map Fin (map (fun x => (x ^ 1)%R) xs)))
    by (rewrite E; reflexivity).
  rewrite cumprod_from_repeat.
  rewrite <- seq_shift, !map_map. apply map_ext. intros j.
  rewrite Ml2rFacts.sum_fin. reflexivity.
Qed.

Lemma length_power_sums_of (p : nat) (xs : list R) :
  length (power_sums_of p xs) = p.
Proof. unfold power_sums_of. rewrite length_map, length_seq. reflexivity. Qed.

(** Adding the power sums of a batch gives the power sums of all the
    samples. *)
Lemma iadd_power_sums (p : nat) (xs ys : list R) :
  iadd (Arr (power_sums_of p xs)) (power_sums_of p ys)
  = Ok (Arr (power_sums_of p (xs ++ ys))).
Proof.
  unfold iadd. rewrite !length_power_sums_of, Nat.eqb_refl.
  f_equal. f_equal. unfold power_sums_of. rewrite map2_same.
  apply map_ext. intros j. change (Fin ?a + Fin ?b)%f64 with (Fin (a + b)).
  rewrite map_app, Ml2rFacts.rsum_app. reflexivity.
Qed.

Section Loop.

Variable St : Type.
Variable fnSample : St -> list (list Z) -> Z -> result (St * ret).
Variable fnWorkModel : option (VarSizeList -> result (list float64)).

(** One pass of the loop of a level adds a batch of rows. *)
Lemma sample_step_ok (P : list R -> Prop) (st : St) (wl : list float64)
  (i : Z) (mods : list Z) (inds : list (list Z)) (Mi p : Z) (a : acc)
  (samples : list (list R)) :
  sampler_draws fnSample inds P ->
  length mods = length inds -> (0 < length inds)%nat -> 0 <= p ->
  acc_M a < Mi ->
  accumulated P (Z.to_nat p) mods a samples ->
  exists st' a' rs,
    sample_step fnSample fnWorkModel st wl i mods inds Mi p a = Ok (st', a')
    /\ rs <> []
    /\ accumulated P (Z.to_nat p) mods a' (samples ++ rs).
Proof.
  intros Hdraw Hmods Hpos Hp Hlt (HM & HP & Hsums).
  destruct (Hdraw st (Mi - acc_M a)) as (st' & rs & t & w & Hs & Hne & Hlen
                                         & HPrs); [lia|].
  unfold sample_step. rewrite Hs. cbn [bind values samples_work].
  replace (delta_of_values mods
             (Matrix (length inds) (map (map Fin) rs)))
    with (Ok (map (fun r => Fin (row_delta mods r)) rs))
    by (rewrite <- Hmods; symmetry; apply delta_of_values_fin).
  cbn [bind].
  unfold tile. destruct (Z.ltb_spec p 0) as [|_]; [lia|]. cbn [bind].
  rewrite (column_fin Hpos Hlen). cbn [bind].
  rewrite <- (map_map (row_delta mods) Fin), <- (map_map row_fine Fin).
  rewrite !power_sums_repeat.
  assert (Hl : nrows (Matrix (length inds) (map (map Fin) rs)) = length rs).
  { unfold nrows. cbn [rows]. apply length_map. }
  destruct Hsums as [(-> & Hd & Hf)|(Hn & Hd & Hf)].
  - rewrite Hd, Hf. cbn [iadd bind].
    eexists _, _, rs. split; [reflexivity|]. split; [exact Hne|].
    split; [|split].
    + cbn [acc_M]. rewrite HM, Hl. simpl length. lia.
    + exact HPrs.
    + right. cbn [app acc_delta acc_fine]. auto.
  - rewrite Hd, Hf. rewrite !iadd_power_sums. cbn [bind].
    eexists _, _, rs. split; [reflexivity|]. split; [exact Hne|].
    split; [|split].
    + cbn [acc_M]. rewrite HM, Hl, length_app. lia.
    + apply Forall_app. split; assumption.
    + right. cbn [acc_delta acc_fine]. rewrite !map_app.
      split; [|auto]. destruct samples; [contradiction|discriminate].
Qed.

(** With a pass of fuel per requested sample the loop of a level ends,
    with at least the requested number of rows. *)
Lemma sample_level_ok (P : list R -> Prop) (wl : list float64) (i : Z)
  (mods : list Z) (inds : list (list Z)) (Mi p : Z) :
  sampler_draws fnSample inds P ->
  length mods = length inds -> (0 < length inds)%nat -> 0 <= p ->
  forall (fuel : nat) (st : St) (a : acc) (samples : list (list R)),
    Mi - acc_M a <= Z.of_nat fuel ->
    accumulated P (Z.to_nat p) mods a samples ->
    exists st' a' samples',
      sample_level fnSample fnWorkModel fuel st wl i mods inds Mi p a
      = Some (Ok (st', a'))
      /\ accumulated P (Z.to_nat p) mods a' samples'
      /\ Mi <= acc_M a'.
Proof.
  intros Hdraw Hmods Hpos Hp.
  induction fuel as [|fuel IH]; intros st a samples Hfuel Hacc.
  - cbn [sample_level]. destruct (Z.ltb_spec (acc_M a) Mi); [lia|].
    exists st, a, samples. auto.
  - cbn [sample_level]. destruct (Z.ltb_spec (acc_M a) Mi) as [Hlt|Hge].
    + destruct (@sample_step_ok P st wl i mods inds Mi p a samples
                  Hdraw Hmods Hpos Hp Hlt Hacc)
        as (st' & a' & rs & Hstep & Hne & Hacc').
      rewrite Hstep. apply (IH st' a' (samples ++ rs)); [|exact Hacc'].
      destruct Hacc as (HM & _). destruct Hacc' as (HM' & _).
      rewrite length_app in HM'.
      assert (0 < length rs)%nat by (destruct rs; [contradiction|simpl; lia]).
      lia.
    + exists st, a, samples. auto.
Qed.

End Loop.

Lemma same_at_refl (o : out) (j : nat) : same_at o o j.
Proof. repeat split. Qed.

Lemma same_at_trans (o1 o2 o3 : out) (j : nat) :
  same_at o1 o2 j -> same_at o2 o3 j -> same_at o1 o3 j.
Proof.
  intros (A1 & A2 & A3 & A4 & A5) (B1 & B2 & B3 & B4 & B5).
  repeat split; congruence.
Qed.

Lemma level_sampled_same (P : list R -> Prop) (p : nat) (mods : list Z)
  (m : Z) (o o' : out) (j : nat) :
  same_at o o' j -> level_sampled P p mods m o j ->
  level_sampled P p mods m o' j.
Proof.
  intros (A1 & A2 & A3 & _) (samples & H1 & H2 & H3 & H4 & H5).
  exists samples. repeat split; trivial; congruence.
Qed.

Section Levels.

Variable St : Type.
Variable fnSample : St -> list (list Z) -> Z -> result (St * ret).
Variable fnWorkModel : option (VarSizeList -> result (list float64)).

(** The body of the loop over the levels: a level is skipped or sampled,
    and the other levels are left alone. *)
Lemma sample_at_ok (P : list R -> Prop) (fuel : nat) (st : St)
  (wl : list float64) (lvls : VarSizeList) (M : list Z) (moments : Z)
  (i n : nat) (o : out) (lvl : list Z) (m : Z) :
  nth_error lvls i = Some lvl -> nth_error M i = Some m ->
  out_length n o -> (i < n)%nat -> 0 <= moments -> m <= Z.of_nat fuel ->
  sampler_draws fnSample (snd (expand_delta lvl)) P ->
  exists st' o',
    sample_at fnSample fnWorkModel fuel st wl lvls M moments (Z.of_nat i) o
    = Some (Ok (st', o'))
    /\ out_length n o'
    /\ (forall j, j <> i -> same_at o o' j)
    /\ (if 0 <? m
        then level_sampled P (Z.to_nat moments) (fst (expand_delta lvl)) m
               o' i
        else same_at o o' i).
Proof.
  intros Hlvl Hm (L1 & L2 & L3 & L4 & L5) Hi Hmom Hfuel Hdraw.
  unfold sample_at. rewrite (getitem_nat _ _ Hm).
  destruct (Z.leb_spec m 0) as [Hle|Hgt].
  - exists st, o. split; [reflexivity|]. split; [repeat split; trivial|].
    split; [intros; apply same_at_refl|].
    destruct (Z.ltb_spec 0 m); [lia|apply same_at_refl].
  - rewrite (getitem_nat _ _ Hlvl).
    pose proof (expand_delta_shape lvl) as [Hmods Hpos].
    destruct (expand_delta lvl) as [mods inds]. cbn [fst snd] in *.
    set (a0 := {| acc_M := 0; acc_delta := EmptyObj; acc_fine := EmptyObj;
                  acc_time := zero; acc_work := zero |}).
    assert (Ha0 : accumulated P (Z.to_nat moments) mods a0 []).
    { split; [reflexivity|]. split; [constructor|]. left. auto. }
    destruct (@sample_level_ok St fnSample fnWorkModel P wl (Z.of_nat i)
                mods inds m moments Hdraw Hmods Hpos Hmom fuel st a0 []
                ltac:(cbn [acc_M a0]; lia) Ha0)
      as (st' & a & samples & Hrun & (HM & HP & Hsums) & Hge).
    rewrite Hrun.
    rewrite !setitem_nat by lia. cbn [bind].
    eexists _, _. split; [reflexivity|]. split; [|split].
    + repeat split; cbn [calcM psums_delta psums_fine total_time total_work];
        rewrite length_update; assumption.
    + intros j Hj. repeat split;
        cbn [calcM psums_delta psums_fine total_time total_work];
        apply nth_error_update_neq; exact Hj.
    + destruct (Z.ltb_spec 0 m); [|lia].
      exists samples. split; [exact HP|]. split; [lia|].
      cbn [calcM psums_delta psums_fine].
      rewrite !nth_error_update_eq by lia.
      destruct Hsums as [(-> & _)|(_ & Hd & Hf)]; [simpl in HM; lia|].
      rewrite HM, Hd, Hf. auto.
Qed.

(** The loop over the levels, from level [i] on. *)
Lemma sample_from_ok (P : list Z -> list R -> Prop) (fuel : nat)
  (wl : list float64) (lvls : VarSizeList) (M : list Z) (moments : Z)
  (n : nat) :
  length lvls = n -> length M = n -> 0 <= moments ->
  Forall (fun m => m <= Z.of_nat fuel) M ->
  (forall lvl, In lvl lvls ->
     sampler_draws fnSample (snd (expand_delta lvl)) (P lvl)) ->
  forall (count i : nat) (st : St) (o : out),
    (i + count = n)%nat -> out_length n o ->
    exists st' o',
      sample_from fnSample fnWorkModel fuel st wl lvls M moments
        (Z.of_nat i) count o
      = Some (Ok (st', o'))
      /\ out_length n o'
      /\ (forall j, (j < i)%nat -> same_at o o' j)
      /\ (forall j lvl m,
            (i <= j)%nat -> nth_error lvls j = Some lvl ->
            nth_error M j = Some m ->
            if 0 <? m
            then level_sampled (P lvl) (Z.to_nat moments)
                   (fst (expand_delta lvl)) m o' j
            else same_at o o' j).
Proof.
  intros Hlvls HM Hmom Hfuel Hdraw.
  induction count as [|count IH]; intros i st o Hi Ho.
  - exists st, o. split; [reflexivity|]. split; [exact Ho|].
    split; [intros; apply same_at_refl|].
    intros j lvl m Hj Hl _.
    assert (j < length lvls)%nat by (apply nth_error_Some; congruence).
    lia.
  - assert (Hil : (i < length lvls)%nat) by lia.
    assert (HiM : (i < length M)%nat) by lia.
    destruct (nth_error lvls i) as [lvl|] eqn:El;
      [|apply nth_error_None in El; lia].
    destruct (nth_error M i) as [m|] eqn:Em;
      [|apply nth_error_None in Em; lia].
    assert (Hmf : m <= Z.of_nat fuel).
    { rewrite Forall_forall in Hfuel. apply Hfuel.
      eapply nth_error_In. exact Em. }
    destruct (@sample_at_ok (P lvl) fuel st wl lvls M moments i n o lvl m
                El Em Ho ltac:(lia) Hmom Hmf
                (Hdraw lvl (nth_error_In _ _ El)))
      as (st1 & o1 & Hat & Ho1 & Hother & Hthis).
    cbn [sample_from]. rewrite Hat.
    replace (Z.of_nat i + 1) with (Z.of_nat (S i)) by lia.
    destruct (IH (S i) st1 o1 ltac:(lia) Ho1)
      as (st' & o' & Hrun & Ho' & Hbefore & Hafter).
    exists st', o'. split; [exact Hrun|]. split; [exact Ho'|].
    split.
    + intros j Hj. apply same_at_trans with (o2 := o1).
      * apply Hother. lia.
      * apply Hbefore. lia.
    + intros j lvl' m' Hj Hl' Hm'.
      destruct (Nat.eq_dec j i) as [->|Hne].
      * rewrite El in Hl'. injection Hl' as <-.
        rewrite Em in Hm'. injection Hm' as <-.
        destruct (0 <? m).
        -- apply level_sampled_same with (o := o1); [|exact Hthis].
           apply Hbefore. lia.
        -- apply same_at_trans with (o2 := o1); [exact Hthis|].
           apply Hbefore. lia.
      * specialize (Hafter j lvl' m' ltac:(lia) Hl' Hm').
        destruct (0 <? m'); [exact Hafter|].
        apply same_at_trans with (o2 := o1); [|exact Hafter].
        apply Hother. exact Hne.
Qed.

End Levels.

(** X24.  With a sampler that always returns at least one row of finite
    values, one value per index of the level, and a pass of fuel per
    requested sample, [default_sample_all] returns.  At a level with
    [M[i] <= 0] the arrays are as they were created: count 0, no power
    sums.  At a level with [M[i] > 0] the result holds the count and the
    power sums of one list of sampled rows, at least [M[i]] of them: entry
    [j] of [psums_delta[i]] is the sum over these rows of the
    [(j+1)]-th power of the difference of the row ([mods] times the
    values), and entry [j] of [psums_fine[i]] the sum of the
    [(j+1)]-th power of its first value.  Every row comes from the
    sampler: what holds of all the rows it returns holds of these. *)
Theorem default_sample_all_power_sums (St : Type)
  (fnSample : St -> list (list Z) -> Z -> result (St * ret))
  (fnWorkModel : option (VarSizeList -> result (list float64)))
  (P : list Z -> list R -> Prop) (fuel : nat) (st : St)
  (lvls : VarSizeList) (M : list Z) (moments : Z) :
  length M = length lvls -> 0 <= moments ->
  Forall (fun m => m <= Z.of_nat fuel) M ->
  (forall lvl, In lvl lvls ->
     sampler_draws fnSample (snd (expand_delta lvl)) (P lvl)) ->
  (forall f, fnWorkModel = Some f -> exists wl, f lvls = Ok wl) ->
  exists st' o,
    default_sample_all fnSample fnWorkModel fuel st lvls M moments
    = Some (Ok (st', o))
    /\ out_length (length lvls) o
    /\ forall i lvl m,
         nth_error lvls i = Some lvl -> nth_error M i = Some m ->
         if 0 <? m
         then level_sampled (P lvl) (Z.to_nat moments)
                (fst (expand_delta lvl)) m o i
         else level_skipped o i.
Proof.
  intros HM Hmom Hfuel Hdraw Hwork.
  unfold default_sample_all.
  set (n := length lvls).
  set (o0 := {| calcM := repeat 0 n; psums_delta := repeat PyNone n;
                psums_fine := repeat PyNone n;
                total_time := repeat zero n;
                total_work := repeat zero n |}).
  assert (Ho0 : out_length n o0).
  { repeat split; cbn [o0 calcM psums_delta psums_fine total_time
                         total_work]; apply repeat_length. }
  assert (Hwl : exists wl,
            match fnWorkModel with Some f => f lvls | None => Ok [] end
            = Ok wl).
  { destruct fnWorkModel as [f|]; [apply Hwork; reflexivity|eauto]. }
  destruct Hwl as (wl & ->).
  destruct (@sample_from_ok St fnSample fnWorkModel P fuel wl lvls M moments
              n eq_refl HM Hmom Hfuel Hdraw n 0%nat st o0 eq_refl Ho0)
    as (st' & o & Hrun & Ho & _ & Hafter).
  exists st', o. split; [exact Hrun|]. split; [exact Ho|].
  intros i lvl m Hl Hm. specialize (Hafter i lvl m ltac:(lia) Hl Hm).
  destruct (0 <? m); [exact Hafter|].
  destruct Hafter as (A1 & A2 & A3 & A4 & A5).
  assert (Hi : (i < n)%nat) by (apply nth_error_Some; congruence).
  unfold level_skipped. rewrite A1, A2, A3, A4, A5.
  cbn [o0 calcM psums_delta psums_fine total_time total_work].
  repeat split; apply nth_error_repeat; exact Hi.
Qed.

Section Edges.

Variable St : Type.
Variable fnSample : St -> list (list Z) -> Z -> result (St * ret).
Variable fnWorkModel : option (VarSizeList -> result (list float64)).

(** The loop over the levels passes the levels for which nothing is asked;
    what stops the first level with a request stops the loop. *)
Lemma sample_from_first (fuel : nat) (wl : list float64)
  (lvls : VarSizeList) (M : list Z) (moments : Z) (k : nat) (m : Z)
  (st : St) (o : out) (r : option (result (St * out))) :
  first_requested M k m ->
  sample_at fnSample fnWorkModel fuel st wl lvls M moments (Z.of_nat k) o
  = r ->
  (r = None \/ exists e, r = Some (Raise e)) ->
  forall (count i : nat),
    (i <= k)%nat -> (k < i + count)%nat ->
    sample_from fnSample fnWorkModel fuel st wl lvls M moments (Z.of_nat i)
      count o
    = r.
Proof.
  intros (Hm & Hpos & Hbefore) Hat Hr.
  induction count as [|count IH]; intros i Hik Hk; [lia|].
  cbn [sample_from].
  destruct (Nat.eq_dec i k) as [->|Hne].
  - rewrite Hat. destruct Hr as [->|(e & ->)]; reflexivity.
  - assert (Hlt : (i < k)%nat) by lia.
    assert (HiM : (i < length M)%nat).
    { assert (k < length M)%nat by (apply nth_error_Some; congruence). lia. }
    destruct (nth_error M i) as [mi|] eqn:Emi;
      [|apply nth_error_None in Emi; lia].
    unfold sample_at at 1. rewrite (getitem_nat _ _ Emi).
    destruct (Z.leb_spec mi 0) as [_|Hgt];
      [|specialize (Hbefore i mi Hlt Emi); lia].
    replace (Z.of_nat i + 1) with (Z.of_nat (S i)) by lia.
    apply IH; lia.
Qed.

(** With a sampler that returns no row the loop of a level never ends. *)
Lemma sample_level_hangs (wl : list float64) (i : Z) (mods : list Z)
  (inds : list (list Z)) (Mi p : Z) :
  sampler_empty fnSample inds ->
  length mods = length inds -> (0 < length inds)%nat -> 0 <= p -> 0 < Mi ->
  forall (fuel : nat) (st : St) (a : acc),
    acc_M a = 0 -> addable (Z.to_nat p) (acc_delta a) ->
    addable (Z.to_nat p) (acc_fine a) ->
    sample_level fnSample fnWorkModel fuel st wl i mods inds Mi p a = None.
Proof.
  intros Hempty Hmods Hpos Hp HMi.
  assert (Hzero : power_sums (repeat [] (Z.to_nat p))
                  = repeat zero (Z.to_nat p)).
  { change (@nil float64) with (map Fin []).
    rewrite power_sums_repeat. unfold power_sums_of.
    generalize 0%nat. induction (Z.to_nat p) as [|n IH]; intros s;
      [reflexivity|].
    cbn [seq map repeat]. rewrite IH. reflexivity. }
  assert (Hadd : forall o, addable (Z.to_nat p) o ->
            exists o', iadd o (repeat zero (Z.to_nat p)) = Ok o'
                       /\ addable (Z.to_nat p) o').
  { intros o [->|(z & -> & Hz)].
    - eexists. split; [reflexivity|]. right. eexists. split; [reflexivity|].
      apply repeat_length.
    - unfold iadd. rewrite repeat_length, Hz, Nat.eqb_refl.
      eexists. split; [reflexivity|]. right. eexists.
      split; [reflexivity|]. rewrite length_map2_min, repeat_length. lia. }
  induction fuel as [|fuel IH]; intros st a HM Hd Hf; cbn [sample_level];
    rewrite HM; destruct (Z.ltb_spec 0 Mi); try lia; [reflexivity|].
  destruct (Hempty st (Mi - acc_M a)) as (st' & t & w & Hs).
  destruct (Hadd _ Hd) as (d' & Hd' & Hd'').
  destruct (Hadd _ Hf) as (f' & Hf' & Hf'').
  unfold sample_step. rewrite Hs. cbn [bind values samples_work].
  unfold delta_of_values, _expand_axis1. cbn [fst snd ncols nrows rows].
  rewrite length_map, Hmods, Nat.eqb_refl. cbn [assert bind length repeat].
  cbn [map2 map]. unfold tile.
  destruct (Z.ltb_spec p 0); [lia|]. cbn [bind]. unfold column.
  cbn [ncols rows map].
  replace (Nat.ltb 0 (length inds)) with true
    by (symmetry; apply Nat.ltb_lt; exact Hpos).
  cbn [bind]. rewrite Hzero, Hd'. cbn [bind]. rewrite Hf'. cbn [bind].
  apply IH; cbn [acc_M acc_delta acc_fine]; trivial. simpl. lia.
Qed.

End Edges.

(** X25.  [default_sample_all] refuses the first batch of the first level
    with a request, with AssertionError, when the sampler returns a pair
    [(values, time)] although no work model was given, and when [values]
    does not have one column per index of the level. *)
Theorem default_sample_all_refuses (St : Type)
  (fnSample : St -> list (list Z) -> Z -> result (St * ret))
  (fnWorkModel : option (VarSizeList -> result (list float64)))
  (fuel : nat) (st st' : St) (lvls : VarSizeList) (M : list Z)
  (moments : Z) (k : nat) (lvl : list Z) (m : Z) (r : ret) :
  length M = length lvls ->
  nth_error lvls k = Some lvl -> first_requested M k m ->
  (0 < fuel)%nat ->
  (forall f, fnWorkModel = Some f -> exists wl, f lvls = Ok wl) ->
  fnSample st (snd (expand_delta lvl)) m = Ok (st', r) ->
  (samples_work r = None /\ fnWorkModel = None)
  \/ (samples_work r <> None
      /\ Np.ncols (values r) <> length (snd (expand_delta lvl))) ->
  default_sample_all fnSample fnWorkModel fuel st lvls M moments
  = Some (Raise AssertionError).
Proof.
  intros HM Hlvl Hfirst Hfuel Hwork Hs Hbad.
  unfold default_sample_all.
  assert (Hwl : exists wl,
            match fnWorkModel with Some f => f lvls | None => Ok [] end
            = Ok wl).
  { destruct fnWorkModel as [f|]; [apply Hwork; reflexivity|eauto]. }
  destruct Hwl as (wl & ->).
  assert (Hk : (k < length lvls)%nat) by (apply nth_error_Some; congruence).
  change 0 with (Z.of_nat 0).
  apply (@sample_from_first St fnSample fnWorkModel fuel wl lvls M moments
           k m st _ (Some (Raise AssertionError)) Hfirst);
    [|right; eauto|lia|lia].
  destruct Hfirst as (Hm & Hpos & _).
  unfold sample_at. rewrite (getitem_nat _ _ Hm).
  destruct (Z.leb_spec m 0); [lia|]. rewrite (getitem_nat _ _ Hlvl).
  pose proof (expand_delta_shape lvl) as [Hmods _].
  destruct (expand_delta lvl) as [mods inds]. cbn [fst snd] in *.
  destruct fuel as [|fuel]; [lia|]. cbn [sample_level acc_M].
  destruct (Z.ltb_spec 0 m); [|lia].
  unfold sample_step. cbn [acc_M]. rewrite Z.sub_0_r, Hs. cbn [bind].
  destruct Hbad as [[Hw Hf]|[Hw Hc]].
  - rewrite Hw, Hf. reflexivity.
  - destruct (samples_work r) as [w|]; [|contradiction]. cbn [bind].
    unfold delta_of_values, _expand_axis1. cbn [fst snd].
    rewrite length_map.
    replace (Nat.eqb (length mods) (ncols (values r))) with false
      by (symmetry; apply Nat.eqb_neq; lia).
    reflexivity.
Qed.

(** X26.  [default_sample_all] never returns when the sampler returns no
    row at the first level with a request: the count of the level does not
    grow and its loop goes on, whatever the number of passes. *)
Theorem default_sample_all_hangs (St : Type)
  (fnSample : St -> list (list Z) -> Z -> result (St * ret))
  (fnWorkModel : option (VarSizeList -> result (list float64)))
  (st : St) (lvls : VarSizeList) (M : list Z) (moments : Z) (k : nat)
  (lvl : list Z) (m : Z) :
  length M = length lvls -> 0 <= moments ->
  nth_error lvls k = Some lvl -> first_requested M k m ->
  (forall f, fnWorkModel = Some f -> exists wl, f lvls = Ok wl) ->
  sampler_empty fnSample (snd (expand_delta lvl)) ->
  forall fuel,
    default_sample_all fnSample fnWorkModel fuel st lvls M moments = None.
Proof.
  intros HM Hmom Hlvl Hfirst Hwork Hempty fuel.
  unfold default_sample_all.
  assert (Hwl : exists wl,
            match fnWorkModel with Some f => f lvls | None => Ok [] end
            = Ok wl).
  { destruct fnWorkModel as [f|]; [apply Hwork; reflexivity|eauto]. }
  destruct Hwl as (wl & ->).
  assert (Hk : (k < length lvls)%nat) by (apply nth_error_Some; congruence).
  change 0 with (Z.of_nat 0).
  apply (@sample_from_first St fnSample fnWorkModel fuel wl lvls M moments
           k m st _ None Hfirst); [|left; reflexivity|lia|lia].
  destruct Hfirst as (Hm & Hpos & _).
  unfold sample_at. rewrite (getitem_nat _ _ Hm).
  destruct (Z.leb_spec m 0); [lia|]. rewrite (getitem_nat _ _ Hlvl).
  pose proof (expand_delta_shape lvl) as [Hmods Hlen].
  destruct (expand_delta lvl) as [mods inds]. cbn [fst snd] in *.
  rewrite (@sample_level_hangs St fnSample fnWorkModel wl (Z.of_nat k) mods
             inds m moments Hempty Hmods Hlen Hmom Hpos fuel st);
    [reflexivity|reflexivity|left; reflexivity|left; reflexivity].
Qed.

End SamplingFacts.

(** ** Sampling the levels from sums *)

Module SumsFacts.

Import Np NpFacts F64Facts ArrayFacts SampleAllSums.

#[local] Arguments F64.add : simpl never.

Lemma store_extends_refl (h : store) : store_extends h h.
Proof. split; [lia|trivial]. Qed.

Lemma store_extends_trans (h1 h2 h3 : store) :
  store_extends h1 h2 -> store_extends h2 h3 -> store_extends h1 h3.
Proof.
  intros [L1 E1] [L2 E2]. split; [lia|].
  intros j Hj. rewrite E2 by lia. apply E1. exact Hj.
Qed.

Lemma store_extends_app (h0 h t : store) :
  store_extends h0 h -> store_extends h0 (h ++ t).
Proof.
  intros [L E]. split; [rewrite length_app; lia|].
  intros j Hj. rewrite nth_error_app1 by lia. apply E. exact Hj.
Qed.

Lemma store_extends_update (h0 h : store) (r : nat) (v : list float64) :
  store_extends h0 h -> (length h0 <= r)%nat ->
  store_extends h0 (update h r v).
Proof.
  intros [L E] Hr. split; [rewrite length_update; lia|].
  intros j Hj. rewrite nth_error_update_neq by lia. apply E. exact Hj.
Qed.

Lemma deref_nth_error (h : store) (r : nat) (v : list float64) :
  nth_error h r = Some v -> deref h r = v.
Proof. intros H. unfold deref. apply nth_error_nth. exact H. Qed.

Lemma nth_error_snoc {A : Type} (l : list A) (x : A) :
  nth_error (l ++ [x]) (length l) = Some x.
Proof.
  rewrite nth_error_app2 by lia. rewrite Nat.sub_diag. reflexivity.
Qed.

(** Adding in place to an array of the store. *)
Lemma iadd_ref (h : store) (ra rb : nat) (a b : list float64) :
  nth_error h ra = Some a -> nth_error h rb = Some b ->
  length a = length b ->
  iadd h (Ref ra) rb = Ok (update h ra (map2 add a b), Ref ra).
Proof.
  intros Ha Hb Hl. unfold iadd, inplace_add.
  rewrite (deref_nth_error _ _ Ha), (deref_nth_error _ _ Hb), Hl.
  rewrite Nat.eqb_refl. reflexivity.
Qed.

Lemma batch_count_nil : batch_count [] = 0.
Proof. reflexivity. Qed.

Lemma batch_count_snoc (bs : list ret) (b : ret) :
  batch_count (bs ++ [b]) = batch_count bs + cur_M b.
Proof.
  unfold batch_count, sumZ. rewrite map_app, fold_left_app. reflexivity.
Qed.


Lemma added_twice_snoc (b1 : ret) (rest : list ret) (b : ret) :
  added_twice b1 (rest ++ [b])
  = map2 add (map2 add (added_twice b1 rest) (cur_fsums b)) (cur_fsums b).
Proof. unfold added_twice. rewrite fold_left_app. reflexivity. Qed.

Section Step.

Variable St : Type.
Variable fnSampleSums : St -> list (list Z) -> Z -> result (St * ret).


(** One pass of the loop of a level, when the batches give None for the
    sums of the differences. *)
Lemma sample_step_aliased (P : ret -> Prop) (p : nat) (h0 : store) (st : St)
  (h : store) (inds : list (list Z)) (Mi : Z) (a : acc) (bs : list ret) :
  sampler_sums fnSampleSums inds p false P ->
  acc_M a < Mi -> store_extends h0 h ->
  sums_aliased P p (length h0) h a bs ->
  exists st' h' a' b,
    sample_step fnSampleSums st h inds Mi a = Ok (st', h', a')
    /\ store_extends h0 h'
    /\ sums_aliased P p (length h0) h' a' (bs ++ [b])
    /\ acc_M a < acc_M a'.
Proof.
  intros Hs Hlt Hext (HM & HP & Hsums).
  destruct (Hs st (Mi - acc_M a)) as (st' & r & Hcall & HcM & Hlf & Hd & HPr);
    [lia|].
  pose proof Hext as [Hlen _].
  unfold sample_step. rewrite Hcall. cbn [bind]. rewrite Hd.
  set (h1 := h ++ [cur_fsums r]).
  assert (Hf1 : nth_error h1 (length h) = Some (cur_fsums r))
    by apply nth_error_snoc.
  assert (Hl1 : length h1 = S (length h))
    by (unfold h1; rewrite length_app; simpl; lia).
  assert (Hext1 : store_extends h0 h1)
    by (unfold h1; apply store_extends_app; exact Hext).
  destruct bs as [|b1 rest].
  - destruct Hsums as [Hpd Hpf]. rewrite Hpd, Hpf. cbn [iadd bind].
    eexists st', h1, _, r. split; [reflexivity|]. split; [exact Hext1|].
    split; [|cbn [acc_M]; lia]. split; [|split].
    + cbn [acc_M app]. rewrite HM. unfold batch_count, sumZ. simpl. lia.
    + cbn [app]. constructor; [exact HPr|constructor].
    + cbn [app acc_delta acc_fine]. exists (length h).
      unfold added_twice. cbn [fold_left].
      repeat split; trivial; lia.
  - destruct Hsums as (r0 & Hpd & Hpf & Hr0 & Hv & Hlv).
    set (v := added_twice b1 rest) in *.
    assert (Hv1 : nth_error h1 r0 = Some v).
    { unfold h1. rewrite nth_error_app1 by lia. exact Hv. }
    rewrite Hpd, Hpf.
    rewrite (iadd_ref _ _ _ Hv1 Hf1) by lia. cbn [bind].
    set (h2 := update h1 r0 (map2 add v (cur_fsums r))).
    assert (Hv2 : nth_error h2 r0 = Some (map2 add v (cur_fsums r)))
      by (unfold h2; apply nth_error_update_eq; lia).
    assert (Hf2 : nth_error h2 (length h) = Some (cur_fsums r))
      by (unfold h2; rewrite nth_error_update_neq by lia; exact Hf1).
    assert (Hlv' : length (map2 add v (cur_fsums r)) = p)
      by (rewrite length_map2; lia).
    rewrite (iadd_ref _ _ _ Hv2 Hf2) by lia. cbn [bind].
    set (h3 := update h2 r0 (map2 add (map2 add v (cur_fsums r))
                               (cur_fsums r))).
    eexists st', h3, _, r. split; [reflexivity|]. split.
    { unfold h3, h2. do 2 (apply store_extends_update; [|lia]).
      exact Hext1. }
    split; [|cbn [acc_M]; lia]. split; [|split].
    + cbn [acc_M]. rewrite HM, batch_count_snoc. reflexivity.
    + apply Forall_app. split; [exact HP|]. constructor; [exact HPr|].
      constructor.
    + cbn [app acc_delta acc_fine]. exists r0.
      rewrite added_twice_snoc. fold v.
      split; [reflexivity|]. split; [reflexivity|].
      split; [unfold h3, h2; rewrite !length_update; lia|]. split.
      * unfold h3. apply nth_error_update_eq.
        unfold h2. rewrite length_update. lia.
      * rewrite length_map2; lia.
Qed.

End Step.


Lemma sums_aliased_stable (P : ret -> Prop) (p n0 : nat) (h h' : store)
  (a : acc) (bs : list ret) :
  store_extends h h' -> sums_aliased P p n0 h a bs ->
  sums_aliased P p 0 h' a bs.
Proof.
  intros [L E] (HM & HP & Hs). split; [exact HM|]. split; [exact HP|].
  destruct bs as [|b1 rest]; [exact Hs|].
  destruct Hs as (r & H1 & H2 & H3 & H4 & H5).
  exists r. rewrite !E by lia. repeat split; trivial; lia.
Qed.

Section Loops.

Variable St : Type.
Variable fnSampleSums : St -> list (list Z) -> Z -> result (St * ret).
Variable fnWorkModel : option (VarSizeList -> result (list float64)).

(** The loop of a level keeps what every pass keeps and ends, with a pass
    of fuel per requested sample, once the count is reached. *)
Lemma sample_level_inv (Inv : store -> acc -> list ret -> Prop)
  (h0 : store) (inds : list (list Z)) (Mi : Z) :
  (forall st h a bs,
     acc_M a < Mi -> store_extends h0 h -> Inv h a bs ->
     exists st' h' a' b,
       sample_step fnSampleSums st h inds Mi a = Ok (st', h', a')
       /\ store_extends h0 h'
       /\ Inv h' a' (bs ++ [b])
       /\ acc_M a < acc_M a') ->
  forall (fuel : nat) (st : St) (h : store) (a : acc) (bs : list ret),
    Mi - acc_M a <= Z.of_nat fuel -> store_extends h0 h -> Inv h a bs ->
    exists st' h' a' bs',
      sample_level fnSampleSums fuel st h inds Mi a = Some (Ok (st', h', a'))
      /\ store_extends h0 h'
      /\ Inv h' a' bs'
      /\ Mi <= acc_M a'.
Proof.
  intros Hstep.
  induction fuel as [|fuel IH]; intros st h a bs Hfuel Hext Hinv;
    cbn [sample_level]; destruct (Z.ltb_spec (acc_M a) Mi) as [Hlt|Hge];
    try lia; try (exists st, h, a, bs; auto; fail).
  destruct (Hstep st h a bs Hlt Hext Hinv)
    as (st' & h' & a' & b & Hs & Hext' & Hinv' & Hgrow).
  rewrite Hs. apply (IH st' h' a' (bs ++ [b])); trivial. lia.
Qed.

Section Levels.

Variable Q : list Z -> Z -> store -> acc -> Prop.
Variable fuel : nat.
Variable lvls : VarSizeList.
Variable M : list Z.

Hypothesis Q_stable : forall lvl m h h' a,
  store_extends h h' -> Q lvl m h a -> Q lvl m h' a.

Hypothesis level_ok : forall lvl m st h,
  In lvl lvls -> 0 < m -> m <= Z.of_nat fuel ->
  exists st' h' a,
    sample_level fnSampleSums fuel st h (snd (expand_delta lvl)) m
      {| acc_M := 0; acc_delta := EmptyObj; acc_fine := EmptyObj;
         acc_time := zero; acc_work := zero |}
    = Some (Ok (st', h', a))
    /\ store_extends h h'
    /\ Q lvl m h' a.

(** The body of the loop over the levels. *)
Lemma sums_at_ok (st : St) (i n : nat) (o : out) (lvl : list Z) (m : Z) :
  nth_error lvls i = Some lvl -> nth_error M i = Some m ->
  sums_length n o -> (i < n)%nat -> m <= Z.of_nat fuel ->
  exists st' o',
    sample_at fnSampleSums fuel st lvls M (Z.of_nat i) o
    = Some (Ok (st', o'))
    /\ sums_length n o'
    /\ store_extends (arrays o) (arrays o')
    /\ (forall j a, j <> i -> level_is o j a -> level_is o' j a)
    /\ (if 0 <? m
        then exists a, level_is o' i a /\ Q lvl m (arrays o') a
        else forall a, level_is o i a -> level_is o' i a).
Proof.
  intros Hlvl Hm (L1 & L2 & L3 & L4 & L5) Hi Hfuel.
  unfold sample_at. rewrite (getitem_nat _ _ Hm).
  destruct (Z.leb_spec m 0) as [Hle|Hgt].
  - exists st, o. split; [reflexivity|]. split; [repeat split; trivial|].
    split; [apply store_extends_refl|]. split; [trivial|].
    destruct (Z.ltb_spec 0 m); [lia|trivial].
  - rewrite (getitem_nat _ _ Hlvl).
    destruct (@level_ok lvl m st (arrays o) (nth_error_In _ _ Hlvl) Hgt Hfuel)
      as (st' & h' & a & Hrun & Hext & HQ).
    destruct (expand_delta lvl) as [mods inds]. cbn [snd] in Hrun.
    rewrite Hrun. rewrite !setitem_nat by lia. cbn [bind].
    eexists _, _. split; [reflexivity|]. split; [|split; [|split]].
    + repeat split; cbn [calcM psums_delta psums_fine total_time total_work];
        rewrite length_update; assumption.
    + cbn [arrays]. exact Hext.
    + intros j a' Hj (A1 & A2 & A3 & A4 & A5). repeat split;
        cbn [calcM psums_delta psums_fine total_time total_work];
        rewrite nth_error_update_neq by exact Hj; assumption.
    + destruct (Z.ltb_spec 0 m); [|lia].
      exists a. split; [|exact HQ]. repeat split;
        cbn [calcM psums_delta psums_fine total_time total_work];
        apply nth_error_update_eq; lia.
Qed.

(** The loop over the levels, from level [i] on. *)
Lemma sums_from_ok (n : nat) :
  length lvls = n -> length M = n ->
  Forall (fun m => m <= Z.of_nat fuel) M ->
  forall (count i : nat) (st : St) (o : out),
    (i + count = n)%nat -> sums_length n o ->
    exists st' o',
      sample_from fnSampleSums fuel st lvls M (Z.of_nat i) count o
      = Some (Ok (st', o'))
      /\ sums_length n o'
      /\ store_extends (arrays o) (arrays o')
      /\ (forall j a, (j < i)%nat -> level_is o j a -> level_is o' j a)
      /\ (forall j lvl m,
            (i <= j)%nat -> nth_error lvls j = Some lvl ->
            nth_error M j = Some m ->
            if 0 <? m
            then exists a, level_is o' j a /\ Q lvl m (arrays o') a
            else forall a, level_is o j a -> level_is o' j a).
Proof.
  intros Hlvls HM Hfuel.
  induction count as [|count IH]; intros i st o Hi Ho.
  - exists st, o. split; [reflexivity|]. split; [exact Ho|].
    split; [apply store_extends_refl|]. split; [trivial|].
    intros j lvl m Hj Hl _.
    assert (j < length lvls)%nat by (apply nth_error_Some; congruence).
    lia.
  - assert (Hil : (i < length lvls)%nat) by lia.
    assert (HiM : (i < length M)%nat) by lia.
    destruct (nth_error lvls i) as [lvl|] eqn:El;
      [|apply nth_error_None in El; lia].
    destruct (nth_error M i) as [m|] eqn:Em;
      [|apply nth_error_None in Em; lia].
    assert (Hmf : m <= Z.of_nat fuel).
    { rewrite Forall_forall in Hfuel. apply Hfuel.
      eapply nth_error_In. exact Em. }
    destruct (@sums_at_ok st i n o lvl m El Em Ho ltac:(lia) Hmf)
      as (st1 & o1 & Hat & Ho1 & Hext1 & Hother & Hthis).
    cbn [sample_from]. rewrite Hat.
    replace (Z.of_nat i + 1) with (Z.of_nat (S i)) by lia.
    destruct (IH (S i) st1 o1 ltac:(lia) Ho1)
      as (st' & o' & Hrun & Ho' & Hext' & Hbefore & Hafter).
    exists st', o'. split; [exact Hrun|]. split; [exact Ho'|].
    split; [eapply store_extends_trans; eassumption|]. split.
    + intros j a Hj Ha. apply Hbefore; [lia|]. apply Hother; [lia|exact Ha].
    + intros j lvl' m' Hj Hl' Hm'.
      destruct (Nat.eq_dec j i) as [->|Hne].
      * rewrite El in Hl'. injection Hl' as <-.
        rewrite Em in Hm'. injection Hm' as <-.
        destruct (0 <? m).
        -- destruct Hthis as (a & Ha & HQ). exists a.
           split; [apply Hbefore; [lia|exact Ha]|].
           apply Q_stable with (h := arrays o1); assumption.
        -- intros a Ha. apply Hbefore; [lia|]. apply Hthis. exact Ha.
      * specialize (Hafter j lvl' m' ltac:(lia) Hl' Hm').
        destruct (0 <? m'); [exact Hafter|].
        intros a Ha. apply Hafter. apply Hother; [exact Hne|exact Ha].
Qed.

(** The whole function. *)
Lemma default_sample_all_sums_ok (st : St) (moments : Z) :
  length M = length lvls ->
  Forall (fun m => m <= Z.of_nat fuel) M ->
  (forall f, fnWorkModel = Some f -> exists wl, f lvls = Ok wl) ->
  exists st' o,
    default_sample_all_sums fnSampleSums fnWorkModel fuel st lvls M moments
    = Some (Ok (st', o))
    /\ sums_length (length lvls) o
    /\ forall i lvl m,
         nth_error lvls i = Some lvl -> nth_error M i = Some m ->
         if 0 <? m
         then exists a, level_is o i a /\ Q lvl m (arrays o) a
         else level_is o i acc_none.
Proof.
  intros HM Hfuel Hwork.
  unfold default_sample_all_sums.
  set (n := length lvls).
  set (o0 := {| calcM := repeat 0 n; psums_delta := repeat PyNone n;
                psums_fine := repeat PyNone n;
                total_time := repeat zero n;
                total_work := repeat zero n; arrays := [] |}).
  assert (Ho0 : sums_length n o0).
  { repeat split; cbn [o0 calcM psums_delta psums_fine total_time
                         total_work]; apply repeat_length. }
  assert (Hwl : exists wl,
            match fnWorkModel with Some f => f lvls | None => Ok [] end
            = Ok wl).
  { destruct fnWorkModel as [f|]; [apply Hwork; reflexivity|eauto]. }
  destruct Hwl as (wl & ->).
  change (sample_from fnSampleSums fuel st lvls M 0 n o0)
    with (sample_from fnSampleSums fuel st lvls M (Z.of_nat 0) n o0).
  destruct (@sums_from_ok n eq_refl HM Hfuel n 0%nat st o0 eq_refl Ho0)
    as (st' & o & Hrun & Ho & _ & _ & Hafter).
  exists st', o. split; [exact Hrun|]. split; [exact Ho|].
  intros i lvl m Hl Hm. specialize (Hafter i lvl m ltac:(lia) Hl Hm).
  destruct (0 <? m); [exact Hafter|].
  apply Hafter.
  assert (Hi : (i < n)%nat) by (apply nth_error_Some; congruence).
  repeat split; cbn [o0 calcM psums_delta psums_fine total_time total_work
                       acc_none acc_M acc_delta acc_fine acc_time acc_work];
    apply nth_error_repeat; exact Hi.
Qed.

End Levels.

End Loops.


(** X28.  With a sampler of sums that always returns None for the sums of
    the differences, the entries [psums_delta[i]] and [psums_fine[i]] of a
    level with [M[i] > 0] refer to one and the same array: the fine sums
    of the first batch, to which the fine sums of every later batch were
    added twice, once through each entry.  There is a later batch as soon
    as the first one has fewer than [M[i]] samples. *)
Theorem default_sample_all_sums_aliases (St : Type)
  (fnSampleSums : St -> list (list Z) -> Z -> result (St * ret))
  (fnWorkModel : option (VarSizeList -> result (list float64)))
  (P : list Z -> ret -> Prop) (p fuel : nat) (st : St)
  (lvls : VarSizeList) (M : list Z) (moments : Z) :
  length M = length lvls ->
  Forall (fun m => m <= Z.of_nat fuel) M ->
  (forall lvl, In lvl lvls ->
     sampler_sums fnSampleSums (snd (expand_delta lvl)) p false (P lvl)) ->
  (forall f, fnWorkModel = Some f -> exists wl, f lvls = Ok wl) ->
  exists st' o,
    default_sample_all_sums fnSampleSums fnWorkModel fuel st lvls M moments
    = Some (Ok (st', o))
    /\ forall i lvl m,
         nth_error lvls i = Some lvl -> nth_error M i = Some m ->
         if 0 <? m
         then exists a b1 rest,
                level_is o i a
                /\ sums_aliased (P lvl) p 0 (arrays o) a (b1 :: rest)
                /\ m <= batch_count (b1 :: rest)
                /\ (cur_M b1 < m -> rest <> [])
         else level_is o i acc_none.
Proof.
  intros HM Hfuel Hs Hwork.
  destruct (@default_sample_all_sums_ok St fnSampleSums fnWorkModel
              (fun lvl m h a =>
                 exists b1 rest,
                   sums_aliased (P lvl) p 0 h a (b1 :: rest)
                   /\ m <= batch_count (b1 :: rest))
              fuel lvls M) with (st := st) (moments := moments)
    as (st' & o & Hrun & _ & Hlev); trivial.
  - intros lvl m h h' a Hext (b1 & rest & Hk & Hm).
    exists b1, rest. split; [|exact Hm].
    apply sums_aliased_stable with (n0 := 0%nat) (h := h); assumption.
  - intros lvl m st0 h Hin Hm Hmf.
    destruct (@sample_level_inv St fnSampleSums
                (sums_aliased (P lvl) p (length h)) h
                (snd (expand_delta lvl)) m)
      with (fuel := fuel) (st := st0) (h := h) (bs := @nil ret)
           (a := {| acc_M := 0; acc_delta := EmptyObj; acc_fine := EmptyObj;
                    acc_time := zero; acc_work := zero |})
      as (st1 & h1 & a1 & bs & Hrun & Hext & Hinv & Hge).
    + intros st1 h1 a1 bs Hlt Hext Hinv.
      apply sample_step_aliased; trivial. apply Hs. exact Hin.
    + cbn [acc_M]. lia.
    + apply store_extends_refl.
    + split; [reflexivity|]. split; [constructor|]. split; reflexivity.
    + exists st1, h1, a1. split; [exact Hrun|]. split; [exact Hext|].
      destruct bs as [|b1 rest].
      * destruct Hinv as (HM0 & _). rewrite HM0, batch_count_nil in Hge. lia.
      * exists b1, rest. split.
        -- apply sums_aliased_stable with (n0 := length h) (h := h1);
             [apply store_extends_refl|exact Hinv].
        -- destruct Hinv as (HM0 & _). rewrite <- HM0. exact Hge.
  - exists st', o. split; [exact Hrun|].
    intros i lvl m Hl Hm. specialize (Hlev i lvl m Hl Hm).
    destruct (0 <? m); [|exact Hlev].
    destruct Hlev as (a & Ha & b1 & rest & Hk & Hge).
    exists a, b1, rest. split; [exact Ha|]. split; [exact Hk|].
    split; [exact Hge|].
    intros Hlt ->. unfold batch_count, sumZ in Hge. simpl in Hge. lia.
Qed.

End SumsFacts.

(** * Examples *)

Module Examples.

Lemma levels_added_keeps_per_level_witness :
  per_level itr_one_level
  /\ exists self',
       Itr.lvls_add_from_list append_levels itr_one_level [[1]; [2]] None
       = Ok self'
       /\ _lvls self' = [[0]; [1]; [2]]
       /\ levels_added_post itr_one_level self'.
Proof.
  assert (H : per_level itr_one_level).
  { unfold per_level, rows_are. simpl.
    repeat (split; [reflexivity|]).
    split; intros m Hm; injection Hm as <-; reflexivity. }
  split; [exact H|].
  destruct (ItrFacts.levels_added_keeps_per_level append_levels H)
    as [_ H2].
  apply (H2 [[1]; [2]] None). simpl. lia.
Defined.

Lemma expand_delta_corners_witness :
  Forall (fun l => 0 <= l) [2; 0; 1]
  /\ exists inds,
       expand_delta [2; 0; 1]
       = (map parity_sign inds, map (corner_point [2; 0; 1]) inds)
       /\ length inds = 4%nat
       /\ NoDup inds
       /\ (forall e, In e inds <-> is_corner [2; 0; 1] e)
       /\ NoDup (map (corner_point [2; 0; 1]) inds).
Proof.
  assert (H : Forall (fun l => 0 <= l) [2; 0; 1]).
  { repeat constructor; lia. }
  split; [exact H|].
  exact (proj1 ExpandDelta.expand_delta_corners [2; 0; 1] H).
Defined.

Lemma central_moment_1_is_raw_moment_witness :
  let psums := Np.Matrix 2 [[of_Z 6; of_Z 12]; [of_Z 0; of_Z 0]] in
  let M := [3; 0] in
  Np.wf_matrix psums /\ length M = Np.nrows psums
  /\ (0 < Np.ncols psums)%nat
  /\ exists raw col,
       compute_raw_moments psums M = Ok raw
       /\ compute_central_moment psums M 1 = Ok col
       /\ Np.column raw 0 = Ok col
       /\ length col = length M
       /\ forall l m row,
            nth_error M l = Some m ->
            nth_error (Np.rows psums) l = Some row ->
            nth_error col l
            = Some (if m =? 0 then NaN else (nth 0 row NaN / of_Z m)%f64).
Proof.
  intros psums M.
  assert (Hwf : Np.wf_matrix psums).
  { unfold Np.wf_matrix. simpl. repeat constructor. }
  assert (Hlen : length M = Np.nrows psums) by reflexivity.
  assert (Hc : (0 < Np.ncols psums)%nat) by (simpl; lia).
  split; [exact Hwf|]. split; [exact Hlen|]. split; [exact Hc|].
  exact (proj2 MomentFacts.central_moment_1_is_raw_moment psums M
           Hwf Hlen Hc).
Defined.

Lemma calcTheoryM_inactive_zero_nan_minimum_witness :
  let Vl := [of_Z 4; NaN; of_Z 1] in
  let Wl := [of_Z 1; of_Z 2; of_Z 4] in
  let active := [-1; 0; 1] in
  length Vl = length active /\ length Wl = length active
  /\ exists M,
       _calcTheoryM (of_Z 1) (of_Z 1) Vl Wl active true (of_Z 1) (of_Z 2)
       = Ok M
       /\ int_counts M = true
       /\ count_length M = length active
       /\ forall l a v,
            nth_error active l = Some a -> nth_error Vl l = Some v ->
            (a < 0 -> count_at M l = Some (of_Z 0))
            /\ (0 <= a -> isnan v = true ->
                count_at M l = Some (of_Z (astype_int (ceil (of_Z 1))))).
Proof.
  intros Vl Wl active.
  split; [reflexivity|]. split; [reflexivity|].
  exact (@AllocFacts.calcTheoryM_inactive_zero_nan_minimum
           (of_Z 1) (of_Z 1) Vl Wl active true (of_Z 1) (of_Z 2)
           eq_refl eq_refl).
Defined.

Lemma estimate_bias_bnd_norm_of_sum_witness :
  let is_boundary := fun _ : VarSizeList => [true] in
  let run := run_unsampled 0 in
  let itr := itr_unsampled 0 in
  Run.last_itr run = Some itr
  /\ Itr.calcEl itr 1 false true = Ok [NaN]
  /\ _lvls_count itr = length (_lvls itr)
  /\ length (is_boundary (_lvls itr)) = length [NaN]
  /\ existsb isnan
       (boundary_terms [NaN] (active_lvls itr) (is_boundary (_lvls itr)))
     = false
  /\ estimate_bias_bnd is_boundary run = Ok PInf.
Proof.
  intros is_boundary run itr.
  assert (H1 : Run.last_itr run = Some itr) by reflexivity.
  assert (H2 : Itr.calcEl itr 1 false true = Ok [NaN]) by reflexivity.
  assert (H3 : _lvls_count itr = length (_lvls itr)) by reflexivity.
  assert (H4 : length (is_boundary (_lvls itr)) = length [NaN])
    by reflexivity.
  assert (H5 : existsb isnan
                 (boundary_terms [NaN] (active_lvls itr)
                    (is_boundary (_lvls itr))) = false) by reflexivity.
  repeat (split; [assumption|]).
  exact (BiasFacts.estimate_bias_bnd_norm_of_sum is_boundary run
           H1 H2 H3 H4 H5).
Defined.

Lemma estimateQParams_raises_below_three_levels_witness :
  lsq_est (params run_two_sampled) = true
  /\ (exists all,
        Run.all_itr run_two_sampled = Ok (Some all)
        /\ Np.sumZ (M all) <> 0
        /\ (Itr.lvls_count all <= 2)%nat
        /\ levels_with_samples (M all) = 2%nat)
  /\ Run._estimateQParams power_example run_two_sampled
     = Raise (Exception "Must have at least 2 levels").
Proof.
  assert (H1 : lsq_est (params run_two_sampled) = true) by reflexivity.
  pose (all := itr_bayes [[0]; [1]] [4; 2]
                 [[of_Z 4; of_Z 4]; [of_Z 1; of_Z 1]]).
  assert (H2 : Run.all_itr run_two_sampled = Ok (Some all)) by reflexivity.
  assert (H3 : Np.sumZ (M all) <> 0) by (vm_compute; discriminate).
  assert (H4 : (Itr.lvls_count all <= 2)%nat) by (simpl; lia).
  split; [exact H1|]. split.
  - exists all. repeat split; assumption.
  - exact (RunFacts.estimateQParams_raises_below_three_levels power_example
             run_two_sampled H1 H2 H3 H4).
Defined.


Lemma central_moment_2_is_variance_witness :
  let psums := Np.Matrix 2 [[of_Z 2; of_Z 4]; [of_Z 0; of_Z 0]] in
  let M := [2; 0] in
  length M = Np.nrows psums /\ (2 <= Np.ncols psums)%nat
  /\ exists val,
       compute_central_moment psums M 2 = Ok val
       /\ nth_error val 0 = Some (Fin (4 / 2 - (2 / 2) ^ 2))
       /\ nth_error val 1 = Some NaN.
Proof.
  intros psums M.
  assert (H1 : length M = Np.nrows psums) by reflexivity.
  assert (H2 : (2 <= Np.ncols psums)%nat) by (simpl; lia).
  split; [exact H1|]. split; [exact H2|].
  destruct (CentralMoments.central_moment_2_is_variance psums M H1 H2)
    as (val & Hval & _ & Hl).
  exists val. split; [exact Hval|]. split.
  - exact (proj2 (Hl 0%nat 2 [of_Z 2; of_Z 4] eq_refl eq_refl)
             2%R 4%R ltac:(lia) eq_refl eq_refl).
  - exact (proj1 (Hl 1%nat 0 [of_Z 0; of_Z 0] eq_refl eq_refl) eq_refl).
Defined.

Lemma central_moment_order_edges_witness :
  let psums := Np.Matrix 2 [[of_Z 2; of_Z 4]; [of_Z 0; of_Z 0]] in
  let M := [2; 0] in
  length M = Np.nrows psums
  /\ compute_central_moment psums M 3 = Raise IndexError
  /\ compute_central_moment psums M (-1) = Raise ValueError
  /\ compute_central_moment psums M 0 = Ok [one; one].
Proof.
  intros psums M.
  assert (H1 : length M = Np.nrows psums) by reflexivity.
  split; [exact H1|].
  split; [|split].
  - apply (proj1 (CentralMoments.central_moment_order_edges psums M 3 H1)).
    simpl. lia.
  - apply (proj1 (proj2 (CentralMoments.central_moment_order_edges
                           psums M (-1) H1))); simpl; lia.
  - apply (proj2 (proj2 (CentralMoments.central_moment_order_edges
                           psums M 0 H1))). simpl. lia.
Defined.

Lemma addSamples_adds_witness :
  sums_contract itr_one_level
  /\ exists self',
       ItrOps.addSamples itr_one_level 0 2 [of_Z 1; of_Z 1]
         [of_Z 2; of_Z 4] (of_Z 1) (of_Z 1) = Ok self'
       /\ sums_contract self'
       /\ M self' = [5].
Proof.
  assert (H : sums_contract itr_one_level).
  { unfold sums_contract, per_level, rows_are, table_fits. simpl.
    split.
    { repeat (split; [reflexivity|]).
      split; intros m Hm; injection Hm as <-; reflexivity. }
    split; [|split].
    - intros m Hm. injection Hm as <-.
      repeat split. repeat constructor.
    - intros m Hm. injection Hm as <-.
      repeat split. repeat constructor.
    - intros [H|H]; discriminate. }
  split; [exact H|].
  destruct (@SampleFacts.addSamples_adds itr_one_level 0%nat 3 2
              [of_Z 1; of_Z 1] [of_Z 2; of_Z 4] (of_Z 1) (of_Z 1)
              H eq_refl eq_refl eq_refl)
    as (self' & td & tf & H1 & H2 & _ & H3 & _).
  exists self'. split; [exact H1|]. split; [exact H2|]. exact H3.
Defined.

Lemma addSamples_refuses_witness :
  ItrOps.addSamples itr_one_level 0 2 [of_Z 1] [of_Z 2; of_Z 4]
    (of_Z 1) (of_Z 1) = Raise AssertionError
  /\ ItrOps.addSamples itr_one_level 1 2 [of_Z 1; of_Z 1] [of_Z 2; of_Z 4]
       (of_Z 1) (of_Z 1) = Raise IndexError
  /\ ItrOps.addSamples itr_untabled 0 2 [of_Z 1; of_Z 1] [of_Z 2; of_Z 4]
       (of_Z 1) (of_Z 1) = Raise TypeError.
Proof.
  split; [|split].
  - apply (proj1 (SampleFacts.addSamples_refuses itr_one_level 0 2
                    [of_Z 1] [of_Z 2; of_Z 4] (of_Z 1) (of_Z 1))).
    left. simpl. lia.
  - apply (proj1 (proj2 (SampleFacts.addSamples_refuses itr_one_level 1 2
                    [of_Z 1; of_Z 1] [of_Z 2; of_Z 4] (of_Z 1) (of_Z 1))));
      try reflexivity.
    right. simpl. lia.
  - apply (proj2 (proj2 (SampleFacts.addSamples_refuses itr_untabled 0 2
                    [of_Z 1; of_Z 1] [of_Z 2; of_Z 4] (of_Z 1) (of_Z 1)))
             eq_refl eq_refl 3); try reflexivity.
    lia.
Defined.

Lemma zero_samples_one_level_witness :
  sums_contract itr_one_level
  /\ (exists self',
        Itr.zero_samples itr_one_level (Some 0) = Ok self'
        /\ sums_contract self' /\ M self' = [0])
  /\ Itr.zero_samples itr_one_level (Some 1) = Raise IndexError.
Proof.
  pose proof SampleFacts.itr_one_level_contract as H.
  split; [exact H|].
  destruct (SampleFacts.zero_samples_one_level 0 H) as [H0 _].
  destruct (SampleFacts.zero_samples_one_level 1 H) as [_ H1].
  split.
  - destruct (H0 ltac:(simpl; lia)) as (self' & E & Hc & _ & HM & _).
    exists self'. split; [exact E|]. split; [exact Hc | exact HM].
  - apply H1. simpl. lia.
Defined.

Lemma addSamples_after_zero_samples_witness :
  sums_contract itr_one_level
  /\ exists z self',
       Itr.zero_samples itr_one_level None = Ok z
       /\ ItrOps.addSamples z 0 2 [of_Z 1; of_Z 1] [of_Z 2; of_Z 4]
            (of_Z 5) (of_Z 7) = Ok self'
       /\ M self' = [2] /\ tT self' = [of_Z 5] /\ tW self' = [of_Z 7]
       /\ option_map Np.rows (psums_delta self') = Some [[of_Z 1; of_Z 1]].
Proof.
  pose proof SampleFacts.itr_one_level_contract as H.
  split; [exact H|].
  destruct (@SampleFacts.addSamples_after_zero_samples itr_one_level 0%nat 2
              [of_Z 1; of_Z 1] [of_Z 2; of_Z 4] (of_Z 5) (of_Z 7) H
              ltac:(simpl; lia) eq_refl eq_refl)
    as (z & self' & td & tf & Hz & Ha & _ & HM & HT & HW & Hd & Hrd & _).
  exists z, self'. split; [exact Hz|]. split; [exact Ha|].
  split; [exact HM|]. split; [exact HT|]. split; [exact HW|].
  rewrite Hd. simpl. rewrite Hrd. reflexivity.
Defined.

Lemma calcWl_calcTl_per_sample_witness :
  let self := itr_two_moments in
  length (tW self) = length (M self)
  /\ Itr.calcWl self = Ok [(of_Z 1 / of_Z 2)%f64; (of_Z 1 / of_Z 2)%f64]
  /\ Itr.calcWl (itr_unsampled 1) = Ok [zero]
  /\ ItrOps.calcTl (itr_unsampled 1) = Ok [zero].
Proof.
  intros self.
  assert (H : length (tW self) = length (M self)) by reflexivity.
  split; [exact H|]. split; [|split].
  - exact (proj1 (AverageFacts.calcWl_calcTl_per_sample self) H).
  - exact (proj1 (AverageFacts.calcWl_calcTl_per_sample (itr_unsampled 1))
             eq_refl).
  - exact (proj1 (proj2 (AverageFacts.calcWl_calcTl_per_sample
                           (itr_unsampled 1))) eq_refl).
Defined.

Lemma calcTheoryM_floor_witness :
  let Vl := [of_Z 4; NaN; of_Z 1] in
  let Wl := [of_Z 1; of_Z 2; of_Z 4] in
  let active := [-1; 0; 1] in
  length Vl = length active /\ length Wl = length active
  /\ exists Mf,
       _calcTheoryM (of_Z 1) (of_Z 1) Vl Wl active false (of_Z 3) (of_Z 2)
       = Ok (inr Mf)
       /\ forall y, nth_error Mf 1 = Some y ->
                    y = of_Z 3 \/ leb (of_Z 3) y = true.
Proof.
  intros Vl Wl active.
  split; [reflexivity|]. split; [reflexivity|].
  destruct (@AllocGuarantee.calcTheoryM_floor (of_Z 1) (of_Z 1) Vl Wl active
              (of_Z 3) (of_Z 2) eq_refl eq_refl) as (Mf & HM & _ & Hf).
  exists Mf. split; [exact HM|].
  intros y Hy. apply (Hf 1%nat 0 y eq_refl); [lia | exact Hy].
Defined.

Lemma calcTheoryM_length_mismatch_witness :
  _calcTheoryM (of_Z 1) (of_Z 1) [of_Z 1; of_Z 1] [of_Z 1] [1] true
    (of_Z 1) (of_Z 2) = Raise IndexError.
Proof.
  apply AllocGuarantee.calcTheoryM_length_mismatch.
  right. simpl. lia.
Defined.

Lemma expand_delta_telescopes_witness :
  let f := fun p : list Z => IZR (Np.sumZ p * Np.sumZ p) in
  Forall (fun l => 0 <= l) [2; 1]
  /\ rsum (map (delta_of f) (box [2; 1])) = f [2; 1].
Proof.
  intros f.
  assert (H : Forall (fun l => 0 <= l) [2; 1]).
  { repeat constructor; lia. }
  split; [exact H|].
  exact (Telescope.expand_delta_telescopes f H).
Defined.

Lemma estimate_bias_abs_bnd_never_returns_witness :
  Run.last_itr run_cancel = Some itr_cancel
  /\ (exists El, Itr.calcEl itr_cancel 1 false true = Ok El)
  /\ estimate_bias_abs_bnd all_boundary run_cancel = Raise TypeError.
Proof.
  assert (H : exists El, Itr.calcEl itr_cancel 1 false true = Ok El).
  { eexists. reflexivity. }
  split; [reflexivity|]. split; [exact H|].
  destruct H as [El HEl].
  exact (proj2 (ToleranceFacts.estimate_bias_abs_bnd_never_returns
                  all_boundary run_cancel) itr_cancel El eq_refl HEl).
Defined.

Lemma calcTheta_split_witness :
  const_theta params_half_theta = false
  /\ (isnan (_calcTheta params_half_theta (Fin 1) (Fin (1 / 4))) = true
      \/ leb (theta params_half_theta)
           (_calcTheta params_half_theta (Fin 1) (Fin (1 / 4))) = true)
  /\ _calcTheta params_half_theta (Fin 0) (Fin (1 / 4)) = PInf
  /\ _calcTheta params_half_theta (Fin 1) PInf = Fin (1 / 2)
  /\ isnan (_calcTheta params_half_theta PInf PInf) = true.
Proof.
  split; [reflexivity|].
  split; [|split; [|split]].
  - exact (proj1 (proj2 (ToleranceFacts.calcTheta_split params_half_theta
                           (Fin 1) (Fin (1 / 4))) eq_refl)).
  - apply (proj1 (proj2 (proj2 (ToleranceFacts.calcTheta_split
                                  params_half_theta (Fin 0) (Fin (1 / 4)))
                           eq_refl))).
    + unfold ltb, of_Z. rewrite F64Facts.Rcompare_Eq. reflexivity.
    + reflexivity.
  - apply (proj1 (proj2 (proj2 (proj2 (ToleranceFacts.calcTheta_split
                                         params_half_theta (Fin 1) PInf)
                                  eq_refl))) 1%R eq_refl); [lra|reflexivity].
  - apply (proj2 (proj2 (proj2 (proj2 (ToleranceFacts.calcTheta_split
                                         params_half_theta PInf PInf)
                                  eq_refl)))); reflexivity.
Defined.

Lemma tol_not_satisfied_without_bias_witness :
  let itr := itr_bayes [[0]] [1] [[of_Z 1; of_Z 1]] in
  bias itr = PInf
  /\ is_itr_tol_satisfied params_half_theta itr = Ok false
  /\ is_itr_tol_satisfied params_half_theta itr_one_level = Raise TypeError.
Proof.
  intros itr. split; [reflexivity|]. split.
  - exact (proj1 (ToleranceFacts.tol_not_satisfied_without_bias
                    params_half_theta itr) (or_introl eq_refl)
             (Fin (1 / 10)) eq_refl).
  - exact (proj2 (ToleranceFacts.tol_not_satisfied_without_bias
                    params_half_theta itr_one_level) eq_refl).
Defined.

Lemma timer_stack_witness :
  let s := {| Timer._tics := []; Timer.readings := 0 |} in
  Timer._tics s = []
  /\ Timer.toc counting_clock s true = Raise AssertionError
  /\ Timer.toc counting_clock (Timer.tic counting_clock s) true
     = Ok ((counting_clock 1 - counting_clock 0)%f64,
           {| Timer._tics := []; Timer.readings := 2 |}).
Proof.
  intros s. split; [reflexivity|].
  destruct (UtilFacts.timer_stack counting_clock s) as (H1 & _ & H3 & _).
  split; [exact (H3 eq_refl true) | exact H1].
Defined.

Lemma bunch_none_is_missing_witness :
  let kwargs := [("TOL"%string, Some 1); ("h0inv"%string, None)] in
  let getattr := BunchDict.getattr object_attr object_data_descriptor in
  let hasattr := BunchDict.hasattr object_attr object_data_descriptor in
  NoDup (map fst kwargs)
  /\ getattr (BunchDict.__init__ kwargs) "TOL"%string
     = Ok (BunchDict.Value 1)
  /\ getattr (BunchDict.__init__ kwargs) "h0inv"%string
     = Raise AttributeError
  /\ hasattr (BunchDict.__init__ kwargs) "M0"%string = false
  /\ hasattr (BunchDict.__init__ kwargs) "getDict"%string = true.
Proof.
  intros kwargs getattr hasattr.
  assert (Hnd : NoDup (map fst kwargs)).
  { simpl. constructor.
    - intros [H|[]]. discriminate.
    - constructor; [intros []|constructor]. }
  split; [exact Hnd|].
  split; [|split; [|split]].
  - apply (proj1 (proj1 (@UtilFacts.bunch_none_is_missing Z object_attr
                           object_data_descriptor kwargs "TOL" Hnd)
                    eq_refl) 1).
    left. reflexivity.
  - apply (proj2 (proj1 (@UtilFacts.bunch_none_is_missing Z object_attr
                           object_data_descriptor kwargs "h0inv" Hnd)
                    eq_refl)).
    left. right. left. reflexivity.
  - apply (proj2 (proj1 (@UtilFacts.bunch_none_is_missing Z object_attr
                           object_data_descriptor kwargs "M0" Hnd)
                    eq_refl)).
    right. simpl. intros [H|[H|[]]]; discriminate.
  - exact (proj2 (proj2 (@UtilFacts.bunch_none_is_missing Z object_attr
                           object_data_descriptor kwargs "M0" Hnd))).
Defined.

Lemma genSamples_nothing_to_do_witness :
  Run.last_itr run_two_moments = Some itr_two_moments
  /\ _genSamples power_example norm_ppf_example bias_zero sampler_none
       run_two_moments [2; 1]
     = Ok (false, run_two_moments).
Proof.
  split; [reflexivity|].
  apply (@GenSamples.genSamples_nothing_to_do power_example norm_ppf_example
           bias_zero sampler_none run_two_moments itr_two_moments [2; 1]);
    try reflexivity.
  intros l t m a Ht Hm Ha _.
  destruct l as [|[|l]]; simpl in Ht, Hm.
  - injection Ht as <-. injection Hm as <-. lia.
  - injection Ht as <-. injection Hm as <-. lia.
  - destruct l; discriminate.
Defined.

Lemma genSamples_adds_witness :
  sums_contract itr_two_moments
  /\ exists self' last',
       _genSamples power_example norm_ppf_example bias_zero sampler_ones
         run_two_moments [3; 2]
       = Ok (true, self')
       /\ Run.last_itr self' = Some last'
       /\ nth_error (M last') 0 = Some 3
       /\ nth_error (M last') 1 = Some 2.
Proof.
  assert (Hc : sums_contract itr_two_moments).
  { unfold sums_contract, per_level, rows_are, table_fits. simpl.
    split.
    { repeat (split; [reflexivity|]).
      split; intros m Hm; injection Hm as <-; reflexivity. }
    split; [|split].
    - intros m Hm. injection Hm as <-. repeat split. repeat constructor.
    - intros m Hm. injection Hm as <-. repeat split. repeat constructor.
    - intros [H|H]; discriminate. }
  split; [exact Hc|].
  pose (s := {| Samples.calcM := [1; 0];
                Samples.psums_delta := [[of_Z 1; of_Z 1]; [of_Z 0; of_Z 0]];
                Samples.psums_fine := [[of_Z 1; of_Z 1]; [of_Z 0; of_Z 0]];
                Samples.total_time := [of_Z 1; of_Z 0];
                Samples.total_work := [of_Z 1; of_Z 0] |}).
  assert (Hfit : samples_fit 2 2 s).
  { unfold samples_fit. simpl. repeat (split; [reflexivity|]).
    intros l c pd pf Hl Hpos Hpd Hpf.
    destruct l as [|[|l]]; simpl in Hl, Hpd, Hpf.
    - injection Hpd as <-. injection Hpf as <-. split; reflexivity.
    - injection Hl as <-. lia.
    - destruct l; discriminate. }
  assert (Hex : Exists (fun c => 0 < c) (Samples.calcM s)).
  { simpl. apply Exists_cons_hd. lia. }
  destruct (@GenSamples.genSamples_adds power_example norm_ppf_example
              bias_zero sampler_ones run_two_moments itr_two_moments [3; 2] s
              eq_refl eq_refl eq_refl Hc eq_refl eq_refl
              ltac:(vm_compute; discriminate) eq_refl Hfit Hex
              (fun r => ex_intro _ (of_Z 0) eq_refl))
    as (self' & last' & E & Hl & Hgrow & _).
  exists self', last'. split; [exact E|]. split; [exact Hl|]. split.
  - exact (Hgrow 0%nat 2 1 eq_refl eq_refl).
  - exact (Hgrow 1%nat 2 0 eq_refl eq_refl).
Defined.

Lemma calcEg_sums_level_means_witness :
  sums_contract itr_two_moments
  /\ exists El,
       Itr.calcEl itr_two_moments 1 false true = Ok El
       /\ nth_error El 1 = Some (level_mean (of_Z 1) 2 [of_Z (-2); of_Z 6])
       /\ ItrOps.calcEg itr_two_moments
          = Ok (Np.sum (Np.compress (in_estimator itr_two_moments) El)).
Proof.
  assert (Hc : sums_contract itr_two_moments).
  { unfold sums_contract, per_level, rows_are, table_fits. simpl.
    split.
    { repeat (split; [reflexivity|]).
      split; intros m Hm; injection Hm as <-; reflexivity. }
    split; [|split].
    - intros m Hm. injection Hm as <-. repeat split. repeat constructor.
    - intros m Hm. injection Hm as <-. repeat split. repeat constructor.
    - intros [H|H]; discriminate. }
  split; [exact Hc|].
  assert (Ha : allocated itr_two_moments) by (split; discriminate).
  assert (Hm : 1 <= moments itr_two_moments) by (simpl; lia).
  destruct (@ExpectationFacts.calcEg_sums_level_means itr_two_moments
              Hc Ha Hm) as (El & H1 & _ & H3 & H4).
  exists El. split; [exact H1|]. split; [|exact H4].
  exact (H3 1%nat 1 2 (of_Z 1) [of_Z (-2); of_Z 6] [of_Z (-2); of_Z 6]
           eq_refl eq_refl eq_refl eq_refl eq_refl).
Defined.

Lemma calcEl_before_samples_witness :
  psums_delta itr_untabled = None
  /\ active_lvls itr_untabled <> []
  /\ Itr.calcEl itr_untabled 1 false true = Raise IndexError.
Proof.
  split; [reflexivity|].
  assert (Hne : active_lvls itr_untabled <> []) by (simpl; discriminate).
  split; [exact Hne|].
  apply (proj1 (@ExpectationFacts.calcEl_before_samples itr_untabled 1 false
                  true eq_refl)).
  exact Hne.
Defined.

Lemma default_sample_all_power_sums_witness :
  sampler_draws sampler_const (snd (expand_delta [1])) (fun _ => True)
  /\ exists st' o,
       SampleAll.default_sample_all sampler_const None 2 tt [[1]] [2] 2
       = Some (Ok (st', o))
       /\ level_sampled (fun _ => True) 2 (fst (expand_delta [1])) 2 o 0.
Proof.
  assert (Hd : forall inds,
            sampler_draws sampler_const inds (fun _ => True)).
  { intros inds st m Hm.
    exists st, (repeat (repeat 1%R (length inds)) (Z.to_nat m)), zero, zero.
    split; [reflexivity|]. split; [|split].
    - destruct (Z.to_nat m) eqn:E; [lia|discriminate].
    - apply Forall_forall. intros r Hr. apply repeat_spec in Hr.
      subst r. apply repeat_length.
    - apply Forall_forall. trivial. }
  split; [apply Hd|].
  destruct (@SamplingFacts.default_sample_all_power_sums unit sampler_const
              None (fun _ _ => True) 2 tt [[1]] [2] 2)
    as (st' & o & Hrun & _ & Hlev).
  - reflexivity.
  - lia.
  - constructor; [simpl; lia|constructor].
  - intros lvl _. apply Hd.
  - intros f Hf. discriminate.
  - exists st', o. split; [exact Hrun|].
    exact (Hlev 0%nat [1] 2 eq_refl eq_refl).
Defined.

Lemma default_sample_all_refuses_witness :
  first_requested [0; 2] 1 2
  /\ SampleAll.default_sample_all sampler_pair None 1 tt [[0]; [1]] [0; 2] 2
     = Some (Raise AssertionError).
Proof.
  assert (Hf : first_requested [0; 2] 1 2).
  { split; [reflexivity|]. split; [lia|].
    intros j mj Hj Hm. destruct j as [|j]; [|lia].
    simpl in Hm. injection Hm as <-. lia. }
  split; [exact Hf|].
  apply (@SamplingFacts.default_sample_all_refuses unit sampler_pair None 1
           tt tt [[0]; [1]] [0; 2] 2 1 [1] 2
           {| SampleAll.values :=
                Np.Matrix 2 (map (map Fin) (repeat (repeat 1%R 2) 2));
              SampleAll.samples_time := zero;
              SampleAll.samples_work := None |}).
  - reflexivity.
  - reflexivity.
  - exact Hf.
  - lia.
  - intros f H. discriminate.
  - reflexivity.
  - left. split; reflexivity.
Defined.

Lemma default_sample_all_hangs_witness :
  first_requested [0; 2] 1 2
  /\ sampler_empty sampler_no_rows (snd (expand_delta [1]))
  /\ SampleAll.default_sample_all sampler_no_rows None 1000 tt [[0]; [1]]
       [0; 2] 2
     = None.
Proof.
  assert (Hf : first_requested [0; 2] 1 2).
  { split; [reflexivity|]. split; [lia|].
    intros j mj Hj Hm. destruct j as [|j]; [|lia].
    simpl in Hm. injection Hm as <-. lia. }
  assert (He : sampler_empty sampler_no_rows (snd (expand_delta [1]))).
  { intros st m. exists st, zero, zero. reflexivity. }
  split; [exact Hf|]. split; [exact He|].
  apply (@SamplingFacts.default_sample_all_hangs unit sampler_no_rows None
           tt [[0]; [1]] [0; 2] 2 1 [1] 2).
  - reflexivity.
  - lia.
  - reflexivity.
  - exact Hf.
  - intros f H. discriminate.
  - exact He.
Defined.


Lemma default_sample_all_sums_aliases_witness :
  sampler_sums sampler_sums_one (snd (expand_delta [0])) 2 false
    (fun r => SampleAllSums.cur_M r = 1)
  /\ exists st' o a b1 rest,
       SampleAllSums.default_sample_all_sums sampler_sums_one None 2 tt
         [[0]] [2] 2
       = Some (Ok (st', o))
       /\ level_is o 0 a
       /\ sums_aliased (fun r => SampleAllSums.cur_M r = 1) 2 0
            (SampleAllSums.arrays o) a (b1 :: rest)
       /\ rest <> [].
Proof.
  assert (Hs : forall inds,
            sampler_sums sampler_sums_one inds 2 false
              (fun r => SampleAllSums.cur_M r = 1)).
  { intros inds st m Hm. eexists st, _. split; [reflexivity|].
    split; [simpl; lia|]. split; [reflexivity|].
    split; reflexivity. }
  split; [apply Hs|].
  destruct (@SumsFacts.default_sample_all_sums_aliases unit sampler_sums_one
              None (fun _ r => SampleAllSums.cur_M r = 1) 2 2 tt [[0]] [2] 2)
    as (st' & o & Hrun & Hlev).
  - reflexivity.
  - constructor; [simpl; lia|constructor].
  - intros lvl _. apply Hs.
  - intros f Hf. discriminate.
  - destruct (Hlev 0%nat [0] 2 eq_refl eq_refl)
      as (a & b1 & rest & Ha & Hk & _ & Hrest).
    exists st', o, a, b1, rest. split; [exact Hrun|]. split; [exact Ha|].
    split; [exact Hk|]. apply Hrest.
    destruct Hk as (_ & HP & _). inversion HP as [|x l H1 H2]; subst.
    rewrite H1. lia.
Defined.

End Examples.
